(** * EdgeMind backend: the training-export pipeline of [src/api/routes/training.ts]

    A shallow embedding of the [POST /start] handler and of its two helpers
    ([convertToYOLOFormat], [createConfigYaml]), followed by the properties
    of the export that the specification states about it.

    - JavaScript numbers are IEEE-754 binary64 values: primitive floats.
      [Number.prototype.toFixed] and [Number::toString] are written out
      over the exact rational value of a float, as ECMA-262 defines them.
    - A plain object used as a dictionary ([annotationsByImage],
      [classMapping]) is the finite map of its own properties together
      with what it inherits from [Object.prototype]: reading a key that
      is not its own finds the inherited member. The [Map]
      ([imageAnnotationMap]) is a finite map; arrays are lists.
    - A string stands for a JavaScript string through its UTF-8 text;
      where JavaScript goes by UTF-16 code units (the default sort, the
      spread of a string) so does the development.
    - [String.prototype.toLowerCase] is a parameter of the development:
      every statement holds for whatever case mapping the engine has.
    - The file system and the upload worker are the handler's world; the
      handler is a computation in a small monad that records the I/O it
      performs, may answer early, and may throw. *)

From Stdlib Require Import ZArith Ascii PrimFloat FloatOps SpecFloat.
From Stdlib Require QArith Qround.
From stdpp Require Import gmap strings list pretty sorting.

Set Warnings "-inexact-float,-clear-no-such-hyp".

(** ** ECMAScript numbers *)

Module JSNumber.
Import QArith_base.

(** The real number a finite float stands for: mantissa times 2^exponent. *)
Definition Q_of_finite (m : positive) (e : Z) : Q :=
  Qmult (inject_Z (Z.pos m)) (Qpower (2 # 1) e).

Definition pow10 (n : Z) : Q := Qpower (10 # 1) n.

(** Decimal digits of a natural number, as JavaScript prints them. *)
Definition digits (n : Z) : string := pretty (Z.to_N n).

Definition zeros (n : nat) : string :=
  String.string_of_list_ascii (replicate n "0"%char).

(** Whether the real [v] rounds to the float [m * 2^e] (round to nearest,
    ties to even mantissa): [v] lies between the midpoints to the two
    neighbouring floats, the midpoints included when [m] is even. Below a
    power of two the lower neighbour is half as far. *)
Definition rounds_to (m : positive) (e : Z) (v : Q) : bool :=
  let up := Qmult (inject_Z (2 * Z.pos m + 1)) (Qpower (2 # 1) (e - 1)) in
  let down :=
    if (Z.pos m =? 2 ^ 52)%Z && (-1074 <? e)%Z
    then Qmult (inject_Z (4 * Z.pos m - 1)) (Qpower (2 # 1) (e - 2))
    else Qmult (inject_Z (2 * Z.pos m - 1)) (Qpower (2 # 1) (e - 1)) in
  if Z.even (Z.pos m)
  then Qle_bool down v && Qle_bool v up
  else negb (Qle_bool v down) && negb (Qle_bool up v).

(** The [n] of Number::toString: 10^(n-1) <= x < 10^n. A finite float
    is within 10^-324 and 10^309, so 700 steps from 0 reach it. *)
Fixpoint magnitude (fuel : nat) (n : Z) (x : Q) : Z :=
  match fuel with
  | O => n
  | S fuel =>
      if negb (Qle_bool (pow10 (n - 1)) x) then magnitude fuel (n - 1) x
      else if Qle_bool (pow10 n) x then magnitude fuel (n + 1) x
      else n
  end.

(** Number::toString, step 5: the shortest decimal [s * 10^(n-k)] that
    reads back as the float, the closest one to it among those of that
    length. Returns [(s, k, n)]. Seventeen digits always read back. *)
Fixpoint shortest (fuel : nat) (k : Z) (n0 : Z) (m : positive) (e : Z)
    : Z * Z * Z :=
  let x := Q_of_finite m e in
  let unit := pow10 (n0 - k) in
  let lo := Qround.Qfloor (Qdiv x unit) in
  let hi := (lo + 1)%Z in
  let vlo := Qmult (inject_Z lo) unit in
  let vhi := Qmult (inject_Z hi) unit in
  let oklo := (10 ^ (k - 1) <=? lo)%Z && rounds_to m e vlo in
  let okhi := rounds_to m e vhi in
  let pick (s : Z) :=
    if (s =? 10 ^ k)%Z then (10 ^ (k - 1), k, n0 + 1)%Z else (s, k, n0) in
  match fuel with
  | O => pick lo
  | S fuel =>
      match oklo, okhi with
      | true, false => pick lo
      | false, true => pick hi
      | true, true =>
          match Qcompare (Qminus x vlo) (Qminus vhi x) with
          | Lt => pick lo
          | Gt => pick hi
          | Eq => if Z.even lo then pick lo else pick hi
          end
      | false, false => shortest fuel (k + 1) n0 m e
      end
  end.

(** Number::toString, steps 6 to 10: lay the digits out. *)
Definition layout (s k n : Z) : string :=
  let d := digits s in
  if (k <=? n)%Z && (n <=? 21)%Z then d +:+ zeros (Z.to_nat (n - k))
  else if (0 <? n)%Z && (n <=? 21)%Z then
    String.substring 0 (Z.to_nat n) d +:+ "." +:+
    String.substring (Z.to_nat n) (Z.to_nat (k - n)) d
  else if (-6 <? n)%Z && (n <=? 0)%Z then
    "0." +:+ zeros (Z.to_nat (- n)) +:+ d
  else
    let ex := (n - 1)%Z in
    let sign := if (ex <? 0)%Z then "-" else "+" in
    let mant :=
      if (k =? 1)%Z then d
      else String.substring 0 1 d +:+ "." +:+
           String.substring 1 (Z.to_nat (k - 1)) d in
    mant +:+ "e" +:+ sign +:+ digits (Z.abs ex).

(** [Number::toString(x)] in radix 10: what a template literal prints. *)
Definition toString (x : float) : string :=
  match Prim2SF x with
  | S754_nan => "NaN"
  | S754_zero _ => "0"
  | S754_infinity sg => if sg then "-Infinity" else "Infinity"
  | S754_finite sg m e =>
      let n0 := magnitude 700 0 (Q_of_finite m e) in
      let '(s, k, n) := shortest 17 1 n0 m e in
      (if sg then "-" else "") +:+ layout s k n
  end.

(** [Number.prototype.toFixed(f)] for [0 <= f <= 100]. *)
Definition toFixed (x : float) (f : nat) : string :=
  match Prim2SF x with
  | S754_nan | S754_infinity _ => toString x
  | S754_zero _ => "0" +:+ (if f is O then "" else "." +:+ zeros f)
  | S754_finite sg m e =>
      let r := Q_of_finite m e in
      if Qle_bool (pow10 21) r then toString x
      else
        (* the integer n with n / 10^f closest to r, the larger on a tie *)
        let n := Qround.Qfloor
                   (Qplus (Qmult r (pow10 (Z.of_nat f))) (1 # 2)) in
        let d := digits n in
        let d := zeros (S f - String.length d) +:+ d in
        let k := String.length d in
        (if sg then "-" else "") +:+
        (if f is O then d
         else String.substring 0 (k - f) d +:+ "." +:+
              String.substring (k - f) f d)
  end.

(** ToBoolean on a number: [0], [-0] and [NaN] are falsy. *)
Definition truthy (x : float) : bool :=
  match Prim2SF x with
  | S754_nan | S754_zero _ => false
  | _ => true
  end.
End JSNumber.

(** ** ECMAScript values, as far as the route inspects them *)

Inductive JSValue :=
  | JSUndefined
  | JSNull
  | JSBoolean (b : bool)
  | JSNumber (x : float)
  | JSString (s : string).

(** ToBoolean: what [v || d] and [!v] look at. *)
Definition ToBoolean (v : JSValue) : bool :=
  match v with
  | JSUndefined | JSNull => false
  | JSBoolean b => b
  | JSNumber x => JSNumber.truthy x
  | JSString s => negb (String.eqb s "")
  end.

(** ToString: what a template literal [`${v}`] prints. *)
Definition ToString (v : JSValue) : string :=
  match v with
  | JSUndefined => "undefined"
  | JSNull => "null"
  | JSBoolean b => if b then "true" else "false"
  | JSNumber x => JSNumber.toString x
  | JSString s => s
  end.

(** [v || d] *)
Definition js_or (v d : JSValue) : JSValue := if ToBoolean v then v else d.

Definition LF : string := String (ascii_of_nat 10) "".

(** [Array.prototype.join]. *)
Definition join (sep : string) (l : list string) : string := String.concat sep l.

(** [String.prototype.endsWith]. *)
Definition endsWith (s suffix : string) : bool :=
  let n := String.length s in
  let k := String.length suffix in
  (k <=? n) && String.eqb (String.substring (n - k) k s) suffix.

(** [Array.prototype.slice(start, end)] for indices within the array. *)
Definition slice {A} (startIdx endIdx : nat) (l : list A) : list A :=
  take (endIdx - startIdx) (drop startIdx l).

(** [Math.ceil(a / b)] on array lengths; the quotient of lengths is far
    from the range where the float division could round across an integer.
    With [b = 0] JavaScript yields [NaN] or [Infinity]; the caller then
    loops zero times and never uses it. *)
Definition ceil_div (a b : nat) : nat :=
  if b is O then O else (a + b - 1) / b.

(** ** Exceptions *)

(** A computation that may throw. *)
Inductive Attempt (A : Type) :=
  | Done (a : A)
  | Raised (message : string).
Arguments Done {A} a.
Arguments Raised {A} message.

#[global] Instance Attempt_ret : MRet Attempt := @Done.
#[global] Instance Attempt_bind : MBind Attempt :=
  fun A B k c => match c with Done a => k a | Raised m => Raised m end.

(** ** Strings by UTF-16 code units *)

(** The bytes of a string are the UTF-8 text of a JavaScript string (a
    lone surrogate written as the three bytes of its code). A byte that
    begins no character reads as U+FFFD. *)
Definition continuation (b : N) : bool := ((128 <=? b) && (b <? 192))%N.

Fixpoint codePoints (bytes : list N) : list N :=
  match bytes with
  | [] => []
  | b :: rest =>
      if (b <? 128)%N then b :: codePoints rest
      else
        match rest with
        | c1 :: rest1 =>
            if ((192 <=? b) && (b <? 224))%N && continuation c1 then
              ((b - 192) * 64 + (c1 - 128))%N :: codePoints rest1
            else
              match rest1 with
              | c2 :: rest2 =>
                  if ((224 <=? b) && (b <? 240))%N && continuation c1
                     && continuation c2 then
                    ((b - 224) * 4096 + (c1 - 128) * 64 + (c2 - 128))%N
                    :: codePoints rest2
                  else
                    match rest2 with
                    | c3 :: rest3 =>
                        if ((240 <=? b) && (b <? 248))%N && continuation c1
                           && continuation c2 && continuation c3 then
                          ((b - 240) * 262144 + (c1 - 128) * 4096
                           + (c2 - 128) * 64 + (c3 - 128))%N
                          :: codePoints rest3
                        else 65533%N :: codePoints rest
                    | [] => 65533%N :: codePoints rest
                    end
              | [] => 65533%N :: codePoints rest
              end
        | [] => [65533%N]
        end
  end.

(** The code units of a code point: itself, or a surrogate pair. *)
Definition utf16 (codePoint : N) : list N :=
  if (codePoint <? 65536)%N then [codePoint]
  else [(55296 + (codePoint - 65536) / 1024)%N;
        (56320 + (codePoint - 65536) mod 1024)%N].

Definition codeUnits (s : string) : list N :=
  flat_map utf16 (codePoints (N_of_ascii <$> String.list_ascii_of_string s)).

(** The string of one code unit. *)
Definition fromCodeUnit (u : N) : string :=
  String.string_of_list_ascii
    (ascii_of_N <$>
       (if (u <? 128)%N then [u]
        else if (u <? 2048)%N then [(192 + u / 64)%N; (128 + u mod 64)%N]
        else [(224 + u / 4096)%N; (128 + (u / 64) mod 64)%N;
              (128 + u mod 64)%N])).

(** [a <= b] on strings: the first code unit that differs decides, and
    a prefix comes first. *)
Fixpoint unitsLe (a b : list N) : bool :=
  match a, b with
  | [], _ => true
  | _ :: _, [] => false
  | x :: a, y :: b =>
      if (x <? y)%N then true
      else if (y <? x)%N then false
      else unitsLe a b
  end.

Definition codeUnitLe (a b : string) : Prop :=
  unitsLe (codeUnits a) (codeUnits b) = true.

#[global] Instance codeUnitLe_dec : RelDecision codeUnitLe :=
  fun a b => decide (unitsLe (codeUnits a) (codeUnits b) = true).

(** ** Plain objects used as dictionaries *)

(** The names a plain object inherits from [Object.prototype]. *)
Definition inheritedNames : list string :=
  ["constructor"; "__defineGetter__"; "__defineSetter__"; "hasOwnProperty";
   "__lookupGetter__"; "__lookupSetter__"; "isPrototypeOf";
   "propertyIsEnumerable"; "toString"; "valueOf"; "__proto__";
   "toLocaleString"].

(** What [object[key]] finds: an own property, a member of
    [Object.prototype], or nothing ([undefined]). *)
Inductive Property (V : Type) :=
  | Own (value : V)
  | Inherited (name : string)
  | Absent.
Arguments Own {V} value.
Arguments Inherited {V} name.
Arguments Absent {V}.

Definition plainGet {V} (object : gmap string V) (key : string) : Property V :=
  match object !! key with
  | Some value => Own value
  | None => if decide (key ∈ inheritedNames) then Inherited key else Absent
  end.

(** [object[key] = value] for a number: a new own property, also under
    an inherited name, except under [__proto__], where the inherited
    setter runs and ignores a value that is no object. *)
Definition plainSet (object : gmap string nat) (key : string) (value : nat)
    : gmap string nat :=
  if String.eqb key "__proto__" then object else <[key := value]> object.

(** What a template literal prints for an inherited member: the text of
    a built-in function, and [[object Object]] for [__proto__], which
    reads as [Object.prototype] itself. *)
Definition inheritedText (name : string) : string :=
  if String.eqb name "__proto__" then "[object Object]"
  else
    "function " +:+ (if String.eqb name "constructor" then "Object" else name)
    +:+ "() { [native code] }".

(** ** Records of the data model (prisma rows and request body) *)

Record AnnotationData := {
  x : float;
  y : float;
  width : float;
  height : float;
  label : string
}.

Record Annotation := {
  id : string;
  imageId : string;
  classId : string;
  data : AnnotationData
}.

Record AnnotationClass := {
  name : string;
  color : string
}.

(** [req.body.trainingConfig]: any object; an omitted field is [undefined]. *)
Record TrainingConfig := {
  epochs : JSValue;
  batchSize : JSValue;
  imgSize : JSValue;
  learningRate : JSValue;
  modelType : JSValue;
  datasetSplitRatio : JSValue
}.

(** ** The two helpers *)

(** What [`${classMapping[label] || 0}`] prints: the index of a label
    that is an own key (also index 0, which is falsy and replaced by 0);
    [0] for a label that is found nowhere; and for a label that is no own
    key but a name of [Object.prototype] the text of that member, which
    is truthy. *)
Definition classIdText (classMapping : gmap string nat) (label : string)
    : string :=
  match plainGet classMapping label with
  | Own index => pretty index
  | Inherited name => inheritedText name
  | Absent => "0"
  end.

(** One line of a label file: lines 24-35 (and again 277-292). *)
Definition yoloLine (imageWidth imageHeight : float)
    (classMapping : gmap string nat) (ann : AnnotationData) : string :=
  let centerX := ((x ann + width ann / 2) / imageWidth)%float in
  let centerY := ((y ann + height ann / 2) / imageHeight)%float in
  let normWidth := (width ann / imageWidth)%float in
  let normHeight := (height ann / imageHeight)%float in
  let classId := classIdText classMapping (label ann) in
  classId +:+ " " +:+ JSNumber.toFixed centerX 6 +:+ " " +:+
  JSNumber.toFixed centerY 6 +:+ " " +:+ JSNumber.toFixed normWidth 6 +:+
  " " +:+ JSNumber.toFixed normHeight 6.

Definition convertToYOLOFormat (annotations : list Annotation)
    (imageWidth imageHeight : float) (classMapping : gmap string nat)
    : string :=
  join LF (map (fun ann => yoloLine imageWidth imageHeight classMapping
                             (data ann)) annotations).

Definition createConfigYaml (trainingConfig : TrainingConfig)
    (classNames : list string) (datasetName : string) (timestamp : N)
    : string :=
  let epochs := js_or (epochs trainingConfig) (JSNumber 100) in
  let batchSize := js_or (batchSize trainingConfig) (JSNumber 16) in
  let imgSize := js_or (imgSize trainingConfig) (JSNumber 640) in
  let learningRate := js_or (learningRate trainingConfig) (JSNumber 0.001) in
  let modelType :=
    js_or (modelType trainingConfig) (JSString "yolov8recommended") in
  let datasetSplitRatio :=
    js_or (datasetSplitRatio trainingConfig) (JSString "80/20") in
  let projectName := datasetName +:+ "_Training_" +:+ pretty timestamp in
  "epochs: " +:+ ToString epochs +:+ LF +:+
  "batch_size: " +:+ ToString batchSize +:+ LF +:+
  "img_size: " +:+ ToString imgSize +:+ LF +:+
  "learning_rate: " +:+ ToString learningRate +:+ LF +:+
  "model: " +:+ ToString modelType +:+ LF +:+
  "num_classes: " +:+ pretty (length classNames) +:+ LF +:+
  "class_names:" +:+ LF +:+
  join LF (map (fun name => "  - " +:+ name) classNames) +:+ LF +:+
  "project_name: " +:+ projectName +:+ LF +:+
  "train_val_split: " +:+ ToString datasetSplitRatio +:+ LF.

(** [classMapping]: the reduce of lines 118-121 into a plain object,
    class name to its index in the class list (a later class of the same
    name overwrites). *)
Fixpoint classMapping_from (index : nat) (acc : gmap string nat)
    (annotationClasses : list AnnotationClass) : gmap string nat :=
  match annotationClasses with
  | [] => acc
  | cls :: rest =>
      classMapping_from (S index) (plainSet acc (name cls) index) rest
  end.

Definition classMapping (annotationClasses : list AnnotationClass)
    : gmap string nat :=
  classMapping_from 0 ∅ annotationClasses.

(** ** Reconciliation of annotations with image files (lines 136-226) *)

(** One step of the reduce of lines 137-143. The accumulator is a plain
    object: [acc[ann.imageId]] is the own group, or nothing, in which
    case an empty group is stored first, or a member of
    [Object.prototype]; that member is truthy, so no group is stored,
    and it has no [push]: the call throws a TypeError. *)
Definition groupByImage (acc : gmap string (list Annotation))
    (ann : Annotation) : Attempt (gmap string (list Annotation)) :=
  match plainGet acc (imageId ann) with
  | Own group => Done (<[imageId ann := group ++ [ann]]> acc)
  | Absent => Done (<[imageId ann := [ann]]> acc)
  | Inherited _ => Raised "acc[ann.imageId].push is not a function"
  end.

(** [annotationsByImage]: the reduce of lines 137-143. *)
Definition annotationsByImage (annotations : list Annotation)
    : Attempt (gmap string (list Annotation)) :=
  foldl (fun acc ann => acc ← acc; groupByImage acc ann) (Done ∅) annotations.

(** [Object.keys(annotationsByImage)]: the own keys as a set; the route
    uses their number and reports them, their order plays no role. *)
Definition uniqueImageIds (annotationsByImage : gmap string (list Annotation))
    : gset string :=
  dom annotationsByImage.

(** Lines 169-170. *)
Definition shouldExpandImageSelection (uniqueImageIdsCount : nat)
    (imageFiles : list string) : bool :=
  (uniqueImageIdsCount <? 3) && (uniqueImageIdsCount * 2 <=? length imageFiles).

(** The [Map] and the array the two paths fill. *)
Record Reconciliation := {
  imageAnnotationMap : gmap string (list Annotation);
  annotatedImageFiles : list string
}.

Definition emptyReconciliation : Reconciliation :=
  {| imageAnnotationMap := ∅; annotatedImageFiles := [] |}.

(** One iteration of the fallback loop, lines 215-224. *)
Definition fallbackStep (annotations : list Annotation)
    (sortedImageFiles : list string) (annotationsPerImage : nat)
    (acc : Reconciliation) (i : nat) : Reconciliation :=
  match sortedImageFiles !! i with
  | None => acc (* not reached: i < sortedImageFiles.length *)
  | Some imageFile =>
      let startIdx := i * annotationsPerImage in
      let endIdx := min (startIdx + annotationsPerImage) (length annotations) in
      let imageAnnotations := slice startIdx endIdx annotations in
      if 0 <? length imageAnnotations then
        {| imageAnnotationMap :=
             <[imageFile := imageAnnotations]> (imageAnnotationMap acc);
           annotatedImageFiles := annotatedImageFiles acc ++ [imageFile] |}
      else acc
  end.

(** The fallback path after the sort, lines 212-225. *)
Definition fallbackAssign (annotations : list Annotation)
    (sortedImageFiles : list string) : Reconciliation :=
  let count := min (length annotations) (length sortedImageFiles) in
  let annotationsPerImage := ceil_div (length annotations) count in
  foldl (fallbackStep annotations sortedImageFiles annotationsPerImage)
        emptyReconciliation (seq 0 count).

(** [imageFiles.sort()]: the default sort, which orders strings by their
    UTF-16 code units. *)
Definition sort (imageFiles : list string) : list string :=
  merge_sort codeUnitLe imageFiles.

Section Reconcile.
(** [String.prototype.toLowerCase]. *)
Variable toLowerCase : string -> string.

Definition imageExtensions : list string :=
  [".jpg"; ".jpeg"; ".png"; ".bmp"; ".webp"].

(** Lines 156-158. *)
Definition isImageFile (file : string) : bool :=
  existsb (fun ext => endsWith (toLowerCase file) ext) imageExtensions.

Definition imageFilesOf (datasetFiles : list string) : list string :=
  List.filter isImageFile datasetFiles.

(** The predicate of [imageFiles.find], lines 181-190. *)
Definition matches (imageId imageFile : string) : bool :=
  let imageNameLower := toLowerCase imageFile in
  let imageIdLower := toLowerCase imageId in
  String.eqb imageId imageFile || String.eqb imageIdLower imageNameLower.

Definition matchingImageFile (imageFiles : list string) (imageId : string)
    : option string :=
  List.find (matches imageId) imageFiles.

(** One iteration of the normal loop, lines 176-203. The test
    [if (matchingImageFile)] is a truthiness test: [undefined] and the
    empty string both take the else branch. *)
Definition normalStep (imageFiles : list string) (acc : Reconciliation)
    (annotation : Annotation) : Reconciliation :=
  match matchingImageFile imageFiles (imageId annotation) with
  | Some file =>
      if String.eqb file "" then acc
      else
        match imageAnnotationMap acc !! file with
        | None =>
            {| imageAnnotationMap :=
                 <[file := [annotation]]> (imageAnnotationMap acc);
               annotatedImageFiles := annotatedImageFiles acc ++ [file] |}
        | Some assigned =>
            {| imageAnnotationMap :=
                 <[file := assigned ++ [annotation]]> (imageAnnotationMap acc);
               annotatedImageFiles := annotatedImageFiles acc |}
        end
  | None => acc
  end.

Definition normalPath (annotations : list Annotation)
    (imageFiles : list string) : Reconciliation :=
  foldl (normalStep imageFiles) emptyReconciliation annotations.

(** Lines 164-226 as a whole, for the [uniqueImageIds] of line 145. The
    sort of the fallback path is in place: the first component is
    [imageFiles] as the rest of the handler sees it. *)
Definition reconcile (uniqueImageIds : gset string)
    (annotations : list Annotation) (imageFiles : list string)
    : list string * Reconciliation :=
  let uniqueImageIdsCount := size uniqueImageIds in
  if shouldExpandImageSelection uniqueImageIdsCount imageFiles then
    let sortedImageFiles := sort imageFiles in
    (sortedImageFiles, fallbackAssign annotations sortedImageFiles)
  else (imageFiles, normalPath annotations imageFiles).
End Reconcile.

(** ASCII case mapping, to run the model on file names. *)
Definition ascii_toLowerCase (s : string) : string :=
  String.string_of_list_ascii
    (map (fun c =>
            let n := nat_of_ascii c in
            if (65 <=? n) && (n <=? 90) then ascii_of_nat (n + 32) else c)
         (String.list_ascii_of_string s)).

(** ** The archive and the upload request *)

Definition Buffer := list Byte.byte.

(** The [JSZip] object: one top-level folder with [images/], [labels/]
    and [config.yaml]. Adding a file under a name that is already there
    replaces it. *)
Record Archive := {
  mainDatasetFolder : string;
  imagesFolder : gmap string Buffer;
  labelsFolder : gmap string string;
  configYaml : option string
}.

(** The multipart body of lines 324-332. *)
Record FormData := {
  file : Archive;
  fileName : string;
  uploadPath : string;
  bucket : string;
  autoStartTraining : string;
  trainingConfigField : TrainingConfig
}.

(** The body of a worker answer once parsed, lines 347-353. *)
Record UploadResult := {
  success : JSValue;
  resultFileName : JSValue;
  presignedUrl : JSValue;
  resultBucket : JSValue;
  resultUploadPath : JSValue
}.

(** What [fetch] and the reading of the answer can give: the promise of
    [fetch] rejects, or there is an answer with a status, its text, and
    what [json()] makes of it (the message of the error it throws, or the
    object). *)
Inductive WorkerReply :=
  | TransportFailure (message : string)
  | HttpResponse (status : nat) (text : string)
      (json : string + UploadResult).

(** [Response.ok] *)
Definition ok (status : nat) : bool := (200 <=? status) && (status <=? 299).

(** ** The handler's world and its monad *)

Inductive Event :=
  | FsReaddir (path : string)
  | FsAccess (path : string)
  | FsReadFile (path : string)
  | HttpPost (url : string) (body : FormData).

Record SuccessBody := {
  message : string;
  trainingId : string;
  objectName : JSValue;
  bucketName : JSValue;
  downloadUrl : JSValue;
  downloadUrlExpiresIn : string;
  totalAnnotatedImages : nat;
  totalAnnotations : nat;
  classNames : list string;
  trainingConfigEcho : TrainingConfig;
  uploadPathEcho : JSValue
}.

(** What [res] is answered with. *)
Inductive Response :=
  | ValidationFailed (errors : list string)
  | ProjectNotFound
  | DatasetNotFound
  | NoAnnotations
  | NoMatchedImages (availableImages : list string)
      (annotationImageIds : gset string)
  | Uploaded (body : SuccessBody)
  | UploadFailed (details : string)
  | InternalServerError.

Definition statusCode (r : Response) : nat :=
  match r with
  | ValidationFailed _ | NoAnnotations | NoMatchedImages _ _ => 400
  | ProjectNotFound | DatasetNotFound => 404
  | Uploaded _ => 200
  | UploadFailed _ | InternalServerError => 500
  end.

Definition errorText (r : Response) : option string :=
  match r with
  | ValidationFailed _ => None
  | ProjectNotFound => Some "Project not found or access denied"
  | DatasetNotFound => Some "Dataset not found or access denied"
  | NoAnnotations => Some "No annotations found for this dataset"
  | NoMatchedImages _ _ =>
      Some "No images could be matched with annotations. Please check your annotation imageId values match actual image filenames."
  | Uploaded _ => None
  | UploadFailed _ => Some "Failed to upload dataset through worker"
  | InternalServerError => Some "Internal server error"
  end.

(** Everything outside the handler that it reads: the validated request,
    the database rows, the clock, the file system and the worker. *)
Record World := {
  validationErrors : list string;
  projectId : string;
  datasetId : string;
  datasetName : string;
  trainingConfig : TrainingConfig;
  userId : string;
  project : bool;
  dataset : bool;
  annotationRows : list Annotation;
  annotationClassRows : list AnnotationClass;
  now : N;
  cwd : string;
  WORKER_URL : JSValue;
  readdir : string -> option (list string);
  access : string -> bool;
  readFile : string -> option Buffer;
  fetch : string -> FormData -> WorkerReply
}.

(** A step of the handler ends with a value, with an answer already sent
    ([return res.status(..).json(..)]), or with an exception. *)
Inductive Outcome (A : Type) :=
  | Value (a : A)
  | Answered (r : Response)
  | Thrown (message : string).
Arguments Value {A} a.
Arguments Answered {A} r.
Arguments Thrown {A} message.

(** Computations log their I/O, oldest event first. *)
Definition IO (A : Type) : Type := list Event -> Outcome A * list Event.

Definition ret {A} (a : A) : IO A := fun log => (Value a, log).

Definition bind {A B} (c : IO A) (k : A -> IO B) : IO B :=
  fun log =>
    match c log with
    | (Value a, log') => k a log'
    | (Answered r, log') => (Answered r, log')
    | (Thrown e, log') => (Thrown e, log')
    end.

Definition answer {A} (r : Response) : IO A := fun log => (Answered r, log).
Definition throw {A} (e : string) : IO A := fun log => (Thrown e, log).
Definition emit (ev : Event) : IO unit := fun log => (Value tt, log ++ [ev]).

(** A computation without I/O that may throw. *)
Definition attempt {A} (c : Attempt A) : IO A :=
  match c with
  | Done a => ret a
  | Raised e => throw e
  end.

(** [try { c } catch (e) { handler e }] *)
Definition try_catch {A} (c : IO A) (handler : string -> IO A) : IO A :=
  fun log =>
    match c log with
    | (Thrown e, log') => handler e log'
    | other => other
    end.

#[global] Instance IO_ret : MRet IO := @ret.
#[global] Instance IO_bind : MBind IO := fun A B k c => bind c k.

(** [for (const x of l) body], threading the loop's state. *)
Fixpoint for_of {A S} (l : list A) (body : S -> A -> IO S) (s : S) : IO S :=
  match l with
  | [] => ret s
  | a :: rest => s' ← body s a; for_of rest body s'
  end.

(** [path.join] of two segments (normalisation of dots is not needed for
    what follows). *)
Definition path_join (dir entry : string) : string := dir +:+ "/" +:+ entry.

(** The file-system calls; the message of a rejected call is not looked
    at by any handler of the route. *)
Definition fs_readdir (w : World) (path : string) : IO (list string) :=
  emit (FsReaddir path) ;;
  match readdir w path with
  | Some entries => ret entries
  | None => throw "ENOENT"
  end.

Definition fs_access (w : World) (path : string) : IO unit :=
  emit (FsAccess path) ;;
  if access w path then ret tt else throw "ENOENT".

Definition fs_readFile (w : World) (path : string) : IO Buffer :=
  emit (FsReadFile path) ;;
  match readFile w path with
  | Some buffer => ret buffer
  | None => throw "ENOENT"
  end.

(** ** Archive assembly (lines 253-308) *)

(** [imageFile.replace(/\.[^/.]+$/, '.txt')]: the text before the last
    dot when that dot is followed by at least one character and by no
    slash. *)
Definition plainSuffix (s : string) : bool :=
  negb (String.eqb s "") &&
  forallb (fun c => negb (Ascii.eqb c "."%char || Ascii.eqb c "/"%char))
          (String.list_ascii_of_string s).

Fixpoint beforeExtension (s : string) : option string :=
  match s with
  | EmptyString => None
  | String c rest =>
      match beforeExtension rest with
      | Some stem => Some (String c stem)
      | None => if Ascii.eqb c "."%char && plainSuffix rest
                then Some EmptyString else None
      end
  end.

Definition labelFileNameOf (imageFile : string) : string :=
  match beforeExtension imageFile with
  | Some stem => stem +:+ ".txt"
  | None => imageFile
  end.

(** Lines 277-293: the label text of one image, at the fixed 640 x 640. *)
Definition yoloAnnotations (classMapping : gmap string nat)
    (imageAnnotations : list Annotation) : string :=
  join LF (map (fun ann =>
                  let imageWidth := 640%float in
                  let imageHeight := 640%float in
                  yoloLine imageWidth imageHeight classMapping (data ann))
               imageAnnotations).

(** The body of the loop of line 256, with its [try]/[catch]. *)
Definition processImage (w : World) (datasetPath : string)
    (classMapping : gmap string nat) (rec : Reconciliation)
    (zip : Archive) (imageFile : string) : IO Archive :=
  let imageAnnotations := default [] (imageAnnotationMap rec !! imageFile) in
  let imagePath := path_join datasetPath imageFile in
  try_catch
    (fs_access w imagePath ;;
     imageBuffer ← fs_readFile w imagePath;
     let labelFileName := labelFileNameOf imageFile in
     ret {| mainDatasetFolder := mainDatasetFolder zip;
            imagesFolder := <[imageFile := imageBuffer]> (imagesFolder zip);
            labelsFolder :=
              <[labelFileName := yoloAnnotations classMapping imageAnnotations]>
                (labelsFolder zip);
            configYaml := configYaml zip |})
    (fun _ => ret zip).

(** ** Dispatch to the worker (lines 322-357) *)

Definition uploadDataset (w : World) (formData : FormData) : IO UploadResult :=
  let url := ToString (WORKER_URL w) +:+ "/upload-dataset" in
  emit (HttpPost url formData);;
  match fetch w url formData with
  | TransportFailure message => throw message
  | HttpResponse status errorText json =>
      if negb (ok status) then
        throw ("Worker upload failed: " +:+ pretty status +:+ " - " +:+ errorText)
      else
        match json with
        | inl message => throw message
        | inr uploadResult =>
            if negb (ToBoolean (success uploadResult)) then
              throw "Worker upload failed: No success flag in response"
            else mret uploadResult
        end
  end.

(** ** The handler of [POST /start] (lines 68-389) *)

Section Handler.
Variable toLowerCase : string -> string.

(** The body of the outer [try]. *)
Definition startBody (w : World) : IO Response :=
  if negb (length (validationErrors w) =? 0) then
    answer (ValidationFailed (validationErrors w))
  else if negb (project w) then answer ProjectNotFound
  else if negb (dataset w) then answer DatasetNotFound
  else
    let annotations := annotationRows w in
    if length annotations =? 0 then answer NoAnnotations
    else
      let annotationClasses := annotationClassRows w in
      let classNames := map name annotationClasses in
      let classMapping := classMapping annotationClasses in
      let timestamp := now w in
      let zip :=
        {| mainDatasetFolder :=
             datasetName w +:+ "_Training_" +:+ pretty timestamp;
           imagesFolder := ∅; labelsFolder := ∅; configYaml := None |} in
      annotationsByImage ← attempt (annotationsByImage annotations);
      let uniqueImageIds := uniqueImageIds annotationsByImage in
      let datasetPath :=
        path_join (path_join (path_join (cwd w) "uploads") "datasets")
                  (datasetId w) in
      datasetFiles ← fs_readdir w datasetPath;
      let imageFiles := imageFilesOf toLowerCase datasetFiles in
      let '(imageFiles, rec) :=
        reconcile toLowerCase uniqueImageIds annotations imageFiles in
      if length (annotatedImageFiles rec) =? 0 then
        answer (NoMatchedImages (take 10 imageFiles) uniqueImageIds)
      else
        zip ← for_of (annotatedImageFiles rec)
                (processImage w datasetPath classMapping rec) zip;
        let zip :=
          {| mainDatasetFolder := mainDatasetFolder zip;
             imagesFolder := imagesFolder zip;
             labelsFolder := labelsFolder zip;
             configYaml :=
               Some (createConfigYaml (trainingConfig w) classNames
                       (datasetName w) timestamp) |} in
        let uploadPath :=
          userId w +:+ "/" +:+ datasetName w +:+ "_" +:+ pretty timestamp in
        try_catch
          (uploadResult ←
             uploadDataset w
               {| file := zip;
                  fileName := uploadPath +:+ ".zip";
                  uploadPath := uploadPath;
                  bucket := "datasets";
                  autoStartTraining := "true";
                  trainingConfigField := trainingConfig w |};
           answer
             (Uploaded
                {| message :=
                     "Training dataset uploaded successfully through worker";
                   trainingId := "training_" +:+ pretty timestamp;
                   objectName := resultFileName uploadResult;
                   bucketName := resultBucket uploadResult;
                   downloadUrl := presignedUrl uploadResult;
                   downloadUrlExpiresIn := "7 days";
                   totalAnnotatedImages := length (annotatedImageFiles rec);
                   totalAnnotations := length annotations;
                   classNames := classNames;
                   trainingConfigEcho := trainingConfig w;
                   uploadPathEcho := resultUploadPath uploadResult |}))
          (fun details => answer (UploadFailed details)).

(** The handler: the answer sent and the I/O performed, in order. *)
Definition start (w : World) : Response * list Event :=
  match try_catch (startBody w) (fun _ => answer InternalServerError) [] with
  | (Value r, log) | (Answered r, log) => (r, log)
  | (Thrown _, log) => (InternalServerError, log)
  end.
End Handler.

(** ** Notions the statements below are phrased with *)

(** The file an annotation is assigned to on the normal path, if any: the
    first image file that [matches] its imageId, unless that file has the
    empty name. *)
Definition resolvedFile (toLowerCase : string -> string)
    (imageFiles : list string) (annotation : Annotation) : option string :=
  match matchingImageFile toLowerCase imageFiles (imageId annotation) with
  | Some file => if String.eqb file "" then None else Some file
  | None => None
  end.

(** The imageIds that occur among annotations. *)
Definition distinctImageIds (annotations : list Annotation) : gset string :=
  list_to_set (imageId <$> annotations).

(** No imageId is a name that a plain object inherits. *)
Definition ordinaryImageIds (annotations : list Annotation) : Prop :=
  Forall (fun a => imageId a ∉ inheritedNames) annotations.

(** An imageId names a file: it is the file's name, or becomes it when
    both are lower-cased. *)
Definition namesFile (toLowerCase : string -> string)
    (imageId imageFile : string) : Prop :=
  imageId = imageFile \/ toLowerCase imageId = toLowerCase imageFile.

(** The first file of a listing that an imageId names. *)
Definition firstNamed (toLowerCase : string -> string)
    (imageFiles : list string) (imageId imageFile : string) : Prop :=
  exists i,
    imageFiles !! i = Some imageFile
    /\ namesFile toLowerCase imageId imageFile
    /\ forall j earlier,
         j < i -> imageFiles !! j = Some earlier ->
         ~ namesFile toLowerCase imageId earlier.

(** The elements of a list in the order of their first appearance. *)
Fixpoint firstAppearances (l : list string) : list string :=
  match l with
  | [] => []
  | s :: rest => s :: filter (fun t => t <> s) (firstAppearances rest)
  end.

(** The annotations of a list that go to [file], in their order, when
    there is at least one. *)
Definition assignedTo (toLowerCase : string -> string)
    (imageFiles : list string) (annotations : list Annotation)
    (file : string) : option (list Annotation) :=
  match filter (fun a => resolvedFile toLowerCase imageFiles a = Some file)
               annotations with
  | [] => None
  | assigned => Some assigned
  end.

(** The [i]-th block of [per] consecutive elements of a list. *)
Definition chunk {A} (per i : nat) (l : list A) : list A :=
  take per (drop (i * per) l).

(** A reconciliation with every annotation in it rewritten by [h]. *)
Definition rewritten (h : Annotation -> Annotation) (R : Reconciliation)
    : Reconciliation :=
  {| imageAnnotationMap :=
       (fun assigned : list Annotation => h <$> assigned)
         <$> imageAnnotationMap R;
     annotatedImageFiles := annotatedImageFiles R |}.

(** A training configuration with every falsy field left out. *)
Definition omitted (v : JSValue) : JSValue :=
  if ToBoolean v then v else JSUndefined.

Definition omitFalsy (cfg : TrainingConfig) : TrainingConfig :=
  {| epochs := omitted (epochs cfg);
     batchSize := omitted (batchSize cfg);
     imgSize := omitted (imgSize cfg);
     learningRate := omitted (learningRate cfg);
     modelType := omitted (modelType cfg);
     datasetSplitRatio := omitted (datasetSplitRatio cfg) |}.

(** Every key and every listed file of the fallback loop is one of the
    sorted files, and every annotation in it is one of the annotations. *)
Definition within (annotations : list Annotation) (files : list string)
    (R : Reconciliation) : Prop :=
  (forall file assigned,
      imageAnnotationMap R !! file = Some assigned ->
      file ∈ files /\ forall a, a ∈ assigned -> a ∈ annotations)
  /\ (forall file, file ∈ annotatedImageFiles R -> file ∈ files).

(** ** Sample inputs *)

(** The box of the specification's label example. *)
Definition sampleBox : AnnotationData :=
  {| x := 10; y := 20; width := 100; height := 50; label := "cat" |}.

Definition annotationOn (i image : string) : Annotation :=
  {| id := i; imageId := image; classId := "class-1"; data := sampleBox |}.

(** ** The handler's stages, as functions of the world *)

Definition datasetPathOf (w : World) : string :=
  path_join (path_join (path_join (cwd w) "uploads") "datasets") (datasetId w).

Definition uploadUrl (w : World) : string :=
  ToString (WORKER_URL w) +:+ "/upload-dataset".

(** What the two file-system calls of the loop give for an image file. *)
Definition readImage (w : World) (imageFile : string) : option Buffer :=
  let imagePath := path_join (datasetPathOf w) imageFile in
  if access w imagePath then readFile w imagePath else None.

(** The I/O of one iteration of the loop. *)
Definition imageEvents (w : World) (imageFile : string) : list Event :=
  let imagePath := path_join (datasetPathOf w) imageFile in
  FsAccess imagePath :: (if access w imagePath then [FsReadFile imagePath] else []).

(** The archive after one iteration of the loop. *)
Definition storeImage (w : World) (R : Reconciliation) (zip : Archive)
    (imageFile : string) : Archive :=
  match readImage w imageFile with
  | Some imageBuffer =>
      {| mainDatasetFolder := mainDatasetFolder zip;
         imagesFolder := <[imageFile := imageBuffer]> (imagesFolder zip);
         labelsFolder :=
           <[labelFileNameOf imageFile :=
               yoloAnnotations (classMapping (annotationClassRows w))
                 (default [] (imageAnnotationMap R !! imageFile))]>
             (labelsFolder zip);
         configYaml := configYaml zip |}
  | None => zip
  end.

(** The archive that is posted. *)
Definition archiveOf (w : World) (R : Reconciliation) : Archive :=
  let zip :=
    foldl (storeImage w R)
      {| mainDatasetFolder :=
           datasetName w +:+ "_Training_" +:+ pretty (now w);
         imagesFolder := ∅; labelsFolder := ∅; configYaml := None |}
      (annotatedImageFiles R) in
  {| mainDatasetFolder := mainDatasetFolder zip;
     imagesFolder := imagesFolder zip;
     labelsFolder := labelsFolder zip;
     configYaml :=
       Some (createConfigYaml (trainingConfig w)
               (map name (annotationClassRows w)) (datasetName w) (now w)) |}.

Definition formDataOf (w : World) (R : Reconciliation) : FormData :=
  let uploadPath :=
    userId w +:+ "/" +:+ datasetName w +:+ "_" +:+ pretty (now w) in
  {| file := archiveOf w R;
     fileName := uploadPath +:+ ".zip";
     uploadPath := uploadPath;
     bucket := "datasets";
     autoStartTraining := "true";
     trainingConfigField := trainingConfig w |}.

(** The answer the handler gives once the worker has replied. *)
Definition replyAnswer (w : World) (R : Reconciliation) (reply : WorkerReply)
    : Response :=
  match reply with
  | TransportFailure message => UploadFailed message
  | HttpResponse status text json =>
      if ok status then
        match json with
        | inl message => UploadFailed message
        | inr uploadResult =>
            if ToBoolean (success uploadResult) then
              Uploaded
                {| message :=
                     "Training dataset uploaded successfully through worker";
                   trainingId := "training_" +:+ pretty (now w);
                   objectName := resultFileName uploadResult;
                   bucketName := resultBucket uploadResult;
                   downloadUrl := presignedUrl uploadResult;
                   downloadUrlExpiresIn := "7 days";
                   totalAnnotatedImages := length (annotatedImageFiles R);
                   totalAnnotations := length (annotationRows w);
                   classNames := map name (annotationClassRows w);
                   trainingConfigEcho := trainingConfig w;
                   uploadPathEcho := resultUploadPath uploadResult |}
            else UploadFailed "Worker upload failed: No success flag in response"
        end
      else
        UploadFailed
          ("Worker upload failed: " +:+ pretty status +:+ " - " +:+ text)
  end.

(** The request passed validation and the ownership checks. *)
Definition accepted_request (w : World) : Prop :=
  validationErrors w = [] /\ project w = true /\ dataset w = true.

(** [String.prototype.includes]. *)
Definition includes (s part : string) : bool :=
  if String.index 0 part s is Some _ then true else false.

Definition isHttpPost (ev : Event) : bool :=
  match ev with HttpPost _ _ => true | _ => false end.

(** A world with one image file [a.jpg] and one annotation on it; whether
    the file can be read and what the worker replies are left open. *)
Definition sampleWorld (readable : bool) (reply : WorkerReply) : World :=
  {| validationErrors := [];
     projectId := "p1";
     datasetId := "d1";
     datasetName := "cats";
     trainingConfig :=
       {| epochs := JSNumber 0; batchSize := JSNumber 0;
          imgSize := JSUndefined; learningRate := JSUndefined;
          modelType := JSUndefined; datasetSplitRatio := JSUndefined |};
     userId := "u1";
     project := true;
     dataset := true;
     annotationRows := [annotationOn "1" "a.jpg"];
     annotationClassRows := [{| name := "cat"; color := "red" |}];
     now := 1700000000000;
     cwd := "/app";
     WORKER_URL := JSString "https://worker.example";
     readdir := fun _ => Some ["a.jpg"];
     access := fun _ => readable;
     readFile := fun _ => Some [];
     fetch := fun _ _ => reply |}.

(** A reply with status 200 whose body is the empty object. *)
Definition flaglessReply : WorkerReply :=
  HttpResponse 200 "{}"
    (inr {| success := JSUndefined; resultFileName := JSUndefined;
            presignedUrl := JSUndefined; resultBucket := JSUndefined;
            resultUploadPath := JSUndefined |}).

(** A reply with status 200 and the success flag set. *)
Definition successReply : WorkerReply :=
  HttpResponse 200 "ok"
    (inr {| success := JSBoolean true;
            resultFileName := JSString "u1/cats_1700000000000.zip";
            presignedUrl := JSString "https://minio.example/cats.zip";
            resultBucket := JSString "datasets";
            resultUploadPath := JSString "u1/cats_1700000000000" |}).

(** Five annotations on two imageIds that name no file, and four image
    files: the fallback path applies. *)
Definition sparseAnnotations : list Annotation :=
  [annotationOn "1" "q"; annotationOn "2" "q"; annotationOn "3" "q";
   annotationOn "4" "r"; annotationOn "5" "r"].

Definition fourFiles : list string := ["b.jpg"; "a.jpg"; "d.jpg"; "c.jpg"].

(** The scenario of the specification: two images and ten annotations all
    on [a.jpg]. *)
Definition tenOnOne : list Annotation :=
  (fun i => annotationOn (pretty i) "a.jpg") <$> seq 1 10.

(** The map and the list of a reconciliation tell the same story: the
    keys of the map are the listed files, and no key has an empty group. *)
Definition inStep (R : Reconciliation) : Prop :=
  dom (imageAnnotationMap R) = list_to_set (annotatedImageFiles R)
  /\ forall f group, imageAnnotationMap R !! f = Some group -> group <> [].

(** The annotations the archive carries, file after file. *)
Definition exported (R : Reconciliation) : list Annotation :=
  concat ((fun f => default [] (imageAnnotationMap R !! f))
            <$> annotatedImageFiles R).

(** The number of line breaks in a text. *)
Fixpoint lineBreaks (s : string) : nat :=
  match s with
  | EmptyString => 0
  | String c rest =>
      (if Ascii.eqb c "010"%char then 1 else 0) + lineBreaks rest
  end.

(** ** The routes that relay to the worker (lines 391-553) *)

(** A value of a JSON body: a primitive, an object (a later binding of a
    key overrides an earlier one) or an array. *)
#[warnings="-register-all"] Inductive JSAny :=
  | Primitive (v : JSValue)
  | JSObject (fields : list (string * JSAny))
  | JSArray (items : list JSAny).

Definition ToBooleanAny (v : JSAny) : bool :=
  match v with
  | Primitive p => ToBoolean p
  | JSObject _ | JSArray _ => true
  end.

(** [v || d] on any value. *)
Definition orElse (v d : JSAny) : JSAny := if ToBooleanAny v then v else d.

(** The value of a key in a list of bindings where the last one counts. *)
Fixpoint lookupLast (key : string) (fields : list (string * JSAny))
    : option JSAny :=
  match fields with
  | [] => None
  | (k, v) :: rest =>
      match lookupLast key rest with
      | Some later => Some later
      | None => if String.eqb k key then Some v else None
      end
  end.

(** ToString on any value of a JSON body, what a template literal does.
    An object prints as [[object Object]] through the inherited
    [toString], unless it has a property [toString] of its own: that one
    is no function, the inherited [valueOf] returns the object itself,
    and the conversion throws a TypeError. An array prints its elements
    joined by commas, [null] and [undefined] elements as nothing. *)
Fixpoint ToStringAny (v : JSAny) : Attempt string :=
  match v with
  | Primitive p => Done (ToString p)
  | JSObject fields =>
      if lookupLast "toString" fields is Some _
      then Raised "Cannot convert object to primitive value"
      else Done "[object Object]"
  | JSArray items =>
      texts ←
        (fix elements (items : list JSAny) : Attempt (list string) :=
           match items with
           | [] => Done []
           | item :: rest =>
               text ← match item with
                      | Primitive JSUndefined | Primitive JSNull => Done ""
                      | _ => ToStringAny item
                      end;
               texts ← elements rest;
               Done (text :: texts)
           end) items;
      Done (join "," texts)
  end.

Definition indexed {A} (l : list A) : list (string * A) :=
  imap (fun i item => (pretty i, item)) l.

(** The own enumerable properties of a value, what [{...v}] copies: of a
    string its code units, each under its index. *)
Definition ownFields (v : JSAny) : list (string * JSAny) :=
  match v with
  | JSObject fields => fields
  | JSArray items => indexed items
  | Primitive (JSString s) =>
      indexed ((fun u => Primitive (JSString (fromCodeUnit u))) <$> codeUnits s)
  | Primitive _ => []
  end.

(** [v.key] for the keys the routes read, none of them inherited: a
    TypeError on [null] and [undefined], else the own property or
    [undefined]. *)
Definition getProperty (v : JSAny) (key : string) : Attempt JSAny :=
  match v with
  | Primitive JSNull =>
      Raised ("Cannot read properties of null (reading '" +:+ key +:+ "')")
  | Primitive JSUndefined =>
      Raised ("Cannot read properties of undefined (reading '" +:+ key +:+ "')")
  | _ => Done (default (Primitive JSUndefined) (lookupLast key (ownFields v)))
  end.

(** The content of the [Blob] of line 508 or 511: the bytes that the
    base64 text decodes to, or the text the value prints as. *)
Inductive Blob :=
  | FromBase64 (text : string)
  | FromText (text : string).

(** The multipart body of lines 516-520. *)
Record ExportForm := {
  formFile : Blob;
  formFileName : string;
  formUploadPath : string;
  formBucket : string;
  formAutoStartTraining : string;
  formTrainingConfig : JSAny
}.

(** The requests the three routes send. *)
Inductive WorkerCall :=
  | PostTraining (url : string) (body : JSAny)
  | GetStatus (url : string)
  | PostDataset (url : string) (form : ExportForm).

(** What comes back: [fetch] rejects, or there is a status, the text of
    the body and what [json()] makes of it (the message of its error, or
    the value). *)
Inductive Reply :=
  | NetworkError (message : string)
  | Answer (status : nat) (text : string) (json : string + JSAny).

(** The surroundings of a relaying route. *)
Record Relay := {
  relayWorkerUrl : JSValue;
  relayReply : WorkerCall -> Reply;
  relayNow : N
}.

Inductive RelayResponse :=
  | BadRequest (error : string)
  | Failure (error details : string) (workerUrl : option JSValue)
  | Json (body : JSAny).

Definition relayStatus (r : RelayResponse) : nat :=
  match r with
  | BadRequest _ => 400
  | Failure _ _ _ => 500
  | Json _ => 200
  end.

(** The reading of a reply that the three routes share: a status outside
    200-299 throws an error naming the status and the body. *)
Definition readReply (what : string) (r : Reply) : Attempt JSAny :=
  match r with
  | NetworkError message => Raised message
  | Answer status text json =>
      if negb (ok status) then
        Raised (what +:+ pretty status +:+ " - " +:+ text)
      else
        match json with
        | inl message => Raised message
        | inr value => Done value
        end
  end.

(** A relaying route runs inside [try]: what it sends to the worker so
    far, and how it ends. *)
Definition Relaying (A : Type) : Type := Attempt A * list WorkerCall.

(** [await fetch(..)] and the reading of the reply. *)
Definition fetchJson (r : Relay) (what : string) (request : WorkerCall)
    : Relaying JSAny :=
  (readReply what (relayReply r request), [request]).

(** The rest of the handler after a step. *)
Definition andThen {A B} (c : Relaying A) (k : A -> Relaying B) : Relaying B :=
  match c with
  | (Done a, sent) => let '(b, more) := k a in (b, sent ++ more)
  | (Raised message, sent) => (Raised message, sent)
  end.

(** A step that sends nothing. *)
Definition quietly {A} (c : Attempt A) : Relaying A := (c, []).

(** [try { .. } catch (error) { res.status(500).json(..) }] *)
Definition answered (error : string) (workerUrl : option JSValue)
    (c : Relaying RelayResponse) : RelayResponse * list WorkerCall :=
  match c with
  | (Done response, sent) => (response, sent)
  | (Raised details, sent) => (Failure error details workerUrl, sent)
  end.

(** [POST /start-runpod], lines 392-449. The two log lines that print a
    value of a body (lines 400 and 432) are part of it: printing can
    throw. *)
Definition startRunpod (r : Relay) (datasetUrl trainingConfig datasetName : JSAny)
    : RelayResponse * list WorkerCall :=
  if negb (ToBooleanAny datasetUrl) then
    (BadRequest "Dataset URL is required", [])
  else
    answered "Failed to start training through worker" None
      (andThen (quietly (ToStringAny datasetName)) (fun _ =>
       andThen
         (fetchJson r "Worker training start failed: "
            (PostTraining (ToString (relayWorkerUrl r) +:+ "/start-training")
               (JSObject
                  [("datasetZip", Primitive JSNull);
                   ("datasetName",
                    orElse datasetName
                      (Primitive (JSString "training-dataset")));
                   ("trainingConfig", orElse trainingConfig (JSObject []))])))
         (fun trainingResult =>
       quietly
         (success ← getProperty trainingResult "success";
          if negb (ToBooleanAny success) then
            Raised "Worker training start failed: No success flag in response"
          else
            trainingId ← getProperty trainingResult "trainingId";
            ToStringAny trainingId;;
            podId ← getProperty trainingResult "podId";
            status ← getProperty trainingResult "status";
            message ← getProperty trainingResult "message";
            mret (Json (JSObject
                          [("message",
                            Primitive (JSString
                              "Training started successfully through worker"));
                           ("trainingId", trainingId);
                           ("podId", podId);
                           ("status", status);
                           ("workerMessage", message)])))))).

(** [GET /status/:trainingId], lines 452-485. *)
Definition trainingStatus (r : Relay) (trainingId : string)
    : RelayResponse * list WorkerCall :=
  if String.eqb trainingId "" then
    (BadRequest "Training ID is required", [])
  else
    let call :=
      GetStatus (ToString (relayWorkerUrl r) +:+ "/training-status?id=" +:+
                 trainingId) in
    (match readReply "Worker status check failed: " (relayReply r call) with
     | Done statusResult => Json statusResult
     | Raised details =>
         Failure "Failed to check training status through worker" details None
     end, [call]).

(** The [Blob] of lines 504-512: a string is taken as base64 (decoding
    never throws); any other value is printed. *)
Definition zipBlobOf (datasetZip : JSAny) : Attempt Blob :=
  match datasetZip with
  | Primitive (JSString text) => Done (FromBase64 text)
  | _ => text ← ToStringAny datasetZip; Done (FromText text)
  end.

(** [POST /export-to-worker], lines 488-553, with the log lines that
    print values of the body (line 498) and of the reply (line 535). *)
Definition exportToWorker (r : Relay) (user : string)
    (datasetZip datasetName uploadPath trainingConfig : JSAny)
    : RelayResponse * list WorkerCall :=
  if negb (ToBooleanAny datasetZip) || negb (ToBooleanAny datasetName) then
    (BadRequest "Dataset ZIP and name are required", [])
  else
    answered "Failed to export to worker" (Some (relayWorkerUrl r))
      (andThen
         (quietly
            (name ← ToStringAny datasetName;
             path ← ToStringAny uploadPath;
             zipBlob ← zipBlobOf datasetZip;
             let finalUploadPath :=
               if ToBooleanAny uploadPath then path
               else user +:+ "/" +:+ name +:+ "_" +:+ pretty (relayNow r) in
             Done {| formFile := zipBlob;
                     formFileName := finalUploadPath +:+ ".zip";
                     formUploadPath := finalUploadPath;
                     formBucket := "datasets";
                     formAutoStartTraining := "false";
                     formTrainingConfig :=
                       orElse trainingConfig (JSObject []) |}))
         (fun formData =>
       andThen
         (fetchJson r "Worker error: "
            (PostDataset (ToString (relayWorkerUrl r) +:+ "/upload-dataset")
               formData))
         (fun workerResult =>
       quietly
         (fileName ← getProperty workerResult "fileName";
          ToStringAny fileName;;
          mret (Json (JSObject
                        ([("message",
                           Primitive (JSString
                             "Dataset exported to MinIO via worker successfully"));
                          ("source", Primitive (JSString "cloudflare-worker"));
                          ("workerUrl", Primitive (relayWorkerUrl r))]
                         ++ ownFields workerResult))))))).

(** ** The middleware in front of every route ([middleware/auth.ts]) *)

(** [s.split(sep)] for a separator of one character. *)
Fixpoint split (sep : ascii) (s : string) : list string :=
  match s with
  | EmptyString => [EmptyString]
  | String c rest =>
      match split sep rest with
      | piece :: pieces =>
          if Ascii.eqb c sep then EmptyString :: piece :: pieces
          else String c piece :: pieces
      | [] => [EmptyString]
      end
  end.

Record User := {
  userRowId : string;
  userEmail : string
}.

(** What the middleware consults, both taken as arbitrary functions:
    [verifyToken] of [utils/auth], which gives the user id that the
    token names or throws ([None]), and the users table by id. *)
Record Keys := {
  verifyToken : string -> option string;
  findUser : string -> option User
}.

Inductive AuthEvent :=
  | Verified (token : string)
  | LookedUp (user : string).

Inductive AuthOutcome :=
  | Unauthorized (error : string)
  | Forbidden (error : string)
  | Next (user email : string).

(** [authenticateToken], lines 12-45: the header as sent, if any, and the
    [token] query parameter, if any. *)
Definition authenticateToken (k : Keys) (authHeader queryToken : option string)
    : AuthOutcome * list AuthEvent :=
  let headerToken :=
    match authHeader with
    | None => None
    | Some header =>
        if String.eqb header "" then Some header
        else split " "%char header !! 1
    end in
  let token :=
    match headerToken with
    | Some t => if String.eqb t "" then queryToken else Some t
    | None => queryToken
    end in
  match token with
  | None => (Unauthorized "Access token required", [])
  | Some token =>
      if String.eqb token "" then (Unauthorized "Access token required", [])
      else
        match verifyToken k token with
        | None => (Forbidden "Invalid or expired token", [Verified token])
        | Some decodedUserId =>
            match findUser k decodedUserId with
            | None =>
                (Unauthorized "Invalid token",
                 [Verified token; LookedUp decodedUserId])
            | Some user =>
                (Next (userRowId user) (userEmail user),
                 [Verified token; LookedUp decodedUserId])
            end
        end
  end.

(** A string without the character [sep]. *)
Definition without (sep : ascii) (s : string) : bool :=
  forallb (fun c => negb (Ascii.eqb c sep)) (String.list_ascii_of_string s).

(** The request [POST /start-runpod] sends for a body. *)
Definition runpodCall (r : Relay) (trainingConfig datasetName : JSAny)
    : WorkerCall :=
  PostTraining (ToString (relayWorkerUrl r) +:+ "/start-training")
    (JSObject
       [("datasetZip", Primitive JSNull);
        ("datasetName",
         orElse datasetName (Primitive (JSString "training-dataset")));
        ("trainingConfig", orElse trainingConfig (JSObject []))]).

(** What [POST /start-runpod] answers once its request is made, from the
    reading of the reply on (lines 415-447). *)
Definition runpodAnswer (trainingResult : Attempt JSAny) : RelayResponse :=
  match
    trainingResult ← trainingResult;
    success ← getProperty trainingResult "success";
    if negb (ToBooleanAny success) then
      Raised "Worker training start failed: No success flag in response"
    else
      trainingId ← getProperty trainingResult "trainingId";
      ToStringAny trainingId;;
      podId ← getProperty trainingResult "podId";
      status ← getProperty trainingResult "status";
      message ← getProperty trainingResult "message";
      mret (Json (JSObject
                    [("message",
                      Primitive (JSString
                        "Training started successfully through worker"));
                     ("trainingId", trainingId);
                     ("podId", podId);
                     ("status", status);
                     ("workerMessage", message)]))
  with
  | Done response => response
  | Raised details =>
      Failure "Failed to start training through worker" details None
  end.

(** What [POST /export-to-worker] answers once its request is made
    (lines 528-551). *)
Definition exportAnswer (r : Relay) (workerResult : Attempt JSAny)
    : RelayResponse :=
  match
    workerResult ← workerResult;
    fileName ← getProperty workerResult "fileName";
    ToStringAny fileName;;
    mret (Json (JSObject
                  ([("message",
                     Primitive (JSString
                       "Dataset exported to MinIO via worker successfully"));
                    ("source", Primitive (JSString "cloudflare-worker"));
                    ("workerUrl", Primitive (relayWorkerUrl r))]
                   ++ ownFields workerResult)))
  with
  | Done response => response
  | Raised details =>
      Failure "Failed to export to worker" details (Some (relayWorkerUrl r))
  end.

(** The form [POST /export-to-worker] sends (lines 498-520), when the
    values of the body print. *)
Definition exportForm (r : Relay) (user : string)
    (datasetZip datasetName uploadPath trainingConfig : JSAny)
    : Attempt ExportForm :=
  name ← ToStringAny datasetName;
  path ← ToStringAny uploadPath;
  zipBlob ← zipBlobOf datasetZip;
  let finalUploadPath :=
    if ToBooleanAny uploadPath then path
    else user +:+ "/" +:+ name +:+ "_" +:+ pretty (relayNow r) in
  Done {| formFile := zipBlob;
          formFileName := finalUploadPath +:+ ".zip";
          formUploadPath := finalUploadPath;
          formBucket := "datasets";
          formAutoStartTraining := "false";
          formTrainingConfig := orElse trainingConfig (JSObject []) |}.

(** A value that prints without a line break. *)
Definition oneLine (v : JSValue) : Prop :=
  match v with
  | JSString s => lineBreaks s = 0
  | _ => True
  end.

(** ** Sample inputs for the other routes *)

(** A worker that answers every request with status 200 and this body. *)
Definition answering (body : JSAny) : Relay :=
  {| relayWorkerUrl := JSString "https://worker.example";
     relayReply := fun _ => Answer 200 "" (inr body);
     relayNow := 1700000000000 |}.

Definition startedBody : JSAny :=
  JSObject [("success", Primitive (JSBoolean true));
            ("trainingId", Primitive (JSString "t-1"));
            ("podId", Primitive (JSString "pod-7"));
            ("status", Primitive (JSString "starting"));
            ("message", Primitive (JSString "queued"))].

(** One user [u1] with the token [tok-1]. *)
Definition sampleKeys : Keys :=
  {| verifyToken := fun t => if String.eqb t "tok-1" then Some "u1" else None;
     findUser := fun i =>
       if String.eqb i "u1"
       then Some {| userRowId := "u1"; userEmail := "u1@example.org" |}
       else None |}.

(** The sample world of the export, with a dataset directory that cannot
    be listed. *)
Definition unlistedWorld : World :=
  {| validationErrors := []; projectId := "p1"; datasetId := "d1";
     datasetName := "cats";
     trainingConfig := trainingConfig (sampleWorld true successReply);
     userId := "u1"; project := true; dataset := true;
     annotationRows := [annotationOn "1" "a.jpg"];
     annotationClassRows := [];
     now := 1700000000000; cwd := "/app";
     WORKER_URL := JSString "https://worker.example";
     readdir := fun _ => None; access := fun _ => true;
     readFile := fun _ => Some []; fetch := fun _ _ => successReply |}.

(** The sample world with a second annotation, on an imageId that is a
    name of [Object.prototype]. *)
Definition inheritedIdWorld : World :=
  {| validationErrors := []; projectId := "p1"; datasetId := "d1";
     datasetName := "cats";
     trainingConfig := trainingConfig (sampleWorld true successReply);
     userId := "u1"; project := true; dataset := true;
     annotationRows := [annotationOn "1" "a.jpg"; annotationOn "2" "constructor"];
     annotationClassRows := [{| name := "cat"; color := "red" |}];
     now := 1700000000000; cwd := "/app";
     WORKER_URL := JSString "https://worker.example";
     readdir := fun _ => Some ["a.jpg"]; access := fun _ => true;
     readFile := fun _ => Some []; fetch := fun _ _ => successReply |}.

(** A JSON object with a property [toString] of its own. *)
Definition unprintable : JSAny :=
  JSObject [("toString", Primitive (JSNumber 1))].

(** * Properties *)

(** ** The model at work *)

Example toString_examples :
  JSNumber.toString 100 = "100"
  /\ JSNumber.toString 0.001 = "0.001"
  /\ JSNumber.toString (0.1 + 0.2) = "0.30000000000000004"
  /\ JSNumber.toString 1e21 = "1e+21"
  /\ JSNumber.toString 1e-7 = "1e-7"
  /\ JSNumber.toString (-123.456) = "-123.456"
  /\ JSNumber.toString 9007199254740993 = "9007199254740992"
  /\ JSNumber.toString (0 / 0) = "NaN".
Proof. vm_compute. repeat split. Qed.

Example toFixed_examples :
  JSNumber.toFixed 0.0703125 6 = "0.070313"
  /\ JSNumber.toFixed 1.005 2 = "1.00"
  /\ JSNumber.toFixed 2.5 0 = "3"
  /\ JSNumber.toFixed (-2.5) 0 = "-3"
  /\ JSNumber.toFixed (-0.0000001) 6 = "-0.000000"
  /\ JSNumber.toFixed 1234.5678 2 = "1234.57"
  /\ JSNumber.toFixed 1e21 6 = "1e+21"
  /\ JSNumber.toFixed 0 6 = "0.000000".
Proof. vm_compute. repeat split. Qed.

Example labelFileNameOf_examples :
  labelFileNameOf "cat.4001.jpg" = "cat.4001.txt"
  /\ labelFileNameOf "a.b/c" = "a.b/c"
  /\ labelFileNameOf "photo." = "photo."
  /\ labelFileNameOf ".png" = ".txt".
Proof. vm_compute. repeat split. Qed.

(** Exact and case-insensitive names match, a part of a name does not. *)
Example normalPath_example :
  let R := normalPath ascii_toLowerCase
             [annotationOn "1" "B.JPG"; annotationOn "2" "a.jpg";
              annotationOn "3" "a"; annotationOn "4" "b.jpg"]
             ["a.jpg"; "b.jpg"; "c.jpg"] in
  annotatedImageFiles R = ["b.jpg"; "a.jpg"]
  /\ imageAnnotationMap R !! "b.jpg"
     = Some [annotationOn "1" "B.JPG"; annotationOn "4" "b.jpg"]
  /\ imageAnnotationMap R !! "a.jpg" = Some [annotationOn "2" "a.jpg"]
  /\ imageAnnotationMap R !! "c.jpg" = None.
Proof. vm_compute. repeat split. Qed.

(** The scenario of the specification: with two files and one imageId the
    fallback path gives each file five of the ten annotations. *)
Example tenOnOne_example :
  match annotationsByImage tenOnOne with
  | Done grouped =>
      let R := (reconcile ascii_toLowerCase (uniqueImageIds grouped) tenOnOne
                  ["b.jpg"; "a.jpg"]).2 in
      uniqueImageIds grouped = {["a.jpg"]}
      /\ annotatedImageFiles R = ["a.jpg"; "b.jpg"]
      /\ imageAnnotationMap R !! "a.jpg" = Some (take 5 tenOnOne)
      /\ imageAnnotationMap R !! "b.jpg" = Some (drop 5 tenOnOne)
  | Raised _ => False
  end.
Proof. vm_compute. repeat split. Qed.

(** Code units: one for a character of the basic plane, a surrogate pair
    beyond it, so that U+1F600 sorts before U+FF5E although its code
    point and its UTF-8 text are the larger ones. *)
Example codeUnits_examples :
  codeUnits "a.jpg" = [97; 46; 106; 112; 103]%N
  /\ codeUnits "é" = [233]%N
  /\ codeUnits "～" = [65374]%N
  /\ codeUnits "😀" = [55357; 56832]%N
  /\ fromCodeUnit 233 = "é"
  /\ codeUnits (fromCodeUnit 55357) = [55357]%N
  /\ sort ["～.jpg"; "b.jpg"; "😀.jpg"; "B.jpg"]
     = ["B.jpg"; "b.jpg"; "😀.jpg"; "～.jpg"]
  /\ merge_sort String.le ["～.jpg"; "😀.jpg"] = ["～.jpg"; "😀.jpg"].
Proof. vm_compute. repeat split. Qed.

(** A plain object finds the members of [Object.prototype] under their
    names: as an imageId such a name makes the grouping throw, as a label
    it prints as the member's text. A class of such a name is an own key
    like any other, except [__proto__], which is not stored. *)
Example plain_object_examples :
  annotationsByImage [annotationOn "1" "a.jpg"; annotationOn "2" "constructor"]
  = Raised "acc[ann.imageId].push is not a function"
  /\ annotationsByImage [annotationOn "1" "__proto__"]
     = Raised "acc[ann.imageId].push is not a function"
  /\ classIdText ∅ "cat" = "0"
  /\ classIdText ∅ "constructor" = "function Object() { [native code] }"
  /\ classIdText ∅ "toString" = "function toString() { [native code] }"
  /\ classIdText ∅ "__proto__" = "[object Object]"
  /\ classMapping [{| name := "__proto__"; color := "" |};
                   {| name := "toString"; color := "" |}]
     = {["toString" := 1]}
  /\ classIdText {["toString" := 1]} "toString" = "1".
Proof. vm_compute. repeat split. Qed.

(** A whole run: the image is read, the archive posted, success answered. *)
Example start_example :
  match start ascii_toLowerCase (sampleWorld true successReply) with
  | (Uploaded body,
     [FsReaddir dir; FsAccess path; FsReadFile _; HttpPost url formData]) =>
      totalAnnotatedImages body = 1 /\ totalAnnotations body = 1
      /\ trainingId body = "training_1700000000000"
      /\ dir = "/app/uploads/datasets/d1"
      /\ path = "/app/uploads/datasets/d1/a.jpg"
      /\ url = "https://worker.example/upload-dataset"
      /\ uploadPath formData = "u1/cats_1700000000000"
      /\ mainDatasetFolder (file formData) = "cats_Training_1700000000000"
      /\ imagesFolder (file formData) !! "a.jpg" = Some []
      /\ labelsFolder (file formData) !! "a.txt"
         = Some "0 0.093750 0.070313 0.156250 0.078125"
      /\ configYaml (file formData)
         = Some (join LF
                   ["epochs: 100"; "batch_size: 16"; "img_size: 640";
                    "learning_rate: 0.001"; "model: yolov8recommended";
                    "num_classes: 1"; "class_names:"; "  - cat";
                    "project_name: cats_Training_1700000000000";
                    "train_val_split: 80/20"; ""])
  | _ => False
  end.
Proof. vm_compute. repeat split. Qed.

(** ** Grouping and the choice of the path *)

Lemma plainGet_Inherited {V} (object : gmap string V) (key name : string) :
  plainGet object key = Inherited name
  <-> object !! key = None /\ key ∈ inheritedNames /\ name = key.
Proof.
  unfold plainGet. destruct (object !! key); [naive_solver|].
  destruct (decide (key ∈ inheritedNames)); naive_solver.
Qed.

Lemma groupByImage_Done (acc : gmap string (list Annotation))
    (ann : Annotation) :
  imageId ann ∉ inheritedNames ->
  exists grouped,
    groupByImage acc ann = Done grouped
    /\ dom grouped = dom acc ∪ {[imageId ann]}.
Proof.
  intros Hord. unfold groupByImage, plainGet.
  destruct (acc !! imageId ann).
  - eexists. split; [done|]. rewrite dom_insert_L. set_solver.
  - rewrite decide_False by done.
    eexists. split; [done|]. rewrite dom_insert_L. set_solver.
Qed.

Lemma foldl_groupByImage_Raised (annotations : list Annotation)
    (message : string) :
  foldl (fun acc ann => acc ← acc; groupByImage acc ann) (Raised message)
        annotations
  = Raised message.
Proof. induction annotations as [|ann rest IH]; [done|]. simpl. apply IH. Qed.

Lemma foldl_groupByImage_Done (annotations : list Annotation) :
  ordinaryImageIds annotations ->
  forall acc : gmap string (list Annotation),
    exists grouped,
      foldl (fun acc ann => acc ← acc; groupByImage acc ann) (Done acc)
            annotations
      = Done grouped
      /\ dom grouped = dom acc ∪ distinctImageIds annotations.
Proof.
  unfold distinctImageIds.
  induction 1 as [|ann rest Hord _ IH]; intros acc; simpl.
  - exists acc. split; [done|]. set_solver.
  - destruct (groupByImage_Done acc ann Hord) as (next & Hnext & Hdom).
    rewrite Hnext.
    destruct (IH next) as (grouped & Hfold & Hgrouped).
    exists grouped. split; [exact Hfold|]. rewrite Hgrouped, Hdom. set_solver.
Qed.

(** The grouping returns when no imageId is an inherited name, and its
    keys are then the imageIds that occur. *)
Lemma annotationsByImage_Done (annotations : list Annotation) :
  ordinaryImageIds annotations ->
  exists grouped,
    annotationsByImage annotations = Done grouped
    /\ uniqueImageIds grouped = distinctImageIds annotations.
Proof.
  intros Hord.
  destruct (foldl_groupByImage_Done annotations Hord ∅)
    as (grouped & Hfold & Hdom).
  exists grouped. split; [exact Hfold|].
  unfold uniqueImageIds. rewrite Hdom, dom_empty_L. set_solver.
Qed.

(** It throws when some imageId is one: the keys of the object are the
    imageIds seen so far, so the name is not an own key when it comes. *)
Lemma foldl_groupByImage_inherited (annotations : list Annotation) :
  ~ ordinaryImageIds annotations ->
  forall acc : gmap string (list Annotation),
    (forall key, key ∈ dom acc -> key ∉ inheritedNames) ->
    foldl (fun acc ann => acc ← acc; groupByImage acc ann) (Done acc)
          annotations
    = Raised "acc[ann.imageId].push is not a function".
Proof.
  unfold ordinaryImageIds.
  induction annotations as [|ann rest IH]; intros Hnot acc Hacc; simpl.
  - exfalso. apply Hnot. constructor.
  - destruct (decide (imageId ann ∈ inheritedNames)) as [Hin|Hord].
    + unfold groupByImage, plainGet.
      destruct (acc !! imageId ann) eqn:Hown.
      * exfalso. apply (Hacc (imageId ann)); [|done].
        apply elem_of_dom. by eexists.
      * rewrite decide_True by done. apply foldl_groupByImage_Raised.
    + destruct (groupByImage_Done acc ann Hord) as (next & Hnext & Hdom).
      rewrite Hnext.
      apply IH.
      * intros Hrest. apply Hnot. by constructor.
      * intros key. rewrite Hdom, elem_of_union, elem_of_singleton.
        intros [Hkey| ->]; [by apply Hacc | done].
Qed.

Lemma annotationsByImage_Raised (annotations : list Annotation) :
  ~ ordinaryImageIds annotations ->
  annotationsByImage annotations
  = Raised "acc[ann.imageId].push is not a function".
Proof.
  intros Hnot. apply foldl_groupByImage_inherited; [done|].
  intros key. rewrite dom_empty_L. set_solver.
Qed.

Lemma shouldExpandImageSelection_true (n : nat) (imageFiles : list string) :
  shouldExpandImageSelection n imageFiles = true
  <-> n < 3 /\ 2 * n <= length imageFiles.
Proof.
  unfold shouldExpandImageSelection.
  rewrite andb_true_iff, Nat.ltb_lt, Nat.leb_le. lia.
Qed.

(** C1. Whenever the grouping of the annotations by imageId returns,
    which it does when no imageId is a name inherited from
    [Object.prototype], the fallback path is taken exactly when fewer
    than three distinct imageIds occur among the annotations and there
    are at least twice as many image files as distinct imageIds; with
    one distinct imageId and two image files the test [2 >= 2 * 1] holds
    and the fallback path is the one taken. *)
Theorem fallback_iff_sparse (toLowerCase : string -> string)
    (annotations : list Annotation) (imageFiles : list string) :
  Forall (fun a => imageId a ∉ inheritedNames) annotations ->
  let U : gset string := list_to_set (imageId <$> annotations) in
  exists grouped,
    annotationsByImage annotations = Done grouped
    /\ uniqueImageIds grouped = U
    /\ (shouldExpandImageSelection (size (uniqueImageIds grouped)) imageFiles
          = true
        <-> size U < 3 /\ 2 * size U <= length imageFiles)
    /\ reconcile toLowerCase (uniqueImageIds grouped) annotations imageFiles
       = (if bool_decide (size U < 3 /\ 2 * size U <= length imageFiles)
          then (sort imageFiles, fallbackAssign annotations (sort imageFiles))
          else (imageFiles, normalPath toLowerCase annotations imageFiles))
    /\ (size U = 1 -> length imageFiles = 2 ->
        reconcile toLowerCase (uniqueImageIds grouped) annotations imageFiles
        = (sort imageFiles, fallbackAssign annotations (sort imageFiles))).
Proof.
  intros Hord U.
  destruct (annotationsByImage_Done annotations Hord) as (grouped & Hgr & HU).
  fold U in HU. change (distinctImageIds annotations) with U in HU.
  exists grouped. split; [exact Hgr|]. split; [exact HU|].
  rewrite HU.
  assert (Hiff : shouldExpandImageSelection (size U) imageFiles = true
                 <-> size U < 3 /\ 2 * size U <= length imageFiles)
    by apply shouldExpandImageSelection_true.
  assert (Hrec : reconcile toLowerCase U annotations imageFiles
     = (if bool_decide (size U < 3 /\ 2 * size U <= length imageFiles)
        then (sort imageFiles, fallbackAssign annotations (sort imageFiles))
        else (imageFiles, normalPath toLowerCase annotations imageFiles))).
  { unfold reconcile.
    destruct (shouldExpandImageSelection _ _) eqn:E.
    - rewrite bool_decide_eq_true_2; [done | by apply Hiff].
    - rewrite bool_decide_eq_false_2; [done |].
      intros H. apply Hiff in H. congruence. }
  split; [exact Hiff | split; [exact Hrec |]].
  intros H1 H2. rewrite Hrec, bool_decide_eq_true_2; [done | lia].
Qed.

(** ** The normal path *)

Lemma elem_of_firstAppearances (l : list string) (s : string) :
  s ∈ firstAppearances l <-> s ∈ l.
Proof.
  induction l as [|t l IH]; simpl; [done|].
  rewrite !elem_of_cons, list_elem_of_filter, IH.
  destruct (decide (s = t)); naive_solver.
Qed.

Lemma firstAppearances_NoDup (l : list string) : NoDup (firstAppearances l).
Proof.
  induction l as [|t l IH]; simpl; [constructor|].
  constructor; [|by apply NoDup_filter].
  rewrite list_elem_of_filter. naive_solver.
Qed.

Lemma firstAppearances_snoc (l : list string) (s : string) :
  firstAppearances (l ++ [s])
  = if decide (s ∈ l) then firstAppearances l else firstAppearances l ++ [s].
Proof.
  induction l as [|t l IH]; simpl.
  - done.
  - rewrite IH. destruct (decide (s ∈ l)) as [Hin|Hnin].
    + rewrite decide_True; [done | by right].
    + rewrite filter_app, filter_cons, filter_nil.
      destruct (decide (s = t)) as [->|Hne].
      * rewrite decide_False by naive_solver.
        rewrite decide_True by left. by rewrite app_nil_r.
      * rewrite decide_True by done.
        rewrite decide_False; [done|].
        rewrite elem_of_cons. naive_solver.
Qed.

Section NormalPath.
Variable toLowerCase : string -> string.
Variable imageFiles : list string.

Local Abbreviation resolved := (resolvedFile toLowerCase imageFiles).
Local Abbreviation step := (normalStep toLowerCase imageFiles).

Lemma matches_true (imageId imageFile : string) :
  matches toLowerCase imageId imageFile = true
  <-> imageId = imageFile \/ toLowerCase imageId = toLowerCase imageFile.
Proof.
  unfold matches. rewrite orb_true_iff, !String.eqb_eq. done.
Qed.

Lemma resolvedFile_Some (a : Annotation) (file : string) :
  resolved a = Some file ->
  file ∈ imageFiles /\ file <> ""
  /\ (imageId a = file \/ toLowerCase (imageId a) = toLowerCase file).
Proof.
  unfold resolvedFile, matchingImageFile.
  destruct (List.find _ _) as [f|] eqn:Hfind; [|done].
  destruct (String.eqb_spec f ""); [done|].
  intros [= <-]. apply find_some in Hfind as [Hin Hm].
  split; [by apply list_elem_of_In|]. split; [done|].
  by apply matches_true.
Qed.

Lemma normalStep_resolved (acc : Reconciliation) (a : Annotation) :
  step acc a =
  match resolved a with
  | None => acc
  | Some file =>
      match imageAnnotationMap acc !! file with
      | None =>
          {| imageAnnotationMap := <[file := [a]]> (imageAnnotationMap acc);
             annotatedImageFiles := annotatedImageFiles acc ++ [file] |}
      | Some assigned =>
          {| imageAnnotationMap :=
               <[file := assigned ++ [a]]> (imageAnnotationMap acc);
             annotatedImageFiles := annotatedImageFiles acc |}
      end
  end.
Proof.
  unfold normalStep, resolvedFile.
  destruct (matchingImageFile _ _ _) as [f|]; [|done].
  by destruct (String.eqb f "").
Qed.

Lemma normalPath_snoc (annotations : list Annotation) (a : Annotation) :
  normalPath toLowerCase (annotations ++ [a]) imageFiles
  = step (normalPath toLowerCase annotations imageFiles) a.
Proof. unfold normalPath. by rewrite foldl_app. Qed.

Lemma assignedTo_None (annotations : list Annotation) (file : string) :
  assignedTo toLowerCase imageFiles annotations file = None
  <-> file ∉ omap resolved annotations.
Proof.
  unfold assignedTo. rewrite list_elem_of_omap.
  destruct (filter _ _) as [|a l] eqn:E.
  - split; [|done]. intros _ (a & Hin & Hres).
    assert (a ∈ filter (fun a => resolved a = Some file) annotations)
      by (by apply list_elem_of_filter).
    rewrite E in H. by apply not_elem_of_nil in H.
  - split; [done|]. intros Hno. exfalso. apply Hno. exists a.
    assert (Ha : a ∈ filter (fun a => resolved a = Some file) annotations)
      by (rewrite E; left).
    apply list_elem_of_filter in Ha. naive_solver.
Qed.

Lemma assignedTo_snoc (annotations : list Annotation) (a : Annotation)
    (file : string) :
  assignedTo toLowerCase imageFiles (annotations ++ [a]) file
  = if decide (resolved a = Some file)
    then Some (default [] (assignedTo toLowerCase imageFiles annotations file)
               ++ [a])
    else assignedTo toLowerCase imageFiles annotations file.
Proof.
  unfold assignedTo. rewrite filter_app, filter_cons, filter_nil.
  destruct (decide (resolved a = Some file)).
  - destruct (filter _ annotations); done.
  - by rewrite app_nil_r.
Qed.

(** What the loop has built after any number of annotations. *)
Lemma normalPath_spec (annotations : list Annotation) :
  annotatedImageFiles (normalPath toLowerCase annotations imageFiles)
    = firstAppearances (omap resolved annotations)
  /\ forall file,
       imageAnnotationMap (normalPath toLowerCase annotations imageFiles)
         !! file
       = assignedTo toLowerCase imageFiles annotations file.
Proof.
  induction annotations as [|a annotations [IHl IHm]] using rev_ind.
  - split; [done|]. intros file. apply lookup_empty.
  - rewrite normalPath_snoc, normalStep_resolved, omap_app. simpl.
    destruct (resolved a) as [f|] eqn:Hres; simpl.
    + assert (Hf := IHm f).
      destruct (imageAnnotationMap _ !! f) as [assigned|] eqn:Hlook; simpl.
      * split.
        -- rewrite firstAppearances_snoc, decide_True; [done|].
           destruct (decide (f ∈ omap resolved annotations)); [done|].
           apply assignedTo_None in n. congruence.
        -- intros file. rewrite assignedTo_snoc, Hres.
           destruct (decide (Some f = Some file)) as [[= ->]|Hne].
           ++ by rewrite lookup_insert_eq, <- Hf.
           ++ rewrite lookup_insert_ne by congruence. apply IHm.
      * split.
        -- rewrite firstAppearances_snoc, decide_False, IHl; [done|].
           by apply assignedTo_None.
        -- intros file. rewrite assignedTo_snoc, Hres.
           destruct (decide (Some f = Some file)) as [[= ->]|Hne].
           ++ by rewrite lookup_insert_eq, <- Hf.
           ++ rewrite lookup_insert_ne by congruence. apply IHm.
    + rewrite app_nil_r. split; [done|].
      intros file. rewrite assignedTo_snoc, Hres.
      rewrite decide_False by done. apply IHm.
Qed.

(** Whatever is under a file resolves to it. *)
Lemma normalPath_assigned (annotations : list Annotation) (file : string)
    (assigned : list Annotation) (a : Annotation) :
  imageAnnotationMap (normalPath toLowerCase annotations imageFiles) !! file
    = Some assigned ->
  a ∈ assigned ->
  a ∈ annotations /\ resolved a = Some file.
Proof.
  destruct (normalPath_spec annotations) as [_ Hm].
  rewrite Hm. unfold assignedTo. intros Hlook Hin.
  assert (Ha : a ∈ filter (fun a => resolved a = Some file) annotations).
  { destruct (filter _ annotations); [done|]. by injection Hlook as ->. }
  apply list_elem_of_filter in Ha. tauto.
Qed.

Lemma normalPath_drops_unmatched (annotations : list Annotation) :
  forall acc,
    foldl step acc (filter (fun a => is_Some (resolved a)) annotations)
    = foldl step acc annotations.
Proof.
  induction annotations as [|a annotations IH]; intros acc; [done|].
  rewrite filter_cons. destruct (decide (is_Some (resolved a))) as [Hs|Hn].
  - simpl. apply IH.
  - simpl. rewrite IH. f_equal. rewrite normalStep_resolved.
    destruct (resolved a); [|done]. exfalso. apply Hn. by eexists.
Qed.

End NormalPath.

(** [Array.prototype.find] gives the first element that passes. *)
Lemma find_first {A} (p : A -> bool) (l : list A) (x : A) :
  List.find p l = Some x
  <-> exists i, l !! i = Some x /\ p x = true
               /\ forall j y, j < i -> l !! j = Some y -> p y = false.
Proof.
  induction l as [|a l IH]; simpl.
  - split; [done|]. by intros (i & Hi & _).
  - destruct (p a) eqn:Hpa.
    + split.
      * intros [= <-]. exists 0. split; [done|]. split; [done|]. lia.
      * intros ([|i] & Hi & Hpx & Hfirst); [by simplify_eq/=|].
        specialize (Hfirst 0 a ltac:(lia) eq_refl). congruence.
    + rewrite IH. split.
      * intros (i & Hi & Hpx & Hfirst). exists (S i).
        split; [done|]. split; [done|].
        intros [|j] y Hj Hy; simplify_eq/=; [done|].
        apply (Hfirst j); [lia | done].
      * intros ([|i] & Hi & Hpx & Hfirst); simplify_eq/=; [congruence|].
        exists i. split; [done|]. split; [done|].
        intros j y Hj Hy. apply (Hfirst (S j)); [lia | done].
Qed.

Lemma matchingImageFile_firstNamed (toLowerCase : string -> string)
    (imageFiles : list string) (imageId file : string) :
  matchingImageFile toLowerCase imageFiles imageId = Some file
  <-> firstNamed toLowerCase imageFiles imageId file.
Proof.
  unfold matchingImageFile, firstNamed, namesFile.
  rewrite find_first. f_equiv. intros i.
  rewrite matches_true.
  split; intros (Hi & Hm & Hfirst); (split; [done|]); (split; [done|]);
    intros j y Hj Hy; specialize (Hfirst j y Hj Hy).
  - rewrite <- matches_true. congruence.
  - rewrite <- matches_true in Hfirst. by destruct (matches _ _ _).
Qed.

Lemma firstNamed_unique (toLowerCase : string -> string)
    (imageFiles : list string) (imageId f g : string) :
  firstNamed toLowerCase imageFiles imageId f ->
  firstNamed toLowerCase imageFiles imageId g ->
  f = g.
Proof.
  intros (i & Hi & Hf & Hfirsti) (k & Hk & Hg & Hfirstk).
  destruct (Nat.lt_trichotomy i k) as [Hlt|[->|Hgt]].
  - exfalso. by eapply Hfirstk.
  - congruence.
  - exfalso. by eapply Hfirsti.
Qed.

(** The search of the loop finds the first file that the imageId names;
    a file without a name counts as none. *)
Lemma resolvedFile_firstNamed (toLowerCase : string -> string)
    (imageFiles : list string) (a : Annotation) (file : string) :
  resolvedFile toLowerCase imageFiles a = Some file
  <-> file <> "" /\ firstNamed toLowerCase imageFiles (imageId a) file.
Proof.
  unfold resolvedFile.
  destruct (matchingImageFile _ _ _) as [f|] eqn:Hf.
  - apply matchingImageFile_firstNamed in Hf.
    destruct (String.eqb_spec f "") as [->|Hne].
    + split; [done|]. intros [Hfile Hfirst].
      by rewrite (firstNamed_unique _ _ _ _ _ Hfirst Hf) in Hfile.
    + split.
      * by intros [= <-].
      * intros [_ Hfirst]. f_equal.
        by apply (firstNamed_unique toLowerCase imageFiles (imageId a)).
  - split; [done|]. intros [_ Hfirst].
    apply matchingImageFile_firstNamed in Hfirst. congruence.
Qed.

(** C2. On the normal path an annotation is put under an image file only
    if its imageId is that file name, exactly or after lower-casing both
    (equality of whole names, never containment), and it is put under the
    first file of the listing that its imageId names so; an annotation
    without such a file is dropped and the path goes on as if it were
    absent; and the annotated image files are listed in the order in
    which their first matching annotation comes. *)
Theorem normal_path_exact_match (toLowerCase : string -> string)
    (annotations : list Annotation) (imageFiles : list string) :
  let R := normalPath toLowerCase annotations imageFiles in
  (forall file assigned a,
      imageAnnotationMap R !! file = Some assigned -> a ∈ assigned ->
      a ∈ annotations /\ file ∈ imageFiles
      /\ (imageId a = file \/ toLowerCase (imageId a) = toLowerCase file))
  /\ (forall a file,
        a ∈ annotations -> file <> "" ->
        firstNamed toLowerCase imageFiles (imageId a) file ->
        exists assigned,
          imageAnnotationMap R !! file = Some assigned /\ a ∈ assigned)
  /\ (forall a file,
        resolvedFile toLowerCase imageFiles a = Some file
        <-> file <> "" /\ firstNamed toLowerCase imageFiles (imageId a) file)
  /\ (forall file,
        imageAnnotationMap R !! file
        = assignedTo toLowerCase imageFiles annotations file)
  /\ R = normalPath toLowerCase
           (filter (fun a => is_Some (resolvedFile toLowerCase imageFiles a))
                   annotations)
           imageFiles
  /\ annotatedImageFiles R
     = firstAppearances (omap (resolvedFile toLowerCase imageFiles) annotations)
  /\ NoDup (annotatedImageFiles R).
Proof.
  intros R. subst R.
  destruct (normalPath_spec toLowerCase imageFiles annotations) as [Hl Hm].
  split; [|split; [|split; [|split; [exact Hm | split; [|split]]]]].
  - intros file assigned a Hlook Hin.
    destruct (normalPath_assigned toLowerCase imageFiles annotations
                file assigned a Hlook Hin) as [Hann Hres].
    apply (resolvedFile_Some toLowerCase imageFiles) in Hres. naive_solver.
  - intros a file Hin Hfile Hfirst.
    assert (Hres : resolvedFile toLowerCase imageFiles a = Some file)
      by (by apply resolvedFile_firstNamed).
    assert (Ha : a ∈ filter (fun a => resolvedFile toLowerCase imageFiles a
                                      = Some file) annotations)
      by (by apply list_elem_of_filter).
    rewrite Hm. unfold assignedTo.
    destruct (filter _ annotations) as [|b l] eqn:E.
    + by apply not_elem_of_nil in Ha.
    + by exists (b :: l).
  - intros a file. apply resolvedFile_firstNamed.
  - unfold normalPath. symmetry.
    apply (normalPath_drops_unmatched toLowerCase imageFiles).
  - exact Hl.
  - rewrite Hl. apply firstAppearances_NoDup.
Qed.

(** ** The fallback path *)

Lemma ceil_div_spec (a b : nat) :
  0 < b -> a <= ceil_div a b * b /\ ceil_div a b * b < a + b.
Proof.
  intros Hb. unfold ceil_div. destruct b as [|b]; [lia|].
  pose proof (Nat.div_mod_eq (a + S b - 1) (S b)) as Hdm.
  pose proof (Nat.mod_upper_bound (a + S b - 1) (S b)).
  nia.
Qed.

Lemma ceil_div_pos (a b : nat) : 0 < a -> 0 < b -> 0 < ceil_div a b.
Proof. intros Ha Hb. pose proof (ceil_div_spec a b Hb). nia. Qed.

Lemma length_chunk {A} (per i : nat) (l : list A) :
  length (chunk per i l) = min per (length l - i * per).
Proof. unfold chunk. by rewrite length_take, length_drop. Qed.

Lemma slice_chunk {A} (per i : nat) (l : list A) :
  slice (i * per) (min (i * per + per) (length l)) l = chunk per i l.
Proof.
  unfold slice, chunk.
  destruct (decide (i * per + per <= length l)) as [Hle|Hgt].
  - f_equal. lia.
  - rewrite !take_ge; [done | |]; rewrite length_drop; lia.
Qed.

Lemma fmap_chunk {A B} (h : A -> B) (per i : nat) (l : list A) :
  chunk per i (h <$> l) = h <$> chunk per i l.
Proof. unfold chunk. by rewrite fmap_take, fmap_drop. Qed.

(** Blocks [0 .. k-1] laid end to end are the first [k * per] elements. *)
Lemma concat_chunks {A} (per k : nat) (l : list A) :
  concat ((fun i => chunk per i l) <$> seq 0 k) = take (k * per) l.
Proof.
  induction k as [|k IH]; [done|].
  rewrite seq_S, fmap_app, concat_app, IH. simpl. rewrite app_nil_r.
  unfold chunk. rewrite take_take_drop. f_equal. lia.
Qed.

Section FallbackLoop.
Variable annotations : list Annotation.
Variable sortedImageFiles : list string.
Variable per : nat.
Hypothesis per_pos : 0 < per.

Local Abbreviation step := (fallbackStep annotations sortedImageFiles per).

Lemma fallbackStep_chunk (acc : Reconciliation) (i : nat) (file : string) :
  sortedImageFiles !! i = Some file ->
  step acc i =
  if decide (i * per < length annotations)
  then {| imageAnnotationMap :=
            <[file := chunk per i annotations]> (imageAnnotationMap acc);
          annotatedImageFiles := annotatedImageFiles acc ++ [file] |}
  else acc.
Proof.
  intros Hfile. unfold fallbackStep. rewrite Hfile, slice_chunk, length_chunk.
  destruct (decide (i * per < length annotations)) as [Hlt|Hge].
  - assert (H : (0 <? min per (length annotations - i * per)) = true)
      by (apply Nat.ltb_lt; lia).
    by rewrite H.
  - assert (H : (0 <? min per (length annotations - i * per)) = false)
      by (apply Nat.ltb_ge; lia).
    by rewrite H.
Qed.

(** Past the end of the annotations the loop changes nothing. *)
Lemma fallback_idle (m : nat) :
  forall (i0 : nat) (acc : Reconciliation),
    length annotations <= i0 * per ->
    foldl step acc (seq i0 m) = acc.
Proof.
  induction m as [|m IH]; intros i0 acc Hi0; [done|].
  simpl. rewrite IH by lia.
  destruct (sortedImageFiles !! i0) as [file|] eqn:Hfile.
  - rewrite (fallbackStep_chunk _ _ file Hfile), decide_False; [done | lia].
  - unfold fallbackStep. by rewrite Hfile.
Qed.

(** While blocks are not empty, block [i] goes to file [i]. *)
Lemma fallback_prefix (j : nat) :
  NoDup sortedImageFiles ->
  j * per < length annotations + per ->
  j <= length sortedImageFiles ->
  let R := foldl step emptyReconciliation (seq 0 j) in
  annotatedImageFiles R = take j sortedImageFiles
  /\ (forall i file,
        sortedImageFiles !! i = Some file ->
        imageAnnotationMap R !! file
        = if decide (i < j) then Some (chunk per i annotations) else None)
  /\ (forall file, file ∉ sortedImageFiles ->
                   imageAnnotationMap R !! file = None).
Proof.
  intros Hnodup. induction j as [|j IH]; intros Hblocks Hlen R; subst R.
  - simpl. split; [by rewrite take_0|]. split.
    + intros i file _. apply lookup_empty.
    + intros file _. apply lookup_empty.
  - destruct IH as (IHl & IHm & IHn); [lia | lia |].
    destruct (lookup_lt_is_Some_2 sortedImageFiles j) as [fj Hfj]; [lia|].
    rewrite seq_S, foldl_app. simpl.
    rewrite (fallbackStep_chunk _ _ fj Hfj), decide_True by lia. simpl.
    split; [|split].
    + rewrite IHl. symmetry. by apply take_S_r.
    + intros i file Hfile. destruct (decide (file = fj)) as [->|Hne].
      * assert (i = j) as -> by (eapply NoDup_lookup; eauto).
        rewrite lookup_insert_eq, decide_True by lia. done.
      * rewrite lookup_insert_ne by done. rewrite (IHm i file Hfile).
        assert (i <> j) by congruence.
        destruct (decide (i < j)); [rewrite decide_True by lia|
                                    rewrite decide_False by lia]; done.
    + intros file Hnot. rewrite lookup_insert_ne.
      * by apply IHn.
      * intros <-. apply Hnot. eapply list_elem_of_lookup_2. exact Hfj.
Qed.

End FallbackLoop.

Lemma fallbackStep_rewritten (h : Annotation -> Annotation)
    (annotations : list Annotation) (sortedImageFiles : list string)
    (per : nat) (acc : Reconciliation) (i : nat) :
  fallbackStep (h <$> annotations) sortedImageFiles per (rewritten h acc) i
  = rewritten h (fallbackStep annotations sortedImageFiles per acc i).
Proof.
  unfold fallbackStep.
  destruct (sortedImageFiles !! i) as [file|]; [|done].
  rewrite length_fmap.
  unfold slice. rewrite <- fmap_drop, <- fmap_take, length_fmap.
  destruct (0 <? _); [|done].
  unfold rewritten. simpl. by rewrite fmap_insert.
Qed.

Lemma fallbackAssign_rewritten (h : Annotation -> Annotation)
    (annotations : list Annotation) (sortedImageFiles : list string) :
  fallbackAssign (h <$> annotations) sortedImageFiles
  = rewritten h (fallbackAssign annotations sortedImageFiles).
Proof.
  unfold fallbackAssign. rewrite length_fmap.
  assert (Hempty : emptyReconciliation = rewritten h emptyReconciliation).
  { unfold rewritten, emptyReconciliation. simpl. by rewrite fmap_empty. }
  rewrite Hempty at 1.
  generalize emptyReconciliation as acc.
  generalize (seq 0 (length annotations `min` length sortedImageFiles)) as l.
  induction l as [|i l IH]; intros acc; [done|].
  simpl. rewrite fallbackStep_rewritten. apply IH.
Qed.

Lemma distinctImageIds_nonempty (annotations : list Annotation) :
  annotations <> [] -> 0 < size (distinctImageIds annotations).
Proof.
  intros Hne. destruct annotations as [|a rest]; [done|].
  unfold distinctImageIds. simpl.
  destruct (size _) eqn:Hsize; [|lia].
  apply size_empty_inv in Hsize. set_solver.
Qed.

Lemma unitsLe_total (a b : list N) : unitsLe a b = true \/ unitsLe b a = true.
Proof.
  revert b. induction a as [|x a IH]; intros [|y b]; simpl; auto.
  destruct (N.ltb_spec x y), (N.ltb_spec y x); auto; lia.
Qed.

Lemma unitsLe_trans (a b c : list N) :
  unitsLe a b = true -> unitsLe b c = true -> unitsLe a c = true.
Proof.
  revert b c. induction a as [|x a IH]; intros [|y b] [|z c]; simpl; try done.
  destruct (N.ltb_spec x y), (N.ltb_spec y x), (N.ltb_spec y z),
    (N.ltb_spec z y), (N.ltb_spec x z), (N.ltb_spec z x);
    try done; try lia.
  apply IH.
Qed.

#[global] Instance codeUnitLe_total : Total codeUnitLe.
Proof. intros a b. apply unitsLe_total. Qed.

#[global] Instance codeUnitLe_trans : Transitive codeUnitLe.
Proof. intros a b c. apply unitsLe_trans. Qed.

Lemma sort_Permutation (imageFiles : list string) :
  sort imageFiles ≡ₚ imageFiles.
Proof. apply merge_sort_Permutation. Qed.

Lemma sort_Sorted (imageFiles : list string) :
  Sorted codeUnitLe (sort imageFiles).
Proof. apply (Sorted_merge_sort codeUnitLe). Qed.

(** The arithmetic of the blocks: with [count] files for [n] annotations,
    blocks of [per = ceil (n / count)] cover the annotations with
    [k = ceil (n / per)] blocks, none empty, and [k <= count]. *)
Lemma block_arithmetic (n count : nat) :
  0 < n -> 0 < count ->
  let per := ceil_div n count in
  let k := ceil_div n per in
  0 < per /\ n <= k * per /\ k * per < n + per /\ k <= count.
Proof.
  intros Hn Hcount per k.
  assert (Hper : 0 < per) by (by apply ceil_div_pos).
  destruct (ceil_div_spec n count Hcount) as [Hc1 Hc2]. fold per in Hc1, Hc2.
  destruct (ceil_div_spec n per Hper) as [Hk1 Hk2]. fold k in Hk1, Hk2.
  repeat split; try done.
  destruct (decide (k <= count)) as [|Hgt]; [done|]. nia.
Qed.

(** C3. On the fallback path the image files are sorted (as the default
    sort does, by the UTF-16 code units of the names), the whole
    annotation list is cut into consecutive blocks of
    [ceil (total / min (total, files))] annotations (the last block takes
    what is left), block [i] goes to the [i]-th sorted file whatever the
    imageIds say, and only the files that receive a block are in the
    result. *)
Theorem fallback_path_chunks (toLowerCase : string -> string)
    (annotations : list Annotation) (imageFiles : list string) :
  let uniqueImageIds : gset string := list_to_set (imageId <$> annotations) in
  shouldExpandImageSelection (size uniqueImageIds) imageFiles = true ->
  NoDup imageFiles ->
  let sorted := sort imageFiles in
  let per :=
    ceil_div (length annotations)
             (min (length annotations) (length imageFiles)) in
  let k := ceil_div (length annotations) per in
  let R := (reconcile toLowerCase uniqueImageIds annotations imageFiles).2 in
  (reconcile toLowerCase uniqueImageIds annotations imageFiles).1 = sorted
  /\ StronglySorted codeUnitLe sorted /\ sorted ≡ₚ imageFiles
  /\ concat ((fun i => chunk per i annotations) <$> seq 0 k) = annotations
  /\ (forall i, i < k ->
        0 < length (chunk per i annotations) <= per
        /\ (S i < k -> length (chunk per i annotations) = per))
  /\ k <= length sorted
  /\ annotatedImageFiles R = take k sorted
  /\ (forall i file,
        sorted !! i = Some file ->
        imageAnnotationMap R !! file
        = if decide (i < k) then Some (chunk per i annotations) else None)
  /\ (forall file, file ∉ imageFiles -> imageAnnotationMap R !! file = None)
  /\ (forall h : Annotation -> Annotation,
        fallbackAssign (h <$> annotations) sorted = rewritten h R).
Proof.
  intros U Hexpand Hnodup sorted per k R.
  assert (Hrec : reconcile toLowerCase U annotations imageFiles
                 = (sorted, fallbackAssign annotations sorted))
    by (unfold reconcile; by rewrite Hexpand).
  assert (HR : R = fallbackAssign annotations sorted)
    by (subst R; by rewrite Hrec).
  assert (Hperm : sorted ≡ₚ imageFiles) by apply sort_Permutation.
  assert (Hlen : length sorted = length imageFiles) by (by rewrite Hperm).
  assert (Hnodup' : NoDup sorted) by (by rewrite Hperm).
  split; [by rewrite Hrec|].
  split; [apply (StronglySorted_merge_sort codeUnitLe)|]. split; [done|].
  rewrite HR. clear HR Hrec R.
  destruct (decide (annotations = [])) as [Hnil|Hne].
  { subst k per. subst annotations. simpl.
    repeat split; done || lia. }
  split; [|split; [|split; [|split; [|split; [|split]]]]];
    [| | | | | |intros h; apply fallbackAssign_rewritten].
  all: assert (Hn : 0 < length annotations)
         by (destruct annotations; [done | simpl; lia]).
  all: assert (Hfiles : 2 <= length imageFiles)
         by (apply shouldExpandImageSelection_true in Hexpand;
             pose proof (distinctImageIds_nonempty annotations Hne);
             unfold distinctImageIds in *; fold U in H; lia).
  all: destruct (block_arithmetic (length annotations)
                   (min (length annotations) (length imageFiles)))
         as (Hper & Hcover & Htight & Hk); [lia | lia |];
       fold per in Hper, Hcover, Htight, Hk; fold k in Hcover, Htight, Hk.
  all: assert (Hsplit :
         seq 0 (min (length annotations) (length sorted))
         = seq 0 k ++ seq k (min (length annotations) (length sorted) - k))
         by (rewrite <- (seq_app k _ 0), Hlen; f_equal; lia).
  all: assert (Hassign :
         fallbackAssign annotations sorted
         = foldl (fallbackStep annotations sorted per) emptyReconciliation
                 (seq 0 k))
         by (unfold fallbackAssign; rewrite Hlen; fold per;
             rewrite <- Hlen, Hsplit, foldl_app;
             apply fallback_idle; [done | lia]).
  all: destruct (fallback_prefix annotations sorted per Hper k Hnodup')
         as (Hl & Hm & Hnone); [lia | lia |].
  - rewrite concat_chunks. apply take_ge. lia.
  - intros i Hi. rewrite length_chunk. split; [nia|]. intros HS. nia.
  - lia.
  - by rewrite Hassign.
  - rewrite Hassign. exact Hm.
  - rewrite Hassign. intros file Hnot. apply Hnone. by rewrite Hperm.
Qed.

(** ** What reconciliation hands on *)

Lemma imageFilesOf_subseteq (toLowerCase : string -> string)
    (datasetFiles : list string) (file : string) :
  file ∈ imageFilesOf toLowerCase datasetFiles -> file ∈ datasetFiles.
Proof.
  unfold imageFilesOf. rewrite !list_elem_of_In, filter_In. tauto.
Qed.

Lemma fallbackStep_within (annotations : list Annotation)
    (sortedImageFiles : list string) (per : nat) (acc : Reconciliation)
    (i : nat) :
  within annotations sortedImageFiles acc ->
  within annotations sortedImageFiles
         (fallbackStep annotations sortedImageFiles per acc i).
Proof.
  intros [Hm Hl]. unfold fallbackStep.
  destruct (sortedImageFiles !! i) as [fi|] eqn:Hfi; [|done].
  destruct (0 <? _); [|done].
  assert (Hin : fi ∈ sortedImageFiles)
    by (eapply list_elem_of_lookup_2; exact Hfi).
  split; simpl.
  - intros file assigned. destruct (decide (file = fi)) as [->|Hne].
    + rewrite lookup_insert_eq. intros [= <-]. split; [done|].
      intros a Ha. unfold slice in Ha.
      apply (subseteq_drop (i * per) annotations).
      by apply (subseteq_take (min (i * per + per) (length annotations) - i * per)).
    + rewrite lookup_insert_ne by done. apply Hm.
  - intros file. rewrite elem_of_app, list_elem_of_singleton.
    intros [H| ->]; [by apply Hl | done].
Qed.

Lemma fallbackAssign_within (annotations : list Annotation)
    (sortedImageFiles : list string) :
  within annotations sortedImageFiles
         (fallbackAssign annotations sortedImageFiles).
Proof.
  unfold fallbackAssign.
  assert (H0 : within annotations sortedImageFiles emptyReconciliation).
  { split; simpl.
    - intros file assigned. by rewrite lookup_empty.
    - intros file H. by apply not_elem_of_nil in H. }
  revert H0. generalize emptyReconciliation as acc.
  generalize (seq 0 (length annotations `min` length sortedImageFiles)) as l.
  induction l as [|i l IH]; intros acc Hacc; [done|].
  simpl. apply IH. by apply fallbackStep_within.
Qed.

(** C9. After reconciliation by either path every key of the
    map, and every listed annotated file, is an image file of the storage
    listing, and every annotation in the map is one of the dataset's; on
    the normal path an annotation is in the map only under a file that its
    imageId resolves to. On the fallback path annotations are placed
    whatever their imageId is. *)
Theorem reconciled_files_are_stored (toLowerCase : string -> string)
    (uniqueImageIds : gset string) (annotations : list Annotation)
    (datasetFiles : list string) :
  let imageFiles := imageFilesOf toLowerCase datasetFiles in
  let R := (reconcile toLowerCase uniqueImageIds annotations imageFiles).2 in
  (forall file, is_Some (imageAnnotationMap R !! file) ->
                file ∈ datasetFiles /\ isImageFile toLowerCase file = true)
  /\ (forall file, file ∈ annotatedImageFiles R -> file ∈ datasetFiles)
  /\ (forall file assigned a,
        imageAnnotationMap R !! file = Some assigned -> a ∈ assigned ->
        a ∈ annotations)
  /\ (shouldExpandImageSelection (size uniqueImageIds) imageFiles = false ->
      forall file assigned a,
        imageAnnotationMap R !! file = Some assigned -> a ∈ assigned ->
        resolvedFile toLowerCase imageFiles a = Some file
        /\ (imageId a = file \/ toLowerCase (imageId a) = toLowerCase file)).
Proof.
  intros imageFiles R.
  assert (Himg : forall file, file ∈ imageFiles ->
            file ∈ datasetFiles /\ isImageFile toLowerCase file = true).
  { intros file. unfold imageFiles, imageFilesOf.
    rewrite !list_elem_of_In, filter_In. tauto. }
  assert (HR : within annotations imageFiles R).
  { subst R. unfold reconcile.
    destruct (shouldExpandImageSelection _ _).
    - simpl. destruct (fallbackAssign_within annotations (sort imageFiles))
        as [Hm Hl].
      split.
      + intros file assigned Hlook. destruct (Hm _ _ Hlook) as [Hin Ha].
        split; [|done]. by rewrite <- (sort_Permutation imageFiles).
      + intros file Hin. rewrite <- (sort_Permutation imageFiles). by apply Hl.
    - simpl.
      destruct (normalPath_spec toLowerCase imageFiles annotations)
        as [Hlist Hm].
      split.
      + intros file assigned Hlook. split.
        * destruct assigned as [|a assigned].
          -- rewrite Hm in Hlook. unfold assignedTo in Hlook.
             by destruct (filter _ annotations).
          -- destruct (normalPath_assigned toLowerCase imageFiles annotations
                         file (a :: assigned) a Hlook) as [_ Hres]; [by left|].
             by apply (resolvedFile_Some toLowerCase imageFiles) in Hres
               as [? _].
        * intros a Ha.
          by destruct (normalPath_assigned toLowerCase imageFiles annotations
                         file assigned a Hlook Ha).
      + intros file. rewrite Hlist, elem_of_firstAppearances, list_elem_of_omap.
        intros (a & _ & Hres).
        by apply (resolvedFile_Some toLowerCase imageFiles) in Hres as [? _]. }
  destruct HR as [Hm Hl].
  split; [|split; [|split]].
  - intros file [assigned Hlook]. apply Himg. by apply (Hm _ _ Hlook).
  - intros file Hin. by apply Himg, Hl.
  - intros file assigned a Hlook Ha. by apply (Hm _ _ Hlook).
  - intros Hnormal file assigned a Hlook Ha. subst R.
    unfold reconcile in Hlook. rewrite Hnormal in Hlook. simpl in Hlook.
    destruct (normalPath_assigned toLowerCase imageFiles annotations
                file assigned a Hlook Ha) as [_ Hres].
    split; [done|].
    by apply (resolvedFile_Some toLowerCase imageFiles) in Hres as (_ & _ & ?).
Qed.

(** C9 as the specification words it does not hold on the fallback path: with
    the image files [a.jpg] and [b.jpg] and one annotation whose imageId
    [zzz] is the name of no file, the annotation is exported under
    [a.jpg]. *)
Lemma unresolved_annotation_is_exported :
  annotationsByImage [annotationOn "1" "zzz"]
  = Done {["zzz" := [annotationOn "1" "zzz"]]}
  /\ imageAnnotationMap
       (reconcile ascii_toLowerCase
          (uniqueImageIds {["zzz" := [annotationOn "1" "zzz"]]})
          [annotationOn "1" "zzz"]
          (imageFilesOf ascii_toLowerCase ["a.jpg"; "b.jpg"])).2 !! "a.jpg"
     = Some [annotationOn "1" "zzz"]
  /\ existsb (matches ascii_toLowerCase (imageId (annotationOn "1" "zzz")))
             ["a.jpg"; "b.jpg"] = false.
Proof. vm_compute. repeat split. Qed.

(** ** Label conversion *)

Lemma yoloAnnotations_convertToYOLOFormat (classMapping : gmap string nat)
    (imageAnnotations : list Annotation) :
  yoloAnnotations classMapping imageAnnotations
  = convertToYOLOFormat imageAnnotations 640 640 classMapping.
Proof. reflexivity. Qed.

(** C4. A label line is the class id followed by
    [(x + width/2) / 640], [(y + height/2) / 640], [width / 640] and
    [height / 640], each printed with six decimals, one line per
    annotation joined by newlines. For the box
    [{x: 10, y: 20, width: 100, height: 50}] the line is
    ["<classIndex> 0.093750 0.070313 0.156250 0.078125"]: the second
    number is [45 / 640 = 0.0703125], which prints as [0.070313]. The
    class id is the index of the label's class, and 0 for a label that is
    found nowhere; a label that is no class but a name of
    [Object.prototype] prints as the text of that member. *)
Theorem label_line_format (classMapping : gmap string nat) :
  (forall imageAnnotations,
      yoloAnnotations classMapping imageAnnotations
      = join LF (map (fun ann => yoloLine 640 640 classMapping (data ann))
                     imageAnnotations))
  /\ (forall ann,
        yoloLine 640 640 classMapping ann
        = classIdText classMapping (label ann) +:+ " " +:+
          JSNumber.toFixed ((x ann + width ann / 2) / 640)%float 6 +:+ " " +:+
          JSNumber.toFixed ((y ann + height ann / 2) / 640)%float 6 +:+ " " +:+
          JSNumber.toFixed (width ann / 640)%float 6 +:+ " " +:+
          JSNumber.toFixed (height ann / 640)%float 6)
  /\ (forall name,
        yoloLine 640 640 classMapping
          {| x := 10; y := 20; width := 100; height := 50; label := name |}
        = classIdText classMapping name +:+
          " 0.093750 0.070313 0.156250 0.078125")
  /\ (forall name index,
        classMapping !! name = Some index ->
        classIdText classMapping name = pretty index)
  /\ (forall name,
        classMapping !! name = None -> name ∉ inheritedNames ->
        classIdText classMapping name = "0")
  /\ (forall name,
        classMapping !! name = None -> name ∈ inheritedNames ->
        classIdText classMapping name = inheritedText name).
Proof.
  split; [done | split; [done|]].
  split; [|unfold classIdText, plainGet; repeat split].
  - intros name. unfold yoloLine. cbn [x y width height label].
    apply (f_equal (String.app _)). vm_compute. reflexivity.
  - intros name index ->. done.
  - intros name -> Hord. by rewrite decide_False.
  - intros name -> Hin. by rewrite decide_True.
Qed.

(** C4 as the specification words it does not hold: with no class mapped the
    class index is 0, and the line produced for the box of the example
    is not the one the specification gives (its second number is
    [0.035156]). *)
Lemma label_example_differs :
  yoloLine 640 640 ∅ sampleBox = "0 0.093750 0.070313 0.156250 0.078125"
  /\ yoloLine 640 640 ∅ sampleBox <> "0 0.093750 0.035156 0.156250 0.078125".
Proof.
  assert (H : yoloLine 640 640 ∅ sampleBox
              = "0 0.093750 0.070313 0.156250 0.078125")
    by (vm_compute; reflexivity).
  split; [exact H|]. rewrite H. apply String.eqb_neq. vm_compute. reflexivity.
Qed.

(** ** The manifest *)

Lemma js_or_omitted (v d : JSValue) : js_or (omitted v) d = js_or v d.
Proof. unfold js_or, omitted. by destruct (ToBoolean v) eqn:E; [rewrite E|]. Qed.

Lemma createConfigYaml_omitFalsy (cfg : TrainingConfig)
    (classNames : list string) (datasetName : string) (timestamp : N) :
  createConfigYaml (omitFalsy cfg) classNames datasetName timestamp
  = createConfigYaml cfg classNames datasetName timestamp.
Proof.
  unfold createConfigYaml, omitFalsy. cbn [epochs batchSize imgSize
    learningRate modelType datasetSplitRatio].
  by rewrite !js_or_omitted.
Qed.

(** C10. A value that is falsy is replaced by the default just as a
    missing one is: the manifest of a configuration equals the manifest of
    the same configuration with its falsy fields left out; with
    [epochs = 0] it has the line [epochs: 100], and with [batchSize = 0]
    the line [batch_size: 16]. *)
Theorem falsy_config_values_take_defaults (cfg : TrainingConfig)
    (classNames : list string) (datasetName : string) (timestamp : N) :
  createConfigYaml cfg classNames datasetName timestamp
  = createConfigYaml (omitFalsy cfg) classNames datasetName timestamp
  /\ (ToBoolean (epochs cfg) = false ->
      exists rest,
        createConfigYaml cfg classNames datasetName timestamp
        = "epochs: 100" +:+ LF +:+ rest)
  /\ (ToBoolean (batchSize cfg) = false ->
      exists first rest,
        createConfigYaml cfg classNames datasetName timestamp
        = "epochs: " +:+ first +:+ LF +:+ "batch_size: 16" +:+ LF +:+ rest)
  /\ ToBoolean (JSNumber 0) = false
  /\ omitted (JSNumber 0) = JSUndefined.
Proof.
  split; [by rewrite createConfigYaml_omitFalsy|].
  assert (H100 : ToString (JSNumber 100) = "100") by (vm_compute; reflexivity).
  assert (H16 : ToString (JSNumber 16) = "16") by (vm_compute; reflexivity).
  split; [|split; [|split; vm_compute; reflexivity]].
  - intros Hfalsy. unfold createConfigYaml, js_or. rewrite Hfalsy, H100.
    eexists. reflexivity.
  - intros Hfalsy. unfold createConfigYaml.
    unfold js_or at 2. rewrite Hfalsy, H16.
    eexists _, _. reflexivity.
Qed.

(** ** The handler *)

Section HandlerRuns.
Variable toLowerCase : string -> string.
Variable w : World.

Lemma processImage_run (R : Reconciliation) (zip : Archive)
    (imageFile : string) (log : list Event) :
  processImage w (datasetPathOf w) (classMapping (annotationClassRows w)) R
    zip imageFile log
  = (Value (storeImage w R zip imageFile), log ++ imageEvents w imageFile).
Proof.
  unfold processImage, storeImage, readImage, imageEvents, try_catch,
    fs_access, fs_readFile, mbind, IO_bind, bind, emit, mret, IO_ret, ret,
    throw.
  destruct (access w _); [destruct (readFile w _)|];
    by rewrite <- ?app_assoc.
Qed.

Lemma for_of_processImage (R : Reconciliation) (files : list string) :
  forall (zip : Archive) (log : list Event),
    for_of files
      (processImage w (datasetPathOf w) (classMapping (annotationClassRows w)) R)
      zip log
    = (Value (foldl (storeImage w R) zip files),
       log ++ concat (imageEvents w <$> files)).
Proof.
  induction files as [|f files IH]; intros zip log; simpl.
  - unfold ret. by rewrite app_nil_r.
  - unfold mbind, IO_bind, bind. rewrite processImage_run, IH.
    by rewrite <- app_assoc.
Qed.

Lemma uploadDataset_run (formData : FormData) (log : list Event) :
  uploadDataset w formData log
  = (match fetch w (uploadUrl w) formData with
     | TransportFailure message => Thrown message
     | HttpResponse status text json =>
         if ok status then
           match json with
           | inl message => Thrown message
           | inr uploadResult =>
               if ToBoolean (success uploadResult) then Value uploadResult
               else Thrown "Worker upload failed: No success flag in response"
           end
         else
           Thrown ("Worker upload failed: " +:+ pretty status +:+ " - " +:+ text)
     end,
     log ++ [HttpPost (uploadUrl w) formData]).
Proof.
  unfold uploadDataset, uploadUrl, mbind, IO_bind, bind, emit, throw, mret,
    IO_ret, ret.
  destruct (fetch w _ formData) as [m|status text [m|u]]; try done;
    destruct (ok status); try done.
  by destruct (ToBoolean (success u)).
Qed.

(** A request that is let in, with annotations, a listing of the dataset
    directory and at least one annotated image file: the handler reads
    the images, posts the archive once and answers as the reply says. *)
Lemma start_dispatches (datasetFiles : list string) :
  accepted_request w ->
  annotationRows w <> [] ->
  ordinaryImageIds (annotationRows w) ->
  readdir w (datasetPathOf w) = Some datasetFiles ->
  let R := (reconcile toLowerCase (distinctImageIds (annotationRows w))
              (annotationRows w)
              (imageFilesOf toLowerCase datasetFiles)).2 in
  annotatedImageFiles R <> [] ->
  start toLowerCase w
  = (replyAnswer w R (fetch w (uploadUrl w) (formDataOf w R)),
     [FsReaddir (datasetPathOf w)]
       ++ concat (imageEvents w <$> annotatedImageFiles R)
       ++ [HttpPost (uploadUrl w) (formDataOf w R)]).
Proof.
  intros (Hval & Hproj & Hds) Hann Hord Hdir R Hfiles.
  destruct (annotationsByImage_Done _ Hord) as (grouped & Hgrouped & Hkeys).
  unfold start, startBody, try_catch.
  rewrite Hval, Hproj, Hds. cbn [length Nat.eqb negb].
  assert (Hlen : (length (annotationRows w) =? 0) = false).
  { apply Nat.eqb_neq. by destruct (annotationRows w). }
  rewrite Hlen, Hgrouped.
  unfold attempt, fs_readdir, mbind, IO_bind, bind, emit, mret, IO_ret, ret.
  rewrite Hkeys. fold (datasetPathOf w). rewrite Hdir.
  subst R.
  destruct (reconcile toLowerCase (distinctImageIds (annotationRows w))
              (annotationRows w)
              (imageFilesOf toLowerCase datasetFiles)) as [files' R] eqn:Hrec.
  simpl in Hfiles.
  assert (Hlen' : (length (annotatedImageFiles R) =? 0) = false).
  { apply Nat.eqb_neq. by destruct (annotatedImageFiles R). }
  rewrite Hlen'. simpl snd.
  rewrite for_of_processImage.
  rewrite uploadDataset_run.
  fold (archiveOf w R). 
  unfold formDataOf, archiveOf, replyAnswer, answer.
  destruct (fetch w _ _) as [m|status text [m|u]]; try done;
    destruct (ok status); try done.
  by destruct (ToBoolean (success u)).
Qed.

End HandlerRuns.

(** C5. A request that is let in and whose dataset has no annotation is
    answered with the no-annotations error (status 400), and the handler
    has then performed no I/O at all: the dataset directory has not been
    listed and no file has been read. *)
Theorem no_annotations_fails_before_io (toLowerCase : string -> string)
    (w : World) :
  accepted_request w ->
  annotationRows w = [] ->
  start toLowerCase w = (NoAnnotations, [])
  /\ statusCode (start toLowerCase w).1 = 400
  /\ errorText (start toLowerCase w).1
     = Some "No annotations found for this dataset".
Proof.
  intros (Hval & Hproj & Hds) Hrows.
  assert (H : start toLowerCase w = (NoAnnotations, [])).
  { unfold start, startBody, try_catch.
    by rewrite Hval, Hproj, Hds, Hrows. }
  by rewrite H.
Qed.

(** ** No image matched *)

Lemma fallback_grows (annotations : list Annotation)
    (sortedImageFiles : list string) (per : nat) (l : list nat) :
  forall acc,
    length (annotatedImageFiles acc)
    <= length (annotatedImageFiles
                 (foldl (fallbackStep annotations sortedImageFiles per) acc l)).
Proof.
  induction l as [|i l IH]; intros acc; [done|].
  simpl. etrans; [|apply IH].
  unfold fallbackStep. destruct (sortedImageFiles !! i); [|done].
  destruct (0 <? _); [|done]. simpl. rewrite length_app. lia.
Qed.

Lemma fallback_first (annotations : list Annotation)
    (sortedImageFiles : list string) (per count : nat) :
  0 < per -> 0 < count ->
  annotations <> [] -> sortedImageFiles <> [] ->
  annotatedImageFiles
    (foldl (fallbackStep annotations sortedImageFiles per)
           emptyReconciliation (seq 0 count)) <> [].
Proof.
  intros Hper Hcount Hann Hfiles.
  destruct count as [|count]; [lia|].
  destruct sortedImageFiles as [|f files]; [done|].
  change (seq 0 (S count)) with (0 :: seq 1 count).
  change (foldl ?g ?acc (0 :: ?l)) with (foldl g (g acc 0) l).
  rewrite (fallbackStep_chunk _ _ _ Hper _ 0 f) by done.
  rewrite decide_True by (destruct annotations; [done | simpl; lia]).
  intros Hnil.
  match goal with
  | H : annotatedImageFiles (foldl ?g ?acc ?l) = [] |- _ =>
      pose proof (fallback_grows annotations (f :: files) per l acc) as Hle
  end.
  rewrite Hnil in Hle. simpl in Hle. lia.
Qed.

(** With an annotation and a file at hand the fallback path always lists
    a file. *)
Lemma fallbackAssign_nonempty (annotations : list Annotation)
    (sortedImageFiles : list string) :
  annotations <> [] -> sortedImageFiles <> [] ->
  annotatedImageFiles (fallbackAssign annotations sortedImageFiles) <> [].
Proof.
  intros Hann Hfiles. unfold fallbackAssign.
  assert (Hn : 0 < length annotations) by (destruct annotations; [done | simpl; lia]).
  assert (Hf : 0 < length sortedImageFiles)
    by (destruct sortedImageFiles; [done | simpl; lia]).
  apply fallback_first; try done; [|lia].
  apply ceil_div_pos; lia.
Qed.

(** When nothing is listed the normal path was taken. *)
Lemma nothing_annotated_normal_path (toLowerCase : string -> string)
    (annotations : list Annotation) (imageFiles : list string) :
  annotations <> [] ->
  annotatedImageFiles
    (reconcile toLowerCase (distinctImageIds annotations) annotations
       imageFiles).2 = [] ->
  reconcile toLowerCase (distinctImageIds annotations) annotations imageFiles
  = (imageFiles, normalPath toLowerCase annotations imageFiles).
Proof.
  intros Hann. unfold reconcile.
  destruct (shouldExpandImageSelection _ _) eqn:Hexpand; [|done].
  simpl. intros Hnil. exfalso.
  apply (fallbackAssign_nonempty annotations (sort imageFiles)); try done.
  apply shouldExpandImageSelection_true in Hexpand.
  pose proof (distinctImageIds_nonempty annotations Hann).
  intros Hsort.
  assert (Hl : length (sort imageFiles) = length imageFiles)
    by (by rewrite sort_Permutation).
  rewrite Hsort in Hl. simpl in Hl. lia.
Qed.

(** The run of a request that is let in when nothing gets annotated. *)
Lemma start_nothing_annotated (toLowerCase : string -> string)
    (w : World) (datasetFiles : list string) :
  accepted_request w ->
  annotationRows w <> [] ->
  ordinaryImageIds (annotationRows w) ->
  readdir w (datasetPathOf w) = Some datasetFiles ->
  annotatedImageFiles
    (reconcile toLowerCase (distinctImageIds (annotationRows w))
       (annotationRows w)
       (imageFilesOf toLowerCase datasetFiles)).2 = [] ->
  start toLowerCase w
  = (NoMatchedImages (take 10 (imageFilesOf toLowerCase datasetFiles))
       (list_to_set (imageId <$> annotationRows w)),
     [FsReaddir (datasetPathOf w)]).
Proof.
  intros (Hval & Hproj & Hds) Hann Hord Hdir Hnil.
  pose proof (nothing_annotated_normal_path toLowerCase _ _ Hann Hnil) as Hrec.
  destruct (annotationsByImage_Done _ Hord) as (grouped & Hgrouped & Hkeys).
  unfold start, startBody, try_catch.
  rewrite Hval, Hproj, Hds. cbn [length Nat.eqb negb].
  assert (Hlen : (length (annotationRows w) =? 0) = false).
  { apply Nat.eqb_neq. by destruct (annotationRows w). }
  rewrite Hlen, Hgrouped.
  unfold attempt, fs_readdir, mbind, IO_bind, bind, emit, mret, IO_ret, ret.
  rewrite Hkeys. fold (datasetPathOf w). rewrite Hdir.
  rewrite Hrec in Hnil. rewrite Hrec. simpl in Hnil. rewrite Hnil.
  done.
Qed.

(** C6. When reconciliation leaves no image file with an annotation the
    handler answers with the no-matched-images error (status 400); its
    payload holds the first image files of the listing, ten at most, and
    the set of the imageIds of all annotations, none of which resolves to
    an image file. Reconciliation is reached when the grouping of the
    annotations returns: no imageId is a name inherited from
    [Object.prototype]. *)
Theorem no_matched_images_payload (toLowerCase : string -> string)
    (w : World) (datasetFiles : list string) :
  accepted_request w ->
  annotationRows w <> [] ->
  Forall (fun a => imageId a ∉ inheritedNames) (annotationRows w) ->
  readdir w (datasetPathOf w) = Some datasetFiles ->
  let imageFiles := imageFilesOf toLowerCase datasetFiles in
  let annotationImageIds : gset string :=
    list_to_set (imageId <$> annotationRows w) in
  annotatedImageFiles
    (reconcile toLowerCase annotationImageIds (annotationRows w) imageFiles).2
    = [] ->
  let availableImages := take 10 imageFiles in
  start toLowerCase w
  = (NoMatchedImages availableImages annotationImageIds,
     [FsReaddir (datasetPathOf w)])
  /\ statusCode (start toLowerCase w).1 = 400
  /\ length availableImages <= 10
  /\ availableImages `prefix_of` imageFiles
  /\ (forall a, a ∈ annotationRows w ->
                imageId a ∈ annotationImageIds
                /\ resolvedFile toLowerCase imageFiles a = None).
Proof.
  intros Hreq Hann Hord Hdir imageFiles annotationImageIds Hnil availableImages.
  change annotationImageIds with (distinctImageIds (annotationRows w)) in *.
  clear annotationImageIds.
  pose proof (nothing_annotated_normal_path toLowerCase _ _ Hann Hnil) as Hrec.
  pose proof (start_nothing_annotated toLowerCase w datasetFiles
                Hreq Hann Hord Hdir Hnil) as Hstart.
  fold imageFiles in Hstart.
  split; [exact Hstart|]. split; [by rewrite Hstart|].
  split; [subst availableImages; rewrite length_take; lia|].
  split; [apply prefix_take|].
  intros a Ha. split.
  - apply elem_of_list_to_set.
    apply list_elem_of_fmap. by exists a.
  - rewrite Hrec in Hnil. simpl in Hnil.
    destruct (normalPath_spec toLowerCase imageFiles (annotationRows w))
      as [Hl _].
    rewrite Hnil in Hl.
    destruct (resolvedFile toLowerCase imageFiles a) as [f|] eqn:Hres; [|done].
    assert (Hf : f ∈ firstAppearances
                   (omap (resolvedFile toLowerCase imageFiles) (annotationRows w))).
    { apply elem_of_firstAppearances, list_elem_of_omap. by exists a. }
    rewrite <- Hl in Hf. by apply not_elem_of_nil in Hf.
Qed.

(** ** Archive assembly *)

Section Assembly.
Variable w : World.
Variable R : Reconciliation.

Lemma storeImages_images (files : list string) (f : string) :
  forall zip,
    imagesFolder (foldl (storeImage w R) zip files) !! f
    = match (if decide (f ∈ files) then readImage w f else None) with
      | Some buffer => Some buffer
      | None => imagesFolder zip !! f
      end.
Proof.
  induction files as [|g files IH]; intros zip.
  - done.
  - simpl. rewrite IH. unfold storeImage.
    destruct (decide (f = g)) as [->|Hne].
    + rewrite (decide_True (P := g ∈ g :: files)) by left.
      destruct (decide (g ∈ files)); destruct (readImage w g); simpl;
        by rewrite ?lookup_insert_eq.
    + destruct (decide (f ∈ files)) as [Hin|Hnin].
      * rewrite decide_True by (by right).
        destruct (readImage w f); [done|].
        destruct (readImage w g); simpl; by rewrite ?lookup_insert_ne.
      * rewrite decide_False by (rewrite elem_of_cons; naive_solver).
        destruct (readImage w g); simpl; by rewrite ?lookup_insert_ne.
Qed.


End Assembly.

Lemma imageEvents_not_post (w : World) (files : list string) (ev : Event) :
  ev ∈ concat (imageEvents w <$> files) -> isHttpPost ev = false.
Proof.
  induction files as [|f files IH].
  - intros H. by apply not_elem_of_nil in H.
  - change (concat (imageEvents w <$> f :: files))
      with (imageEvents w f ++ concat (imageEvents w <$> files)).
    rewrite elem_of_app. intros [H|H]; [|by apply IH].
    unfold imageEvents in H. apply elem_of_cons in H as [->|H]; [done|].
    destruct (access w _); [|by apply not_elem_of_nil in H].
    by apply list_elem_of_singleton in H as ->.
Qed.



(** ** Dispatch *)

(** An imageId that is a name inherited from [Object.prototype] ends
    the run in the grouping, before any I/O. *)
Lemma start_inherited_imageId (toLowerCase : string -> string) (w : World) :
  accepted_request w ->
  annotationRows w <> [] ->
  ~ ordinaryImageIds (annotationRows w) ->
  start toLowerCase w = (InternalServerError, []).
Proof.
  intros (Hval & Hproj & Hds) Hann Hnot.
  unfold start, startBody, try_catch.
  rewrite Hval, Hproj, Hds. cbn [length Nat.eqb negb].
  assert (Hlen : (length (annotationRows w) =? 0) = false).
  { apply Nat.eqb_neq. by destruct (annotationRows w). }
  by rewrite Hlen, annotationsByImage_Raised.
Qed.

(** The eight ways a run of [POST /start] can go. *)
Lemma start_cases (toLowerCase : string -> string) (w : World) :
  (validationErrors w <> []
   /\ start toLowerCase w = (ValidationFailed (validationErrors w), []))
  \/ (validationErrors w = [] /\ project w = false
      /\ start toLowerCase w = (ProjectNotFound, []))
  \/ (validationErrors w = [] /\ project w = true /\ dataset w = false
      /\ start toLowerCase w = (DatasetNotFound, []))
  \/ (accepted_request w /\ annotationRows w = []
      /\ start toLowerCase w = (NoAnnotations, []))
  \/ (accepted_request w /\ annotationRows w <> []
      /\ ~ ordinaryImageIds (annotationRows w)
      /\ start toLowerCase w = (InternalServerError, []))
  \/ (accepted_request w /\ annotationRows w <> []
      /\ ordinaryImageIds (annotationRows w)
      /\ readdir w (datasetPathOf w) = None
      /\ start toLowerCase w
         = (InternalServerError, [FsReaddir (datasetPathOf w)]))
  \/ (exists datasetFiles,
        accepted_request w /\ annotationRows w <> []
        /\ ordinaryImageIds (annotationRows w)
        /\ readdir w (datasetPathOf w) = Some datasetFiles
        /\ annotatedImageFiles
             (reconcile toLowerCase (distinctImageIds (annotationRows w))
                (annotationRows w)
                (imageFilesOf toLowerCase datasetFiles)).2 = []
        /\ start toLowerCase w
           = (NoMatchedImages (take 10 (imageFilesOf toLowerCase datasetFiles))
                (list_to_set (imageId <$> annotationRows w)),
              [FsReaddir (datasetPathOf w)]))
  \/ (exists datasetFiles,
        accepted_request w /\ annotationRows w <> []
        /\ ordinaryImageIds (annotationRows w)
        /\ readdir w (datasetPathOf w) = Some datasetFiles
        /\ let R := (reconcile toLowerCase
                       (distinctImageIds (annotationRows w))
                       (annotationRows w)
                       (imageFilesOf toLowerCase datasetFiles)).2 in
           annotatedImageFiles R <> []
           /\ start toLowerCase w
              = (replyAnswer w R (fetch w (uploadUrl w) (formDataOf w R)),
                 [FsReaddir (datasetPathOf w)]
                   ++ concat (imageEvents w <$> annotatedImageFiles R)
                   ++ [HttpPost (uploadUrl w) (formDataOf w R)])).
Proof.
  destruct (validationErrors w) as [|e es] eqn:Hval; cycle 1.
  { left. split; [done|]. unfold start, startBody, try_catch.
    by rewrite Hval. }
  destruct (project w) eqn:Hproj; cycle 1.
  { right; left. repeat split. unfold start, startBody, try_catch.
    by rewrite Hval, Hproj. }
  destruct (dataset w) eqn:Hds; cycle 1.
  { right; right; left. repeat split. unfold start, startBody, try_catch.
    by rewrite Hval, Hproj, Hds. }
  assert (Hreq : accepted_request w) by done.
  destruct (decide (annotationRows w = [])) as [Hrows|Hrows].
  { do 3 right; left. repeat split; try done.
    unfold start, startBody, try_catch.
    by rewrite Hval, Hproj, Hds, Hrows. }
  destruct (decide (Forall (fun a => imageId a ∉ inheritedNames)
                           (annotationRows w))) as [Hord|Hnot]; cycle 1.
  { do 4 right; left. split; [done|]. split; [done|]. split; [done|].
    by apply start_inherited_imageId. }
  destruct (annotationsByImage_Done _ Hord) as (grouped & Hgrouped & Hkeys).
  destruct (readdir w (datasetPathOf w)) as [datasetFiles|] eqn:Hdir; cycle 1.
  { do 5 right; left. repeat split; try done.
    unfold start, startBody, try_catch.
    rewrite Hval, Hproj, Hds. cbn [length Nat.eqb negb].
    assert (Hlen : (length (annotationRows w) =? 0) = false).
    { apply Nat.eqb_neq. by destruct (annotationRows w). }
    rewrite Hlen, Hgrouped.
    unfold attempt, fs_readdir, mbind, IO_bind, bind, emit, throw, ret.
    fold (datasetPathOf w). by rewrite Hdir. }
  destruct (decide (annotatedImageFiles
                      (reconcile toLowerCase
                         (distinctImageIds (annotationRows w))
                         (annotationRows w)
                         (imageFilesOf toLowerCase datasetFiles)).2 = []))
    as [Hnil|Hsome].
  - do 6 right; left. exists datasetFiles. repeat split; try done.
    by apply start_nothing_annotated.
  - do 7 right. exists datasetFiles. repeat split; try done.
    by apply start_dispatches.
Qed.

(** The worker is called only at the end of a run that got that far. *)
Lemma start_posts (toLowerCase : string -> string) (w : World)
    (url : string) (formData : FormData) :
  HttpPost url formData ∈ (start toLowerCase w).2 ->
  exists R,
    start toLowerCase w
    = (replyAnswer w R (fetch w (uploadUrl w) (formDataOf w R)),
       [FsReaddir (datasetPathOf w)]
         ++ concat (imageEvents w <$> annotatedImageFiles R)
         ++ [HttpPost (uploadUrl w) (formDataOf w R)])
    /\ url = uploadUrl w /\ formData = formDataOf w R.
Proof.
  intros Hpost.
  destruct (start_cases toLowerCase w)
    as [[_ H]|[(_ & _ & H)|[(_ & _ & _ & H)|[(_ & _ & H)|[(_ & _ & _ & H)|
        [(_ & _ & _ & _ & H)|[(fs & _ & _ & _ & _ & _ & H)|
        (fs & _ & _ & _ & _ & R & H)]]]]]]];
    rewrite H in Hpost; simpl in Hpost.
  1-5: by apply not_elem_of_nil in Hpost.
  1-2: by apply list_elem_of_singleton in Hpost.
  eexists. split; [exact H|].
  apply elem_of_cons in Hpost as [Hpost|Hpost]; [done|].
  apply elem_of_app in Hpost as [Hpost|Hpost].
  - apply imageEvents_not_post in Hpost. done.
  - apply list_elem_of_singleton in Hpost. by injection Hpost.
Qed.

(** C8. Dispatch succeeds only on a reply with a success
    status whose body parses and carries a truthy success flag. A reply
    with another status fails the export with the upload error whose
    details hold the worker's status code and body; a transport failure,
    a body that does not parse, and a body without the flag fail it with
    the upload error whose details are the message of the error raised
    (for the missing flag a fixed text, without status code or body). In
    none of these cases is a success answered, and the worker is called
    once. *)
Theorem dispatch_needs_success_flag (toLowerCase : string -> string)
    (w : World) (url : string) (formData : FormData) :
  HttpPost url formData ∈ (start toLowerCase w).2 ->
  let sent := (start toLowerCase w).1 in
  match fetch w url formData with
  | TransportFailure message => sent = UploadFailed message
  | HttpResponse status text json =>
      if ok status then
        match json with
        | inl message => sent = UploadFailed message
        | inr uploadResult =>
            if ToBoolean (success uploadResult)
            then exists body,
                sent = Uploaded body
                /\ objectName body = resultFileName uploadResult
                /\ downloadUrl body = presignedUrl uploadResult
            else sent = UploadFailed
                          "Worker upload failed: No success flag in response"
        end
      else
        sent = UploadFailed
                 ("Worker upload failed: " +:+ pretty status +:+ " - " +:+ text)
  end
  /\ ((exists body, sent = Uploaded body)
      <-> exists status text uploadResult,
          fetch w url formData = HttpResponse status text (inr uploadResult)
          /\ ok status = true /\ ToBoolean (success uploadResult) = true)
  /\ ((forall body, sent <> Uploaded body) ->
      exists details, sent = UploadFailed details /\ statusCode sent = 500)
  /\ length (filter (fun ev => isHttpPost ev = true) (start toLowerCase w).2) = 1.
Proof.
  intros Hpost sent.
  destruct (start_posts toLowerCase w url formData Hpost)
    as (R & Hstart & -> & ->).
  subst sent. rewrite Hstart. simpl fst. simpl snd.
  split; [|split; [|split]].
  - unfold replyAnswer.
    destruct (fetch w _ _) as [m|status text [m|u]]; try done;
      destruct (ok status); try done.
    destruct (ToBoolean (success u)); [|done]. by eexists.
  - unfold replyAnswer.
    destruct (fetch w _ _) as [m|status text [m|u]];
      try (split; [intros [? ?]; done | intros (? & ? & ? & ? & ? & ?); done]).
    + destruct (ok status);
        (split; [intros [? ?]; done | intros (? & ? & ? & ? & ? & ?); done]).
    + destruct (ok status) eqn:Hok; cycle 1.
      { split; [intros [? ?]; done|].
        intros (? & ? & ? & [= -> -> ->] & ? & ?). congruence. }
      destruct (ToBoolean (success u)) eqn:Hflag.
      * split; [|by eexists]. intros _. by exists status, text, u.
      * split; [intros [? ?]; done|].
        intros (? & ? & ? & [= -> -> ->] & ? & ?). congruence.
  - unfold replyAnswer.
    destruct (fetch w _ _) as [m|status text [m|u]]; intros Hfail;
      try (by eexists); destruct (ok status); try (by eexists).
    destruct (ToBoolean (success u)); [|by eexists].
    exfalso. by eapply Hfail.
  - rewrite filter_cons, decide_False by done.
    rewrite filter_app.
    assert (Hnone : filter (fun ev => isHttpPost ev = true)
                      (concat (imageEvents w <$> annotatedImageFiles R)) = []).
    { destruct (filter _ (concat _)) as [|ev evs] eqn:Hfilter; [done|].
      assert (Hev : ev ∈ filter (fun ev => isHttpPost ev = true)
                       (concat (imageEvents w <$> annotatedImageFiles R)))
        by (rewrite Hfilter; left).
      apply list_elem_of_filter in Hev as [Hp Hin].
      apply imageEvents_not_post in Hin. congruence. }
    rewrite Hnone. done.
Qed.

(** C8 as the specification words it does not hold for a reply with status 200
    and no success flag: the export does fail with the upload error, but
    its details are a fixed text that holds neither the worker's status
    code nor its body. *)
Lemma flagless_reply_details :
  (start ascii_toLowerCase (sampleWorld true flaglessReply)).1
  = UploadFailed "Worker upload failed: No success flag in response"
  /\ includes "Worker upload failed: No success flag in response" "200" = false
  /\ includes "Worker upload failed: No success flag in response" "{}" = false.
Proof. split; [|split]; vm_compute; reflexivity. Qed.

(** ** The statements at sample inputs *)

Lemma fallback_iff_sparse_witness :
  Forall (fun a => imageId a ∉ inheritedNames) tenOnOne
  /\ size (list_to_set (imageId <$> tenOnOne) : gset string) = 1
  /\ length ["a.jpg"; "b.jpg"] = 2
  /\ exists grouped,
       annotationsByImage tenOnOne = Done grouped
       /\ reconcile ascii_toLowerCase (uniqueImageIds grouped) tenOnOne
            ["a.jpg"; "b.jpg"]
          = (sort ["a.jpg"; "b.jpg"],
             fallbackAssign tenOnOne (sort ["a.jpg"; "b.jpg"])).
Proof.
  assert (H0 : Forall (fun a => imageId a ∉ inheritedNames) tenOnOne)
    by compute_done.
  assert (H1 : size (list_to_set (imageId <$> tenOnOne) : gset string) = 1)
    by (vm_compute; reflexivity).
  split; [exact H0|]. split; [exact H1|]. split; [reflexivity|].
  destruct (fallback_iff_sparse ascii_toLowerCase tenOnOne ["a.jpg"; "b.jpg"]
              H0) as (grouped & Hgrouped & _ & _ & _ & H).
  exists grouped. split; [exact Hgrouped|].
  apply H; [exact H1 | reflexivity].
Defined.

Lemma fallback_path_chunks_witness :
  shouldExpandImageSelection
    (size (list_to_set (imageId <$> sparseAnnotations) : gset string))
    fourFiles = true
  /\ NoDup fourFiles
  /\ annotatedImageFiles
       (reconcile ascii_toLowerCase
          (list_to_set (imageId <$> sparseAnnotations))
          sparseAnnotations fourFiles).2
     = ["a.jpg"; "b.jpg"; "c.jpg"].
Proof.
  assert (H1 : shouldExpandImageSelection
                 (size (list_to_set (imageId <$> sparseAnnotations)
                        : gset string)) fourFiles = true)
    by (vm_compute; reflexivity).
  assert (H2 : NoDup fourFiles) by compute_done.
  split; [exact H1|]. split; [exact H2|].
  destruct (fallback_path_chunks ascii_toLowerCase sparseAnnotations fourFiles
              H1 H2) as (_ & _ & _ & _ & _ & _ & H & _).
  rewrite H. vm_compute. reflexivity.
Defined.

Lemma falsy_config_values_take_defaults_witness :
  ToBoolean (epochs (trainingConfig (sampleWorld true successReply))) = false
  /\ exists rest,
       createConfigYaml (trainingConfig (sampleWorld true successReply))
         ["cat"] "cats" 1700000000000
       = "epochs: 100" +:+ LF +:+ rest.
Proof.
  assert (H1 : ToBoolean (epochs (trainingConfig
                 (sampleWorld true successReply))) = false)
    by (vm_compute; reflexivity).
  split; [exact H1|].
  destruct (falsy_config_values_take_defaults
              (trainingConfig (sampleWorld true successReply))
              ["cat"] "cats" 1700000000000) as (_ & H & _).
  exact (H H1).
Defined.

Lemma no_annotations_fails_before_io_witness :
  let w :=
    {| validationErrors := []; projectId := "p1"; datasetId := "d1";
       datasetName := "cats";
       trainingConfig := trainingConfig (sampleWorld true successReply);
       userId := "u1"; project := true; dataset := true;
       annotationRows := []; annotationClassRows := [];
       now := 1700000000000; cwd := "/app";
       WORKER_URL := JSString "https://worker.example";
       readdir := fun _ => Some ["a.jpg"]; access := fun _ => true;
       readFile := fun _ => Some []; fetch := fun _ _ => successReply |} in
  accepted_request w /\ annotationRows w = []
  /\ start ascii_toLowerCase w = (NoAnnotations, []).
Proof.
  intros w.
  assert (H1 : accepted_request w) by (repeat split; reflexivity).
  assert (H2 : annotationRows w = []) by reflexivity.
  split; [exact H1|]. split; [exact H2|].
  destruct (no_annotations_fails_before_io ascii_toLowerCase w H1 H2)
    as [H _].
  exact H.
Defined.

Lemma no_matched_images_payload_witness :
  let w :=
    {| validationErrors := []; projectId := "p1"; datasetId := "d1";
       datasetName := "cats";
       trainingConfig := trainingConfig (sampleWorld true successReply);
       userId := "u1"; project := true; dataset := true;
       annotationRows := [annotationOn "1" "dog.png"];
       annotationClassRows := [];
       now := 1700000000000; cwd := "/app";
       WORKER_URL := JSString "https://worker.example";
       readdir := fun _ => Some ["a.jpg"; "notes.txt"];
       access := fun _ => true;
       readFile := fun _ => Some []; fetch := fun _ _ => successReply |} in
  accepted_request w /\ annotationRows w <> []
  /\ Forall (fun a => imageId a ∉ inheritedNames) (annotationRows w)
  /\ readdir w (datasetPathOf w) = Some ["a.jpg"; "notes.txt"]
  /\ annotatedImageFiles
       (reconcile ascii_toLowerCase
          (list_to_set (imageId <$> annotationRows w)) (annotationRows w)
          (imageFilesOf ascii_toLowerCase ["a.jpg"; "notes.txt"])).2 = []
  /\ start ascii_toLowerCase w
     = (NoMatchedImages ["a.jpg"] {["dog.png"]},
        [FsReaddir "/app/uploads/datasets/d1"]).
Proof.
  intros w.
  assert (H1 : accepted_request w) by (repeat split; reflexivity).
  assert (H2 : annotationRows w <> []) by discriminate.
  assert (H0 : Forall (fun a => imageId a ∉ inheritedNames) (annotationRows w))
    by compute_done.
  assert (H3 : readdir w (datasetPathOf w) = Some ["a.jpg"; "notes.txt"])
    by reflexivity.
  assert (H4 : annotatedImageFiles
       (reconcile ascii_toLowerCase
          (list_to_set (imageId <$> annotationRows w)) (annotationRows w)
          (imageFilesOf ascii_toLowerCase ["a.jpg"; "notes.txt"])).2 = [])
    by (vm_compute; reflexivity).
  repeat (split; [assumption|]).
  destruct (no_matched_images_payload ascii_toLowerCase w
              ["a.jpg"; "notes.txt"] H1 H2 H0 H3 H4) as [H _].
  rewrite H. vm_compute. reflexivity.
Defined.


Lemma dispatch_needs_success_flag_witness :
  let w := sampleWorld true flaglessReply in
  HttpPost (uploadUrl w)
    (formDataOf w (reconcile ascii_toLowerCase
                     (list_to_set (imageId <$> annotationRows w))
                     (annotationRows w)
                     (imageFilesOf ascii_toLowerCase ["a.jpg"])).2)
    ∈ (start ascii_toLowerCase w).2
  /\ (start ascii_toLowerCase w).1
     = UploadFailed "Worker upload failed: No success flag in response".
Proof.
  intros w.
  assert (H1 : HttpPost (uploadUrl w)
    (formDataOf w (reconcile ascii_toLowerCase
                     (list_to_set (imageId <$> annotationRows w))
                     (annotationRows w)
                     (imageFilesOf ascii_toLowerCase ["a.jpg"])).2)
    ∈ (start ascii_toLowerCase w).2).
  { apply list_elem_of_In. vm_compute. right. right. right. left. reflexivity. }
  split; [exact H1|].
  destruct (dispatch_needs_success_flag ascii_toLowerCase w _ _ H1) as [H _].
  exact H.
Defined.

(** * Further properties of the export handler *)

(** ** Every run of the handler *)

(** X1. A request that fails validation, or whose project or dataset is
    not found for the user, is answered 400, 404, 404, in that order of
    checks. The handler performs I/O only for a request that passed the
    three checks and has annotations, and its first I/O is then the
    listing of [<cwd>/uploads/datasets/<datasetId>]. *)
Theorem start_io_needs_accepted_request (toLowerCase : string -> string)
    (w : World) :
  (validationErrors w <> [] ->
   start toLowerCase w = (ValidationFailed (validationErrors w), []))
  /\ (validationErrors w = [] -> project w = false ->
      start toLowerCase w = (ProjectNotFound, []))
  /\ (validationErrors w = [] -> project w = true -> dataset w = false ->
      start toLowerCase w = (DatasetNotFound, []))
  /\ ((start toLowerCase w).2 <> [] ->
      accepted_request w /\ annotationRows w <> []
      /\ exists rest,
           (start toLowerCase w).2 = FsReaddir (datasetPathOf w) :: rest).
Proof.
  destruct (start_cases toLowerCase w)
    as [(Hv & ->)|[(Hv & Hp & ->)|[(Hv & Hp & Hd & ->)|[(Hr & Ha & ->)|
        [(Hr & Ha & Hno & ->)|[(Hr & Ha & Ho & Hdir & ->)|
        [(fs & Hr & Ha & Ho & Hdir & Hnil & ->)|
         (fs & Hr & Ha & Ho & Hdir & Hsome & ->)]]]]]]];
    try destruct Hr as (Hv & Hp & Hd);
    repeat split; try done; try congruence; try by eexists.
Qed.

(** X2. When the dataset directory cannot be listed, a request whose
    annotations were grouped (no imageId is a name inherited from
    [Object.prototype]) is answered 500 "Internal server error"; only the
    listing was tried, no file is read and nothing is posted. *)
Theorem start_listing_failure (toLowerCase : string -> string) (w : World) :
  accepted_request w ->
  annotationRows w <> [] ->
  Forall (fun a => imageId a ∉ inheritedNames) (annotationRows w) ->
  readdir w (datasetPathOf w) = None ->
  start toLowerCase w = (InternalServerError, [FsReaddir (datasetPathOf w)])
  /\ statusCode (start toLowerCase w).1 = 500
  /\ errorText (start toLowerCase w).1 = Some "Internal server error".
Proof.
  intros Hreq Hrows Hord Hdir.
  destruct (start_cases toLowerCase w)
    as [(Hv & H)|[(Hv & Hp & H)|[(Hv & Hp & Hd & H)|[(Hr & Ha & H)|
        [(Hr & Ha & Hno & H)|[(Hr & Ha & Ho & Hdir' & H)|
        [(fs & Hr & Ha & Ho & Hdir' & Hnil & H)|
         (fs & Hr & Ha & Ho & Hdir' & Hsome & H)]]]]]]];
    destruct Hreq as (Hv' & Hp' & Hd'); try congruence; try done.
  by rewrite H.
Qed.

(** What reconciliation returns stays within its inputs, on either path. *)
Lemma reconcile_within (toLowerCase : string -> string)
    (uniqueImageIds : gset string) (annotations : list Annotation)
    (imageFiles : list string) :
  within annotations imageFiles
         (reconcile toLowerCase uniqueImageIds annotations imageFiles).2.
Proof.
  unfold reconcile. destruct (shouldExpandImageSelection _ _); simpl.
  - destruct (fallbackAssign_within annotations (sort imageFiles)) as [Hm Hl].
    split.
    + intros f assigned Hlook. destruct (Hm _ _ Hlook) as [Hin Ha].
      split; [|done]. by rewrite <- (sort_Permutation imageFiles).
    + intros f Hin. rewrite <- (sort_Permutation imageFiles). by apply Hl.
  - destruct (normalPath_spec toLowerCase imageFiles annotations)
      as [Hlist Hm].
    split.
    + intros f assigned Hlook. split.
      * destruct assigned as [|a assigned].
        -- rewrite Hm in Hlook. unfold assignedTo in Hlook.
           by destruct (filter _ annotations).
        -- destruct (normalPath_assigned toLowerCase imageFiles annotations
                       f (a :: assigned) a Hlook) as [_ Hres]; [by left|].
           by apply (resolvedFile_Some toLowerCase imageFiles) in Hres
             as [? _].
      * intros a Ha.
        by destruct (normalPath_assigned toLowerCase imageFiles annotations
                       f assigned a Hlook Ha).
    + intros f. rewrite Hlist, elem_of_firstAppearances, list_elem_of_omap.
      intros (a & _ & Hres).
      by apply (resolvedFile_Some toLowerCase imageFiles) in Hres as [? _].
Qed.

Lemma elem_of_imageEvents (w : World) (files : list string) (ev : Event) :
  ev ∈ concat (imageEvents w <$> files) ->
  exists f, f ∈ files
    /\ (ev = FsAccess (path_join (datasetPathOf w) f)
        \/ (ev = FsReadFile (path_join (datasetPathOf w) f)
            /\ access w (path_join (datasetPathOf w) f) = true)).
Proof.
  induction files as [|f files IH].
  - intros H. by apply not_elem_of_nil in H.
  - change (concat (imageEvents w <$> f :: files))
      with (imageEvents w f ++ concat (imageEvents w <$> files)).
    rewrite elem_of_app. intros [H|H].
    + exists f. split; [left|]. unfold imageEvents in H.
      apply elem_of_cons in H as [->|H]; [by left|].
      destruct (access w _) eqn:Hacc; [|by apply not_elem_of_nil in H].
      apply list_elem_of_singleton in H as ->. by right.
    + destruct (IH H) as (g & Hg & Hev). exists g. split; [by right|done].
Qed.

(** X3. The handler stays inside the dataset directory: every file it
    probes or reads is [<dataset directory>/<name>] for a name of the
    directory listing that has an image extension, whatever the imageIds
    of the annotations are; and it reads a file only after the probe of
    that file succeeded. *)
Theorem start_reads_only_listed_images (toLowerCase : string -> string)
    (w : World) (path : string) :
  FsAccess path ∈ (start toLowerCase w).2
  \/ FsReadFile path ∈ (start toLowerCase w).2 ->
  exists datasetFiles name,
    readdir w (datasetPathOf w) = Some datasetFiles
    /\ name ∈ datasetFiles
    /\ isImageFile toLowerCase name = true
    /\ path = path_join (datasetPathOf w) name
    /\ (FsReadFile path ∈ (start toLowerCase w).2 -> access w path = true).
Proof.
  intros Hev.
  destruct (start_cases toLowerCase w)
    as [(Hv & H)|[(Hv & Hp & H)|[(Hv & Hp & Hd & H)|[(Hr & Ha & H)|
        [(Hr & Ha & Hno & H)|[(Hr & Ha & Ho & Hdir & H)|
        [(fs & Hr & Ha & Ho & Hdir & Hnil & H)|
         (fs & Hr & Ha & Ho & Hdir & Hsome & H)]]]]]]];
    rewrite H in *; simpl in Hev.
  1-5: by destruct Hev as [Hev|Hev]; apply not_elem_of_nil in Hev.
  1-2: by destruct Hev as [Hev|Hev]; apply list_elem_of_singleton in Hev.
  set (R := (reconcile toLowerCase (distinctImageIds (annotationRows w))
               (annotationRows w) (imageFilesOf toLowerCase fs)).2) in *.
  assert (Hin : forall ev,
            (ev = FsAccess path \/ ev = FsReadFile path) ->
            ev ∈ FsReaddir (datasetPathOf w)
                 :: concat (imageEvents w <$> annotatedImageFiles R)
                 ++ [HttpPost (uploadUrl w) (formDataOf w R)] ->
            ev ∈ concat (imageEvents w <$> annotatedImageFiles R)).
  { intros ev Hkind Hmem.
    apply elem_of_cons in Hmem as [->|Hmem]; [by destruct Hkind|].
    apply elem_of_app in Hmem as [Hmem|Hmem]; [done|].
    apply list_elem_of_singleton in Hmem as ->. by destruct Hkind. }
  assert (Hname : exists name,
            name ∈ annotatedImageFiles R
            /\ path = path_join (datasetPathOf w) name).
  { destruct Hev as [Hev|Hev].
    - apply Hin in Hev; [|by left].
      apply elem_of_imageEvents in Hev as (f & Hf & [[= ->]|[[=] _]]).
      by exists f.
    - apply Hin in Hev; [|by right].
      apply elem_of_imageEvents in Hev as (f & Hf & [[=]|[[= ->] _]]).
      by exists f. }
  destruct Hname as (name & Hname & ->).
  destruct (reconcile_within toLowerCase
              (distinctImageIds (annotationRows w)) (annotationRows w)
              (imageFilesOf toLowerCase fs)) as [_ Hlist].
  apply Hlist in Hname.
  unfold imageFilesOf in Hname.
  apply list_elem_of_In, filter_In in Hname as [Hname Himg].
  exists fs, name. repeat split; try done; [by apply list_elem_of_In|].
  simpl. intros Hread. apply Hin in Hread; [|by right].
  apply elem_of_imageEvents in Hread as (f & Hf & [[=]|[[= Heq] Hacc]]).
  by rewrite Heq.
Qed.




(** ** The map and the list of annotated files *)

Lemma normalStep_inStep (toLowerCase : string -> string)
    (imageFiles : list string) (acc : Reconciliation) (a : Annotation) :
  inStep acc -> inStep (normalStep toLowerCase imageFiles acc a).
Proof.
  intros [Hdom Hne]. rewrite normalStep_resolved.
  destruct (resolvedFile _ _ a) as [f|]; [|done].
  destruct (imageAnnotationMap acc !! f) as [group|] eqn:Hf; split; simpl.
  - rewrite dom_insert_L, Hdom.
    assert (f ∈ dom (imageAnnotationMap acc))
      by (apply elem_of_dom; by eexists).
    set_solver.
  - intros g grp. destruct (decide (g = f)) as [->|Hgf].
    + rewrite lookup_insert_eq. intros [= <-]. by destruct group.
    + rewrite lookup_insert_ne by done. apply Hne.
  - rewrite dom_insert_L, Hdom, list_to_set_app_L. set_solver.
  - intros g grp. destruct (decide (g = f)) as [->|Hgf].
    + rewrite lookup_insert_eq. by intros [= <-].
    + rewrite lookup_insert_ne by done. apply Hne.
Qed.

Lemma fallbackStep_inStep (annotations : list Annotation)
    (sortedImageFiles : list string) (per : nat) (acc : Reconciliation)
    (i : nat) :
  inStep acc -> inStep (fallbackStep annotations sortedImageFiles per acc i).
Proof.
  intros [Hdom Hne]. unfold fallbackStep.
  destruct (sortedImageFiles !! i) as [f|]; [|done].
  destruct (0 <? length _) eqn:Hlen; [|done].
  apply Nat.ltb_lt in Hlen. split; simpl.
  - rewrite dom_insert_L, Hdom, list_to_set_app_L. set_solver.
  - intros g grp. destruct (decide (g = f)) as [->|Hgf].
    + rewrite lookup_insert_eq. intros [= <-].
      intros Hnil. rewrite Hnil in Hlen. simpl in Hlen. lia.
    + rewrite lookup_insert_ne by done. apply Hne.
Qed.

Lemma foldl_invariant {A B} (P : A -> Prop) (f : A -> B -> A) (l : list B) :
  (forall acc b, P acc -> P (f acc b)) ->
  forall acc, P acc -> P (foldl f acc l).
Proof.
  intros Hstep. induction l as [|b l IH]; intros acc Hacc; [done|].
  simpl. by apply IH, Hstep.
Qed.

Lemma reconcile_inStep (toLowerCase : string -> string)
    (uniqueImageIds : gset string) (annotations : list Annotation)
    (imageFiles : list string) :
  inStep (reconcile toLowerCase uniqueImageIds annotations imageFiles).2.
Proof.
  unfold reconcile.
  assert (H0 : inStep emptyReconciliation).
  { split; simpl; [set_solver|]. intros f group. by rewrite lookup_empty. }
  destruct (shouldExpandImageSelection _ _); simpl.
  - unfold fallbackAssign.
    apply foldl_invariant; [|done]. intros acc i.
    apply fallbackStep_inStep.
  - unfold normalPath.
    apply foldl_invariant; [|done]. intros acc a.
    apply normalStep_inStep.
Qed.

Lemma inStep_group (R : Reconciliation) (f : string) :
  inStep R -> f ∈ annotatedImageFiles R ->
  exists group, imageAnnotationMap R !! f = Some group /\ group <> [].
Proof.
  intros [Hdom Hne] Hf.
  assert (Hsome : is_Some (imageAnnotationMap R !! f)).
  { rewrite <- elem_of_dom, Hdom. set_solver. }
  destruct Hsome as [group Hgroup].
  exists group. split; [done|]. by apply (Hne f).
Qed.

(** X5. On either path the handler keeps its two structures in step: a
    file is listed in [annotatedImageFiles] exactly when it is a key of
    [imageAnnotationMap], and the group under a key is never empty, so
    the loop over the listed files finds annotations for each of them. *)
Theorem reconciliation_in_step (toLowerCase : string -> string)
    (uniqueImageIds : gset string) (annotations : list Annotation)
    (imageFiles : list string) :
  let R := (reconcile toLowerCase uniqueImageIds annotations imageFiles).2 in
  (forall f, f ∈ annotatedImageFiles R <-> is_Some (imageAnnotationMap R !! f))
  /\ (forall f, f ∈ annotatedImageFiles R ->
        exists group, imageAnnotationMap R !! f = Some group /\ group <> []).
Proof.
  intros R.
  assert (HR : inStep R) by apply reconcile_inStep.
  destruct HR as [Hdom Hne].
  assert (Hiff : forall f,
            f ∈ annotatedImageFiles R <-> is_Some (imageAnnotationMap R !! f)).
  { intros f. rewrite <- elem_of_dom, Hdom. set_solver. }
  split; [exact Hiff|].
  intros f Hf. apply Hiff in Hf as [group Hgroup].
  exists group. split; [done|]. by apply (Hne f).
Qed.

(** Grouping a list by a key, one group per key, rearranges the list. *)
Lemma group_by_Permutation {A K} `{EqDecision K} (key : A -> K)
    (keys : list K) :
  NoDup keys ->
  forall l : list A,
    (forall a, a ∈ l -> key a ∈ keys) ->
    concat ((fun k => filter (fun a => key a = k) l) <$> keys) ≡ₚ l.
Proof.
  induction 1 as [|k keys Hk Hnodup IH]; intros l Hl.
  - destruct l as [|a l]; [done|].
    exfalso. by apply (not_elem_of_nil (key a)), Hl; left.
  - simpl.
    etrans; [|apply (filter_app_complement (fun a => key a = k) l)].
    apply Permutation_app; [done|].
    rewrite <- (IH (filter (fun a => key a <> k) l)).
    + apply reflexive_eq. f_equal.
      apply list_fmap_ext. intros i k' Hk'.
      apply list_elem_of_lookup_2 in Hk'.
      rewrite list_filter_filter. apply list_filter_iff.
      intros a. split; [|tauto]. intros ->. split; [done|].
      intros ->. done.
    + intros a Ha. apply list_elem_of_filter in Ha as [Hne Ha].
      apply Hl in Ha. apply elem_of_cons in Ha as [|]; done.
Qed.

(** X6. On the normal path nothing is lost and nothing is doubled: the
    groups of the annotated files, laid end to end, are a rearrangement
    of exactly the annotations whose imageId resolves to an image file. *)
Theorem normal_path_exports_resolved_once (toLowerCase : string -> string)
    (annotations : list Annotation) (imageFiles : list string) :
  exported (normalPath toLowerCase annotations imageFiles)
  ≡ₚ filter (fun a => is_Some (resolvedFile toLowerCase imageFiles a))
            annotations
  /\ length (exported (normalPath toLowerCase annotations imageFiles))
     <= length annotations.
Proof.
  set (resolved := resolvedFile toLowerCase imageFiles).
  set (kept := filter (fun a => is_Some (resolved a)) annotations).
  destruct (normalPath_spec toLowerCase imageFiles annotations) as [Hl Hm].
  fold resolved in Hl.
  assert (Hperm : exported (normalPath toLowerCase annotations imageFiles)
                  ≡ₚ kept).
  { unfold exported. rewrite Hl.
    rewrite <- (group_by_Permutation resolved
                  (Some <$> firstAppearances (omap resolved annotations))
                  (NoDup_fmap_2 _ _ (firstAppearances_NoDup _)) kept).
    - apply reflexive_eq. rewrite <- list_fmap_compose. f_equal.
      apply list_fmap_ext. intros i f _. simpl.
      rewrite Hm. unfold assignedTo. fold resolved.
      assert (Heq : filter (fun a => resolved a = Some f) kept
                    = filter (fun a => resolved a = Some f) annotations).
      { unfold kept. rewrite list_filter_filter. apply list_filter_iff.
        intros a. split; [tauto|]. intros Ha. split; [done|].
        rewrite Ha. by eexists. }
      rewrite Heq.
      by destruct (filter (fun a => resolved a = Some f) annotations).
    - intros a Ha. apply list_elem_of_filter in Ha as [[f Hf] Ha].
      rewrite Hf. apply list_elem_of_fmap. exists f. split; [done|].
      apply elem_of_firstAppearances, list_elem_of_omap. by exists a. }
  split; [exact Hperm|].
  rewrite Hperm. unfold kept. apply length_filter.
Qed.

(** ** The class mapping *)

Lemma plainSet_lookup_ne (acc : gmap string nat) (key n : string)
    (index : nat) :
  n <> key -> plainSet acc key index !! n = acc !! n.
Proof.
  intros Hne. unfold plainSet. destruct (String.eqb key "__proto__"); [done|].
  by apply lookup_insert_ne.
Qed.

Lemma plainSet_lookup_eq (acc : gmap string nat) (key : string) (index : nat) :
  key <> "__proto__" -> plainSet acc key index !! key = Some index.
Proof.
  intros Hne. unfold plainSet.
  destruct (String.eqb_spec key "__proto__"); [done|].
  apply lookup_insert_eq.
Qed.

Lemma classMapping_from_other (classes : list AnnotationClass) (n : string) :
  forall index acc,
    n ∉ name <$> classes ->
    classMapping_from index acc classes !! n = acc !! n.
Proof.
  induction classes as [|cls classes IH]; intros index acc Hn; [done|].
  simpl. rewrite IH.
  - apply plainSet_lookup_ne. intros Heq. apply Hn. rewrite Heq. left.
  - intros H. apply Hn. by right.
Qed.

(** No class gets the key [__proto__]. *)
Lemma classMapping_from_proto (classes : list AnnotationClass) :
  forall index acc,
    classMapping_from index acc classes !! "__proto__" = acc !! "__proto__".
Proof.
  induction classes as [|cls classes IH]; intros index acc; [done|].
  simpl. rewrite IH. unfold plainSet.
  destruct (String.eqb_spec (name cls) "__proto__") as [Heq|Hne]; [done|].
  by apply lookup_insert_ne.
Qed.

Lemma classMapping_from_last (classes : list AnnotationClass) :
  forall index acc i cls,
    classes !! i = Some cls ->
    name cls <> "__proto__" ->
    (forall j later, i < j -> classes !! j = Some later ->
                     name later <> name cls) ->
    classMapping_from index acc classes !! name cls = Some (index + i).
Proof.
  induction classes as [|c classes IH]; intros index acc i cls Hi Hproto Hlast;
    [done|].
  destruct i as [|i]; simpl in *.
  - injection Hi as ->. rewrite classMapping_from_other.
    + rewrite plainSet_lookup_eq by done. f_equal. lia.
    + intros Hin. apply list_elem_of_fmap in Hin as (later & Hname & Hin).
      apply list_elem_of_lookup in Hin as [j Hj].
      apply (Hlast (S j) later); [lia|done|done].
  - rewrite (IH (S index) _ i cls Hi Hproto).
    + f_equal. lia.
    + intros j later Hij Hj. apply (Hlast (S j) later); [lia|done].
Qed.

(** X7. The class id written on a label line is the position of the
    label's class in the dataset's class list (the last position, should
    a name occur twice), for every class but one named [__proto__], which
    gets no entry. A label that names no class gets 0 when it is found
    nowhere, so its line is the very line of the same box labelled with
    the first class; a label that is a name of [Object.prototype] and no
    entry prints as the text of the inherited member instead. *)
Theorem class_index_is_position (classes : list AnnotationClass) :
  (forall i cls,
      classes !! i = Some cls ->
      name cls <> "__proto__" ->
      (forall j later, i < j -> classes !! j = Some later ->
                       name later <> name cls) ->
      classMapping classes !! name cls = Some i
      /\ classIdText (classMapping classes) (name cls) = pretty i)
  /\ (NoDup (name <$> classes) ->
      forall i cls, classes !! i = Some cls -> name cls <> "__proto__" ->
                    classMapping classes !! name cls = Some i)
  /\ (forall n, n ∉ name <$> classes \/ n = "__proto__" ->
                classMapping classes !! n = None)
  /\ (forall n, n ∉ name <$> classes -> n ∉ inheritedNames ->
                classIdText (classMapping classes) n = "0")
  /\ (forall n, n ∉ name <$> classes \/ n = "__proto__" ->
                n ∈ inheritedNames ->
                classIdText (classMapping classes) n = inheritedText n)
  /\ (forall first box other,
        NoDup (name <$> classes) ->
        classes !! 0 = Some first ->
        name first <> "__proto__" ->
        label other ∉ name <$> classes ->
        label other ∉ inheritedNames ->
        yoloLine 640 640 (classMapping classes)
          {| x := x box; y := y box; width := width box;
             height := height box; label := label other |}
        = yoloLine 640 640 (classMapping classes)
            {| x := x box; y := y box; width := width box;
               height := height box; label := name first |}).
Proof.
  assert (Hlast : forall i cls,
      classes !! i = Some cls ->
      name cls <> "__proto__" ->
      (forall j later, i < j -> classes !! j = Some later ->
                       name later <> name cls) ->
      classMapping classes !! name cls = Some i).
  { intros i cls Hi Hproto Hl. unfold classMapping.
    by rewrite (classMapping_from_last classes 0 ∅ i cls Hi Hproto Hl). }
  assert (Hnodup : NoDup (name <$> classes) ->
      forall i cls, classes !! i = Some cls -> name cls <> "__proto__" ->
                    classMapping classes !! name cls = Some i).
  { intros Hnd i cls Hi Hproto. apply Hlast; [done|done|].
    intros j later Hij Hj Heq.
    assert (i = j); [|lia].
    eapply NoDup_lookup; [exact Hnd| |].
    - by rewrite list_lookup_fmap, Hi.
    - rewrite list_lookup_fmap, Hj. simpl. by rewrite Heq. }
  assert (Hnone : forall n, n ∉ name <$> classes \/ n = "__proto__" ->
                            classMapping classes !! n = None).
  { intros n [Hn| ->]; unfold classMapping.
    - by rewrite classMapping_from_other.
    - by rewrite classMapping_from_proto. }
  assert (Hzero : forall n, n ∉ name <$> classes -> n ∉ inheritedNames ->
                            classIdText (classMapping classes) n = "0").
  { intros n Hn Hord. unfold classIdText, plainGet.
    rewrite Hnone by (by left). by rewrite decide_False. }
  split; [|split; [exact Hnodup|split; [exact Hnone|split; [exact Hzero|split]]]].
  - intros i cls Hi Hproto Hl. split; [by apply Hlast|].
    unfold classIdText, plainGet. by rewrite (Hlast i cls Hi Hproto Hl).
  - intros n Hn Hin. unfold classIdText, plainGet.
    rewrite (Hnone n Hn). by rewrite decide_True.
  - intros first box other Hnd Hfirst Hproto Hother Hord.
    unfold yoloLine. cbn [x y width height label].
    rewrite (Hzero _ Hother Hord).
    unfold classIdText, plainGet.
    by rewrite (Hnodup Hnd 0 first Hfirst Hproto).
Qed.

(** ** The name of a label file *)

Lemma app_empty_l (s : string) : "" +:+ s = s.
Proof. reflexivity. Qed.

Lemma app_String (c : ascii) (s t : string) :
  String c s +:+ t = String c (s +:+ t).
Proof. reflexivity. Qed.

Lemma plainSuffix_no_match (s : string) :
  forallb (fun c => negb (Ascii.eqb c "."%char || Ascii.eqb c "/"%char))
          (String.list_ascii_of_string s) = true ->
  beforeExtension s = None.
Proof.
  induction s as [|c s IH]; [done|]. simpl.
  rewrite andb_true_iff, negb_true_iff, orb_false_iff.
  intros [[Hdot _] Hrest]. by rewrite (IH Hrest), Hdot.
Qed.

Lemma beforeExtension_app (stem ext : string) :
  plainSuffix ext = true ->
  beforeExtension (stem +:+ "." +:+ ext) = Some stem.
Proof.
  intros Hext. induction stem as [|c stem IH].
  - rewrite app_empty_l.
    change ("." +:+ ext) with (String "."%char ext). simpl.
    unfold plainSuffix in Hext. apply andb_true_iff in Hext as [Hne Hall].
    rewrite (plainSuffix_no_match ext Hall).
    unfold plainSuffix. by rewrite Hne, Hall.
  - rewrite app_String. simpl. by rewrite IH.
Qed.

Lemma beforeExtension_Some (s : string) :
  forall stem,
    beforeExtension s = Some stem ->
    exists ext, plainSuffix ext = true /\ s = stem +:+ "." +:+ ext.
Proof.
  induction s as [|c s IH]; intros stem; [done|]. simpl.
  destruct (beforeExtension s) as [st|].
  - intros [= <-]. destruct (IH st eq_refl) as (ext & Hext & ->).
    by exists ext.
  - destruct (Ascii.eqb_spec c "."%char) as [->|]; [|done].
    destruct (plainSuffix s) eqn:Hs; [|done].
    intros [= <-]. by exists s.
Qed.

(** X8. The label file of an image is named after the image with its
    last extension replaced by [.txt]: [stem.ext] gives [stem.txt]
    whenever [ext] is not empty and has neither dot nor slash; a name
    that does not end in such an extension is kept as it is; and naming
    is idempotent. Two images that differ only in their extension
    therefore share one label file name. *)
Theorem label_file_name_replaces_extension :
  (forall stem ext,
      plainSuffix ext = true ->
      labelFileNameOf (stem +:+ "." +:+ ext) = stem +:+ ".txt")
  /\ (forall s,
        labelFileNameOf s = s
        \/ exists stem ext,
            plainSuffix ext = true /\ s = stem +:+ "." +:+ ext
            /\ labelFileNameOf s = stem +:+ ".txt")
  /\ (forall s,
        (forall stem ext, plainSuffix ext = true ->
                          s <> stem +:+ "." +:+ ext) ->
        labelFileNameOf s = s)
  /\ (forall s, labelFileNameOf (labelFileNameOf s) = labelFileNameOf s)
  /\ (forall stem ext1 ext2,
        plainSuffix ext1 = true -> plainSuffix ext2 = true ->
        labelFileNameOf (stem +:+ "." +:+ ext1)
        = labelFileNameOf (stem +:+ "." +:+ ext2)).
Proof.
  assert (H1 : forall stem ext,
      plainSuffix ext = true ->
      labelFileNameOf (stem +:+ "." +:+ ext) = stem +:+ ".txt").
  { intros stem ext Hext. unfold labelFileNameOf.
    by rewrite beforeExtension_app. }
  assert (H2 : forall s,
        labelFileNameOf s = s
        \/ exists stem ext,
            plainSuffix ext = true /\ s = stem +:+ "." +:+ ext
            /\ labelFileNameOf s = stem +:+ ".txt").
  { intros s. unfold labelFileNameOf.
    destruct (beforeExtension s) as [stem|] eqn:Hs; [|by left].
    right. destruct (beforeExtension_Some s stem Hs) as (ext & Hext & Heq).
    by exists stem, ext. }
  split; [exact H1|]. split; [exact H2|]. split; [|split].
  - intros s Hno. destruct (H2 s) as [|(stem & ext & Hext & Heq & _)];
      [done|]. by destruct (Hno stem ext Hext).
  - intros s.
    destruct (H2 s) as [Heq|(stem & ext & Hext & -> & ->)];
      [by rewrite !Heq|].
    change (stem +:+ ".txt") with (stem +:+ "." +:+ "txt"). by apply H1.
  - intros stem ext1 ext2 He1 He2. by rewrite !H1.
Qed.

(** ** Lines of a label file *)

Lemma lineBreaks_app (a b : string) :
  lineBreaks (a +:+ b) = lineBreaks a + lineBreaks b.
Proof.
  induction a as [|c a IH]; [done|].
  rewrite app_String. simpl. rewrite IH. lia.
Qed.

Lemma lineBreaks_substring (s : string) :
  forall n m, lineBreaks s = 0 -> lineBreaks (String.substring n m s) = 0.
Proof.
  induction s as [|c s IH]; intros n m Hs.
  - by destruct n, m.
  - simpl in Hs. destruct (Ascii.eqb c "010"%char) eqn:Hc; [lia|].
    destruct n as [|n]; simpl.
    + destruct m as [|m]; [done|]. simpl. rewrite Hc. by rewrite IH.
    + by apply IH.
Qed.

Lemma lineBreaks_zeros (n : nat) : lineBreaks (JSNumber.zeros n) = 0.
Proof. unfold JSNumber.zeros. induction n as [|n IH]; [done|]. exact IH. Qed.

Lemma pretty_N_char_no_break (d : N) :
  Ascii.eqb (pretty_N_char d) "010"%char = false.
Proof.
  unfold pretty_N_char. by repeat case_match.
Qed.

Lemma lineBreaks_pretty_N_go (n : N) :
  forall s, lineBreaks s = 0 -> lineBreaks (pretty_N_go n s) = 0.
Proof.
  induction n as [n IH] using (well_founded_induction N.lt_wf_0).
  intros s Hs. destruct (decide (0 < n)%N) as [Hpos|Hzero].
  - rewrite pretty_N_go_step by done. apply IH.
    + by apply N.div_lt.
    + simpl. by rewrite pretty_N_char_no_break.
  - assert (n = 0%N) as -> by lia. by rewrite pretty_N_go_0.
Qed.

Lemma lineBreaks_pretty_N (n : N) : lineBreaks (pretty n) = 0.
Proof.
  unfold pretty, pretty_N. destruct (decide (n = 0%N)); [done|].
  by apply lineBreaks_pretty_N_go.
Qed.

Lemma lineBreaks_pretty_nat (n : nat) : lineBreaks (pretty n) = 0.
Proof. apply lineBreaks_pretty_N. Qed.

Lemma lineBreaks_digits (z : Z) : lineBreaks (JSNumber.digits z) = 0.
Proof. apply lineBreaks_pretty_N. Qed.

Ltac no_breaks :=
  repeat rewrite lineBreaks_app;
  repeat first
    [ rewrite lineBreaks_zeros
    | rewrite lineBreaks_digits
    | rewrite lineBreaks_pretty_nat
    | rewrite lineBreaks_substring by
        (repeat rewrite lineBreaks_app;
         repeat (rewrite lineBreaks_zeros || rewrite lineBreaks_digits);
         reflexivity) ];
  try reflexivity.

Lemma lineBreaks_layout (s k n : Z) : lineBreaks (JSNumber.layout s k n) = 0.
Proof.
  unfold JSNumber.layout.
  repeat case_match; no_breaks.
Qed.

Lemma lineBreaks_toString (x : float) : lineBreaks (JSNumber.toString x) = 0.
Proof.
  unfold JSNumber.toString.
  destruct (Prim2SF x) as [sg|sg| |sg m e]; try done; [by destruct sg|].
  destruct (JSNumber.shortest _ _ _ _ _) as [[s k] n].
  rewrite lineBreaks_app, lineBreaks_layout. by destruct sg.
Qed.

Lemma lineBreaks_toFixed (x : float) (f : nat) :
  lineBreaks (JSNumber.toFixed x f) = 0.
Proof.
  unfold JSNumber.toFixed.
  destruct (Prim2SF x) as [sg|sg| |sg m e] eqn:Hx.
  - destruct f; no_breaks.
  - unfold JSNumber.toString. rewrite Hx. by destruct sg.
  - unfold JSNumber.toString. by rewrite Hx.
  - case_match; [apply lineBreaks_toString|].
    destruct sg, f; no_breaks.
Qed.

(** Neither an index nor the text of an inherited member holds a line
    break. *)
Lemma lineBreaks_classIdText (classMapping : gmap string nat)
    (label : string) :
  lineBreaks (classIdText classMapping label) = 0.
Proof.
  unfold classIdText, plainGet.
  destruct (classMapping !! label); [apply lineBreaks_pretty_nat|].
  destruct (decide (label ∈ inheritedNames)) as [Hin|]; [|done].
  unfold inheritedNames in Hin.
  repeat (apply elem_of_cons in Hin as [->|Hin]; [reflexivity|]).
  by apply not_elem_of_nil in Hin.
Qed.

Lemma lineBreaks_yoloLine (imageWidth imageHeight : float)
    (classMapping : gmap string nat) (ann : AnnotationData) :
  lineBreaks (yoloLine imageWidth imageHeight classMapping ann) = 0.
Proof.
  unfold yoloLine. rewrite !lineBreaks_app, !lineBreaks_toFixed.
  by rewrite lineBreaks_classIdText.
Qed.

Lemma lineBreaks_join (l : list string) :
  Forall (fun s => lineBreaks s = 0) l ->
  lineBreaks (join LF l) = length l - 1.
Proof.
  unfold join. induction 1 as [|s l Hs Hl IH]; [done|].
  destruct l as [|t l]; [simpl; lia|].
  change (String.concat LF (s :: t :: l))
    with (s +:+ LF +:+ String.concat LF (t :: l)).
  rewrite !lineBreaks_app, Hs, IH. simpl. lia.
Qed.

Lemma lineBreaks_convertToYOLOFormat (classMapping : gmap string nat)
    (annotations : list Annotation) (imageWidth imageHeight : float) :
  lineBreaks (convertToYOLOFormat annotations imageWidth imageHeight
                classMapping)
  = length annotations - 1.
Proof.
  unfold convertToYOLOFormat.
  rewrite lineBreaks_join, length_map; [done|].
  apply Forall_forall. intros s Hs.
  apply list_elem_of_In, in_map_iff in Hs as (a & <- & _).
  apply lineBreaks_yoloLine.
Qed.

(** X9. The label text of an image has one line for each of its
    annotations: whatever the numbers of the boxes are (not-a-number and
    infinities included), no line holds a line break, so the text has
    one line break less than there are annotations. This holds for the
    helper [convertToYOLOFormat] at any reference size and for the
    conversion the handler does at 640 x 640. *)
Theorem one_label_line_per_annotation (classMapping : gmap string nat)
    (annotations : list Annotation) (imageWidth imageHeight : float) :
  lineBreaks (convertToYOLOFormat annotations imageWidth imageHeight
                classMapping)
    = length annotations - 1
  /\ lineBreaks (yoloAnnotations classMapping annotations)
     = length annotations - 1.
Proof.
  split; [apply lineBreaks_convertToYOLOFormat|].
  rewrite yoloAnnotations_convertToYOLOFormat.
  apply lineBreaks_convertToYOLOFormat.
Qed.

(** ** The archive that is posted *)

Lemma string_app_assoc (a b c : string) : (a +:+ b) +:+ c = a +:+ b +:+ c.
Proof.
  induction a as [|ch a IH]; [done|]. rewrite !app_String. by rewrite IH.
Qed.

(** What is posted is the archive of the reconciliation of the listing. *)
Lemma start_posted_archive (toLowerCase : string -> string) (w : World)
    (url : string) (formData : FormData) :
  HttpPost url formData ∈ (start toLowerCase w).2 ->
  exists datasetFiles,
    accepted_request w
    /\ readdir w (datasetPathOf w) = Some datasetFiles
    /\ url = uploadUrl w
    /\ formData
       = formDataOf w (reconcile toLowerCase
                         (list_to_set (imageId <$> annotationRows w))
                         (annotationRows w)
                         (imageFilesOf toLowerCase datasetFiles)).2.
Proof.
  intros Hpost.
  destruct (start_cases toLowerCase w)
    as [(Hv & H)|[(Hv & Hp & H)|[(Hv & Hp & Hd & H)|[(Hr & Ha & H)|
        [(Hr & Ha & Hno & H)|[(Hr & Ha & Ho & Hdir & H)|
        [(fs & Hr & Ha & Ho & Hdir & Hnil & H)|
         (fs & Hr & Ha & Ho & Hdir & Hsome & H)]]]]]]];
    rewrite H in Hpost; simpl in Hpost.
  1-5: by apply not_elem_of_nil in Hpost.
  1-2: by apply list_elem_of_singleton in Hpost.
  apply elem_of_cons in Hpost as [Hpost|Hpost]; [done|].
  apply elem_of_app in Hpost as [Hpost|Hpost];
    [by apply imageEvents_not_post in Hpost|].
  apply list_elem_of_singleton in Hpost. injection Hpost as -> ->.
  exists fs. split; [exact Hr|]. by repeat split.
Qed.

Lemma storeImages_label_text (w : World) (R : Reconciliation)
    (files : list string) (label text : string) :
  forall zip,
    labelsFolder (foldl (storeImage w R) zip files) !! label = Some text ->
    labelsFolder zip !! label = Some text
    \/ exists f, f ∈ files /\ is_Some (readImage w f)
         /\ labelFileNameOf f = label
         /\ text = yoloAnnotations (classMapping (annotationClassRows w))
                     (default [] (imageAnnotationMap R !! f)).
Proof.
  induction files as [|g files IH]; intros zip; [by left|].
  simpl. intros Hlook. apply IH in Hlook as [Hlook|(f & Hf & Hrest)].
  - unfold storeImage in Hlook.
    destruct (readImage w g) as [buffer|] eqn:Hg; [|by left].
    simpl in Hlook.
    destruct (decide (labelFileNameOf g = label)) as [Heq|Hne].
    + rewrite Heq, lookup_insert_eq in Hlook. injection Hlook as <-.
      right. exists g. repeat split; [left|by rewrite Hg|done].
    + rewrite lookup_insert_ne in Hlook by done. by left.
  - right. exists f. split; [by right|done].
Qed.

Lemma storeImages_root (w : World) (R : Reconciliation)
    (files : list string) :
  forall zip,
    mainDatasetFolder (foldl (storeImage w R) zip files)
    = mainDatasetFolder zip.
Proof.
  induction files as [|g files IH]; intros zip; [done|].
  simpl. rewrite IH. unfold storeImage. by destruct (readImage w g).
Qed.

(** X10. Every label file of the archive that is posted is the label
    text of an annotated image that was read and is stored too, under
    that image's label name; it has as many lines as that image has
    annotations, at least one. *)
Theorem posted_labels_match_annotations (toLowerCase : string -> string)
    (w : World) (url : string) (formData : FormData) (label text : string) :
  HttpPost url formData ∈ (start toLowerCase w).2 ->
  labelsFolder (file formData) !! label = Some text ->
  exists datasetFiles f group,
    readdir w (datasetPathOf w) = Some datasetFiles
    /\ f ∈ datasetFiles
    /\ labelFileNameOf f = label
    /\ imagesFolder (file formData) !! f = readImage w f
    /\ is_Some (readImage w f)
    /\ imageAnnotationMap
         (reconcile toLowerCase
            (list_to_set (imageId <$> annotationRows w)) (annotationRows w)
            (imageFilesOf toLowerCase datasetFiles)).2 !! f = Some group
    /\ text = yoloAnnotations (classMapping (annotationClassRows w)) group
    /\ lineBreaks text + 1 = length group.
Proof.
  intros Hpost Hlabel.
  destruct (start_posted_archive toLowerCase w url formData Hpost)
    as (fs & Hreq & Hdir & -> & ->).
  set (R := (reconcile toLowerCase
            (list_to_set (imageId <$> annotationRows w)) (annotationRows w)
               (imageFilesOf toLowerCase fs)).2) in *.
  unfold formDataOf, archiveOf in Hlabel. simpl in Hlabel.
  apply storeImages_label_text in Hlabel as [Hlabel|(f & Hf & Hread & Hname & ->)];
    [simpl in Hlabel; by apply lookup_empty_Some in Hlabel|].
  destruct (inStep_group R f (reconcile_inStep toLowerCase _ (annotationRows w)
                                (imageFilesOf toLowerCase fs)) Hf)
    as (group & Hlook & Hne).
  destruct (reconcile_within toLowerCase
              (list_to_set (imageId <$> annotationRows w)) (annotationRows w)
              (imageFilesOf toLowerCase fs)) as [_ Hlist].
  exists fs, f, group. fold R in Hlook. rewrite Hlook. simpl.
  repeat split; try done.
  - by apply (imageFilesOf_subseteq toLowerCase), Hlist.
  - unfold formDataOf, archiveOf. simpl. rewrite storeImages_images.
    rewrite decide_True by done. by destruct (readImage w f).
  - rewrite yoloAnnotations_convertToYOLOFormat,
      lineBreaks_convertToYOLOFormat.
    destruct group; [done|simpl; lia].
Qed.

(** X11. The names in one export agree: the root folder of the posted
    archive is [<datasetName>_Training_<timestamp>], the manifest in it
    ends with that very name as [project_name], the upload path is
    [<userId>/<datasetName>_<timestamp>] with the file named after it,
    and automatic start of the training is always asked for. *)
Theorem posted_names_agree (toLowerCase : string -> string) (w : World)
    (url : string) (formData : FormData) :
  HttpPost url formData ∈ (start toLowerCase w).2 ->
  let root := datasetName w +:+ "_Training_" +:+ pretty (now w) in
  mainDatasetFolder (file formData) = root
  /\ (exists head,
        configYaml (file formData)
        = Some (head +:+ "project_name: " +:+ root +:+ LF +:+
                "train_val_split: " +:+
                ToString (js_or (datasetSplitRatio (trainingConfig w))
                                (JSString "80/20")) +:+ LF))
  /\ uploadPath formData
     = userId w +:+ "/" +:+ datasetName w +:+ "_" +:+ pretty (now w)
  /\ fileName formData = uploadPath formData +:+ ".zip"
  /\ bucket formData = "datasets"
  /\ autoStartTraining formData = "true"
  /\ url = ToString (WORKER_URL w) +:+ "/upload-dataset".
Proof.
  intros Hpost root.
  destruct (start_posted_archive toLowerCase w url formData Hpost)
    as (fs & Hreq & Hdir & -> & ->).
  unfold formDataOf, archiveOf. simpl.
  rewrite storeImages_root. simpl.
  repeat split; try done.
  unfold createConfigYaml.
  exists ("epochs: " +:+
          ToString (js_or (epochs (trainingConfig w)) (JSNumber 100)) +:+ LF +:+
          "batch_size: " +:+
          ToString (js_or (batchSize (trainingConfig w)) (JSNumber 16)) +:+
          LF +:+ "img_size: " +:+
          ToString (js_or (imgSize (trainingConfig w)) (JSNumber 640)) +:+
          LF +:+ "learning_rate: " +:+
          ToString (js_or (learningRate (trainingConfig w)) (JSNumber 0.001))
          +:+ LF +:+ "model: " +:+
          ToString (js_or (modelType (trainingConfig w))
                          (JSString "yolov8recommended")) +:+ LF +:+
          "num_classes: " +:+
          pretty (length (map name (annotationClassRows w))) +:+ LF +:+
          "class_names:" +:+ LF +:+
          join LF (map (fun name => "  - " +:+ name)
                       (map name (annotationClassRows w))) +:+ LF).
  subst root. by rewrite !string_app_assoc.
Qed.

(** * The routes that relay to the worker *)

Lemma getProperty_Done (v : JSAny) (key : string) (p : JSAny) :
  getProperty v key = Done p ->
  forall other, exists q, getProperty v other = Done q.
Proof.
  intros Hget other. unfold getProperty in *.
  destruct v as [[| | | |]| |]; try done; by eexists.
Qed.

Lemma startRunpod_run (r : Relay)
    (datasetUrl trainingConfig datasetName : JSAny) :
  ToBooleanAny datasetUrl = true ->
  startRunpod r datasetUrl trainingConfig datasetName
  = match ToStringAny datasetName with
    | Raised message =>
        (Failure "Failed to start training through worker" message None, [])
    | Done _ =>
        (runpodAnswer
           (readReply "Worker training start failed: "
              (relayReply r (runpodCall r trainingConfig datasetName))),
         [runpodCall r trainingConfig datasetName])
    end.
Proof.
  intros Hurl.
  unfold startRunpod, runpodAnswer, answered, andThen, quietly, fetchJson.
  rewrite Hurl. fold (runpodCall r trainingConfig datasetName). simpl.
  destruct (ToStringAny datasetName) as [shown|message]; [|done].
  destruct (readReply _ _) as [trainingResult|message]; [|done].
  simpl.
  by destruct (_ ≫= _).
Qed.

(** X12. [POST /start-runpod] demands a dataset URL and then does not use
    it: without a truthy [datasetUrl] the answer is 400 and the worker is
    not called; with one, and a dataset name that the log line of the
    route can print, the single request sent to the worker carries
    [datasetZip: null], the dataset name (or [training-dataset]) and the
    training configuration (or [{}]) and nothing of the URL; a dataset
    name that cannot be printed (an object with a [toString] property of
    its own) ends the route with 500 before the worker is called. Two
    requests that differ only in their URL are served alike. *)
Theorem runpod_url_required_not_sent (r : Relay)
    (datasetUrl trainingConfig datasetName : JSAny) :
  (ToBooleanAny datasetUrl = false ->
   startRunpod r datasetUrl trainingConfig datasetName
   = (BadRequest "Dataset URL is required", []))
  /\ (ToBooleanAny datasetUrl = true ->
      forall shown, ToStringAny datasetName = Done shown ->
      (startRunpod r datasetUrl trainingConfig datasetName).2
      = [runpodCall r trainingConfig datasetName])
  /\ (ToBooleanAny datasetUrl = true ->
      forall message, ToStringAny datasetName = Raised message ->
      startRunpod r datasetUrl trainingConfig datasetName
      = (Failure "Failed to start training through worker" message None, []))
  /\ (forall otherUrl,
        ToBooleanAny datasetUrl = true -> ToBooleanAny otherUrl = true ->
        startRunpod r datasetUrl trainingConfig datasetName
        = startRunpod r otherUrl trainingConfig datasetName).
Proof.
  split; [|split; [|split]].
  - unfold startRunpod. by intros ->.
  - intros Hurl shown Hshown. by rewrite startRunpod_run, Hshown.
  - intros Hurl message Hshown. by rewrite startRunpod_run, Hshown.
  - intros otherUrl Hurl Hother. by rewrite !startRunpod_run.
Qed.

(** X13. [POST /start-runpod], for a request with a URL and a dataset
    name that prints, answers 200 only when the worker replied with a
    status in 200-299 and a body that parses, whose [success] property is
    truthy and whose [trainingId] the log line can print; the answer then
    relays [trainingId], [podId], [status] and [message] of that body. In
    every other case the answer is 500 "Failed to start training through
    worker"; for a status outside 200-299 its details hold the status
    and the body. *)
Theorem runpod_success_needs_flag (r : Relay)
    (datasetUrl trainingConfig datasetName : JSAny) (shown : string) :
  ToBooleanAny datasetUrl = true ->
  ToStringAny datasetName = Done shown ->
  let sent := (startRunpod r datasetUrl trainingConfig datasetName).1 in
  let reply := relayReply r (runpodCall r trainingConfig datasetName) in
  ((exists body, sent = Json body)
   <-> exists status text value flag trainingId printed,
         reply = Answer status text (inr value) /\ ok status = true
         /\ getProperty value "success" = Done flag
         /\ ToBooleanAny flag = true
         /\ getProperty value "trainingId" = Done trainingId
         /\ ToStringAny trainingId = Done printed)
  /\ (forall status text value flag trainingId printed,
        reply = Answer status text (inr value) -> ok status = true ->
        getProperty value "success" = Done flag ->
        ToBooleanAny flag = true ->
        getProperty value "trainingId" = Done trainingId ->
        ToStringAny trainingId = Done printed ->
        exists podId state message,
          getProperty value "podId" = Done podId
          /\ getProperty value "status" = Done state
          /\ getProperty value "message" = Done message
          /\ sent = Json (JSObject
                  [("message",
                    Primitive (JSString
                      "Training started successfully through worker"));
                   ("trainingId", trainingId); ("podId", podId);
                   ("status", state); ("workerMessage", message)]))
  /\ (forall status text value flag trainingId message,
        reply = Answer status text (inr value) -> ok status = true ->
        getProperty value "success" = Done flag ->
        ToBooleanAny flag = true ->
        getProperty value "trainingId" = Done trainingId ->
        ToStringAny trainingId = Raised message ->
        sent = Failure "Failed to start training through worker" message None)
  /\ ((forall body, sent <> Json body) ->
      exists details,
        sent = Failure "Failed to start training through worker" details None
        /\ relayStatus sent = 500)
  /\ (forall status text json,
        reply = Answer status text json -> ok status = false ->
        sent = Failure "Failed to start training through worker"
                 ("Worker training start failed: " +:+ pretty status +:+
                  " - " +:+ text) None).
Proof.
  intros Hurl Hshown sent reply.
  assert (Hsent : sent
                  = runpodAnswer
                      (readReply "Worker training start failed: " reply)).
  { subst sent reply. by rewrite startRunpod_run, Hshown. }
  clearbody sent reply. subst sent.
  unfold runpodAnswer, mbind, Attempt_bind, mret, Attempt_ret, readReply.
  destruct reply as [m|status text [m|value]].
  - split; [|split; [|split; [|split]]].
    + split; [intros [? ?]; done | intros (?&?&?&?&?&?&?&?); done].
    + intros ???????; done.
    + intros ???????; done.
    + intros _. by eexists.
    + intros ?????; done.
  - split; [|split; [|split; [|split]]]; destruct (ok status) eqn:Hok; simpl.
    all: try (split; [intros [? ?]; done | intros (?&?&?&?&?&?&?&?); done]).
    all: try (intros ???????; done).
    all: try (intros _; by eexists).
    all: try (intros ??? [= <- <- <-] ?; congruence).
    all: try (intros ??? [= <- <- <-] ?; done).
  - destruct (ok status) eqn:Hok; simpl.
    2:{ split; [|split; [|split; [|split]]].
        - split; [intros [? ?]; done|].
          intros (?&?&?&?&?&?&[= <- <- <-]&?&?). congruence.
        - intros ?????? [= <- <- <-] ?. congruence.
        - intros ?????? [= <- <- <-] ?. congruence.
        - intros _. by eexists.
        - by intros ??? [= <- <- <-] _. }
    destruct (getProperty value "success") as [flag|m] eqn:Hflag.
    2:{ split; [|split; [|split; [|split]]].
        - split; [intros [? ?]; done|].
          intros (?&?&?&?&?&?&[= <- <- <-]&?&?&?). congruence.
        - intros ?????? [= <- <- <-] ? ?. congruence.
        - intros ?????? [= <- <- <-] ? ?. congruence.
        - intros _. by eexists.
        - intros ??? [= <- <- <-] ?. congruence. }
    destruct (ToBooleanAny flag) eqn:Htruthy; simpl.
    2:{ split; [|split; [|split; [|split]]].
        - split; [intros [? ?]; done|].
          intros (?&?&?&?&?&?&[= <- <- <-]&?&?&?&?). congruence.
        - intros ?????? [= <- <- <-] ? ? ?. congruence.
        - intros ?????? [= <- <- <-] ? ? ?. congruence.
        - intros _. by eexists.
        - intros ??? [= <- <- <-] ?. congruence. }
    destruct (getProperty_Done value "success" flag Hflag "trainingId")
      as [tid Htid].
    destruct (getProperty_Done value "success" flag Hflag "podId")
      as [pid Hpid].
    destruct (getProperty_Done value "success" flag Hflag "status")
      as [st Hst].
    destruct (getProperty_Done value "success" flag Hflag "message")
      as [msg Hmsg].
    rewrite Htid.
    destruct (ToStringAny tid) as [printed|message] eqn:Hprinted.
    + rewrite Hpid, Hst, Hmsg.
      split; [|split; [|split; [|split]]].
      * split; [|by eexists]. intros _.
        by exists status, text, value, flag, tid, printed.
      * intros ?????? [= <- <- <-] _ _ _ Hget _.
        rewrite Htid in Hget. injection Hget as <-. by exists pid, st, msg.
      * intros ?????? [= <- <- <-] _ _ _ Hget ?.
        rewrite Htid in Hget. injection Hget as <-. congruence.
      * intros Hno. exfalso. by eapply Hno.
      * intros ??? [= <- <- <-] ?. congruence.
    + split; [|split; [|split; [|split]]].
      * split; [intros [? ?]; done|].
        intros (?&?&?&?&?&?&[= <- <- <-]&?&?&?&Hget&?).
        rewrite Htid in Hget. injection Hget as <-. congruence.
      * intros ?????? [= <- <- <-] _ _ _ Hget ?.
        rewrite Htid in Hget. injection Hget as <-. congruence.
      * intros ?????? [= <- <- <-] _ _ _ Hget ?.
        rewrite Htid in Hget. injection Hget as <-. congruence.
      * intros _. by eexists.
      * intros ??? [= <- <- <-] ?. congruence.
Qed.

(** X14. [GET /status/:trainingId] relays whatever the worker says: with
    a status in 200-299 and a body that parses, that body is answered
    with 200 as it is, be it an error report or [null] (no success flag
    is looked for); with another status the answer is 500 and its
    details hold the worker's status and body. The training id goes into
    the query string of the one request as it is. *)
Theorem status_reply_is_relayed (r : Relay) (trainingId : string) :
  trainingId <> "" ->
  let call :=
    GetStatus (ToString (relayWorkerUrl r) +:+ "/training-status?id=" +:+
               trainingId) in
  (trainingStatus r trainingId).2 = [call]
  /\ (forall status text value,
        relayReply r call = Answer status text (inr value) ->
        ok status = true ->
        (trainingStatus r trainingId).1 = Json value)
  /\ (forall status text json,
        relayReply r call = Answer status text json -> ok status = false ->
        (trainingStatus r trainingId).1
        = Failure "Failed to check training status through worker"
            ("Worker status check failed: " +:+ pretty status +:+ " - " +:+
             text) None)
  /\ (forall message,
        relayReply r call = NetworkError message ->
        (trainingStatus r trainingId).1
        = Failure "Failed to check training status through worker"
            message None).
Proof.
  intros Hid call. unfold trainingStatus.
  apply String.eqb_neq in Hid. rewrite Hid. fold call. simpl.
  split; [done|]. unfold readReply.
  split; [|split].
  - intros status text value -> Hok. by rewrite Hok.
  - intros status text json -> Hok. by rewrite Hok.
  - by intros message ->.
Qed.

(** ** [POST /export-to-worker] *)

Lemma lookupLast_app (key : string) (a b : list (string * JSAny)) :
  lookupLast key (a ++ b)
  = match lookupLast key b with
    | Some v => Some v
    | None => lookupLast key a
    end.
Proof.
  induction a as [|[k v] a IH]; simpl.
  - by destruct (lookupLast key b).
  - rewrite IH. by destruct (lookupLast key b).
Qed.

Lemma exportToWorker_run (r : Relay) (user : string)
    (datasetZip datasetName uploadPath trainingConfig : JSAny) :
  ToBooleanAny datasetZip = true ->
  ToBooleanAny datasetName = true ->
  exportToWorker r user datasetZip datasetName uploadPath trainingConfig
  = match exportForm r user datasetZip datasetName uploadPath trainingConfig
    with
    | Raised message =>
        (Failure "Failed to export to worker" message
           (Some (relayWorkerUrl r)), [])
    | Done formData =>
        let request :=
          PostDataset (ToString (relayWorkerUrl r) +:+ "/upload-dataset")
                      formData in
        (exportAnswer r (readReply "Worker error: " (relayReply r request)),
         [request])
    end.
Proof.
  intros Hzip Hname.
  unfold exportToWorker, exportForm, exportAnswer, answered, andThen,
    quietly, fetchJson.
  rewrite Hzip, Hname. simpl.
  destruct (ToStringAny datasetName) as [name|message]; [|done]. simpl.
  destruct (ToStringAny uploadPath) as [path|message]; [|done]. simpl.
  destruct (zipBlobOf datasetZip) as [zipBlob|message]; [|done]. simpl.
  destruct (readReply _ _) as [workerResult|message]; [|done]. simpl.
  by destruct (_ ≫= _).
Qed.

(** X15. [POST /export-to-worker], when the values of the body print,
    takes the upload path from the caller: a truthy [uploadPath] of the
    body is sent to the worker as it prints, with the file named after
    it, whoever the caller is and whatever the time, so two users who
    name the same path write to the same place. Only without one is the
    path [<userId>/<datasetName>_<timestamp>]. The request never asks for
    training to start. *)
Theorem export_path_is_the_callers (r : Relay) (user : string)
    (datasetZip datasetName uploadPath trainingConfig : JSAny)
    (name path : string) (zipBlob : Blob) :
  ToBooleanAny datasetZip = true ->
  ToBooleanAny datasetName = true ->
  ToStringAny datasetName = Done name ->
  ToStringAny uploadPath = Done path ->
  zipBlobOf datasetZip = Done zipBlob ->
  exists url form,
    (exportToWorker r user datasetZip datasetName uploadPath trainingConfig).2
    = [PostDataset url form]
    /\ url = ToString (relayWorkerUrl r) +:+ "/upload-dataset"
    /\ formFile form = zipBlob
    /\ formFileName form = formUploadPath form +:+ ".zip"
    /\ formBucket form = "datasets"
    /\ formAutoStartTraining form = "false"
    /\ (ToBooleanAny uploadPath = true ->
        formUploadPath form = path
        /\ forall otherUser otherRelay,
             relayWorkerUrl otherRelay = relayWorkerUrl r ->
             (exportToWorker otherRelay otherUser datasetZip datasetName
                uploadPath trainingConfig).2
             = [PostDataset url form])
    /\ (ToBooleanAny uploadPath = false ->
        formUploadPath form
        = user +:+ "/" +:+ name +:+ "_" +:+ pretty (relayNow r)).
Proof.
  intros Hzip Hname Hshown Hpath Hblob.
  rewrite exportToWorker_run by done.
  unfold exportForm. rewrite Hshown, Hpath, Hblob. simpl.
  eexists _, _. split; [done|]. simpl.
  do 5 (split; [done|]). split.
  - intros Htruthy. split; [by rewrite Htruthy|].
    intros otherUser otherRelay Hurl.
    rewrite exportToWorker_run by done.
    unfold exportForm. rewrite Hshown, Hpath, Hblob. simpl.
    by rewrite Htruthy, Hurl.
  - intros Hfalsy. by rewrite Hfalsy.
Qed.

(** X16. [POST /export-to-worker] needs a truthy [datasetZip] and a
    truthy [datasetName], else it answers 400 without calling the worker;
    and when a value of the body cannot be printed (an object with a
    [toString] property of its own) it answers 500 without calling it.
    It looks for no success flag: any reply with a status in 200-299
    whose body parses to something other than [null], and whose
    [fileName] the log line can print, is answered with 200, and the
    properties of the worker's body are merged over the route's own
    [message], [source] and [workerUrl], replacing them where the names
    collide. A body that is [null] gives 500, because the route reads
    its [fileName], and so does a [fileName] that cannot be printed. *)
Theorem export_answer_is_workers (r : Relay) (user : string)
    (datasetZip datasetName uploadPath trainingConfig : JSAny) :
  let run :=
    exportToWorker r user datasetZip datasetName uploadPath trainingConfig in
  let own :=
    [("message",
      Primitive (JSString "Dataset exported to MinIO via worker successfully"));
     ("source", Primitive (JSString "cloudflare-worker"));
     ("workerUrl", Primitive (relayWorkerUrl r))] in
  (ToBooleanAny datasetZip = false \/ ToBooleanAny datasetName = false ->
   run = (BadRequest "Dataset ZIP and name are required", []))
  /\ (ToBooleanAny datasetZip = true -> ToBooleanAny datasetName = true ->
      forall message,
        ToStringAny datasetName = Raised message
        \/ ToStringAny uploadPath = Raised message
        \/ zipBlobOf datasetZip = Raised message ->
        run.2 = []
        /\ exists details,
             run.1 = Failure "Failed to export to worker" details
                       (Some (relayWorkerUrl r)))
  /\ (forall call status text value fileName printed,
        run.2 = [call] ->
        relayReply r call = Answer status text (inr value) ->
        ok status = true ->
        getProperty value "fileName" = Done fileName ->
        ToStringAny fileName = Done printed ->
        exists fields,
          run.1 = Json (JSObject fields)
          /\ relayStatus run.1 = 200
          /\ forall key,
               lookupLast key fields
               = match lookupLast key (ownFields value) with
                 | Some v => Some v
                 | None => lookupLast key own
                 end)
  /\ (forall call status text,
        run.2 = [call] ->
        relayReply r call = Answer status text (inr (Primitive JSNull)) ->
        ok status = true ->
        run.1 = Failure "Failed to export to worker"
                  "Cannot read properties of null (reading 'fileName')"
                  (Some (relayWorkerUrl r)))
  /\ (forall call status text value fileName message,
        run.2 = [call] ->
        relayReply r call = Answer status text (inr value) ->
        ok status = true ->
        getProperty value "fileName" = Done fileName ->
        ToStringAny fileName = Raised message ->
        run.1 = Failure "Failed to export to worker" message
                  (Some (relayWorkerUrl r))).
Proof.
  intros run own. subst run.
  destruct (ToBooleanAny datasetZip) eqn:Hzip;
    destruct (ToBooleanAny datasetName) eqn:Hname.
  2-4: unfold exportToWorker; rewrite Hzip, Hname; simpl;
       split; [done|]; split; [done|]; repeat split; intros; done.
  rewrite exportToWorker_run by done.
  split; [by intros [|]|].
  destruct (exportForm r user datasetZip datasetName uploadPath trainingConfig)
    as [form|failure] eqn:Hform.
  - split.
    { intros _ _ message Hraised. exfalso. unfold exportForm in Hform.
      destruct Hraised as [H|[H|H]]; rewrite H in Hform; simpl in Hform;
        try done.
      - by destruct (ToStringAny datasetName).
      - destruct (ToStringAny datasetName); [|done]. simpl in Hform.
        by destruct (ToStringAny uploadPath). }
    cbn [fst snd]. unfold exportAnswer, mbind, Attempt_bind, mret, Attempt_ret.
    split; [|split].
    + intros call status text value fileName printed [= <-] Hreply Hok
        Hget Hprinted.
      rewrite Hreply. unfold readReply. rewrite Hok. cbn [negb].
      rewrite Hget, Hprinted.
      exists (own ++ ownFields value). split; [done|]. split; [done|].
      intros key. apply lookupLast_app.
    + intros call status text [= <-] Hreply Hok.
      rewrite Hreply. unfold readReply. by rewrite Hok.
    + intros call status text value fileName message [= <-] Hreply Hok
        Hget Hprinted.
      rewrite Hreply. unfold readReply. rewrite Hok. cbn [negb].
      by rewrite Hget, Hprinted.
  - cbn [fst snd]. split; [|repeat split; intros; done].
    intros _ _ message _. split; [done|]. by eexists.
Qed.

(** * The middleware *)

Lemma split_without (sep : ascii) (s : string) :
  without sep s = true -> split sep s = [s].
Proof.
  unfold without. induction s as [|c s IH]; [done|]. simpl.
  rewrite andb_true_iff, negb_true_iff. intros [Hc Hs].
  by rewrite (IH Hs), Hc.
Qed.

Lemma split_app (sep : ascii) (a b : string) :
  without sep a = true ->
  split sep (a +:+ String sep b) = a :: split sep b.
Proof.
  unfold without. induction a as [|c a IH].
  - intros _. rewrite app_empty_l. simpl. rewrite Ascii.eqb_refl.
    destruct (split sep b) eqn:Hb; [|done].
    exfalso. clear -Hb. destruct b as [|c b]; [done|]. simpl in Hb.
    destruct (split sep b); [done|]. by destruct (Ascii.eqb c sep).
  - intros Hca. simpl in Hca.
    apply andb_true_iff in Hca as [Hc Ha]. apply negb_true_iff in Hc.
    change (String c a +:+ String sep b) with (String c (a +:+ String sep b)).
    simpl. by rewrite (IH Ha), Hc.
Qed.

(** X17. The middleware takes the token from the second word of the
    [Authorization] header, whatever the first word is ([Bearer] is not
    asked for), and prefers it to the [token] query parameter; a header
    of one word, an empty header and no header all leave the choice to
    the query parameter; and with no token from either the answer is
    401 without the token being verified or a user looked up. *)
Theorem auth_token_choice (k : Keys) (queryToken : option string) :
  (forall scheme token,
      without " "%char scheme = true -> without " "%char token = true ->
      token <> "" ->
      authenticateToken k (Some (scheme +:+ " " +:+ token)) queryToken
      = authenticateToken k None (Some token))
  /\ (forall word,
        without " "%char word = true ->
        authenticateToken k (Some word) queryToken
        = authenticateToken k None queryToken)
  /\ authenticateToken k None None
     = (Unauthorized "Access token required", [])
  /\ authenticateToken k None (Some "")
     = (Unauthorized "Access token required", []).
Proof.
  split; [|split; [|done]].
  - intros scheme token Hscheme Htoken Hne.
    unfold authenticateToken.
    assert (Hheader : String.eqb (scheme +:+ " " +:+ token) "" = false).
    { apply String.eqb_neq. by destruct scheme. }
    rewrite Hheader.
    change (scheme +:+ " " +:+ token)
      with (scheme +:+ String " "%char token).
    rewrite (split_app _ _ _ Hscheme), (split_without _ _ Htoken). simpl.
    apply String.eqb_neq in Hne. by rewrite !Hne.
  - intros word Hword. unfold authenticateToken.
    destruct (String.eqb_spec word "") as [->|Hne]; [done|].
    by rewrite (split_without _ _ Hword).
Qed.

(** X18. The middleware lets a request through only with a token that
    verifies and whose user id is a row of the users table; the identity
    it hands to the route is that row's. A token that does not verify is
    answered 403, one whose user is gone 401, and the users table is
    consulted only after a token has verified, for the id it names. *)
Theorem auth_outcomes (k : Keys) (authHeader queryToken : option string) :
  let out := (authenticateToken k authHeader queryToken).1 in
  let log := (authenticateToken k authHeader queryToken).2 in
  (forall user email,
      out = Next user email ->
      exists token decoded row,
        token <> ""
        /\ verifyToken k token = Some decoded
        /\ findUser k decoded = Some row
        /\ user = userRowId row /\ email = userEmail row
        /\ log = [Verified token; LookedUp decoded])
  /\ (forall decoded,
        LookedUp decoded ∈ log ->
        exists token, log = [Verified token; LookedUp decoded]
                      /\ verifyToken k token = Some decoded)
  /\ (forall token,
        Verified token ∈ log ->
        token <> ""
        /\ (verifyToken k token = None ->
            out = Forbidden "Invalid or expired token")
        /\ (forall decoded,
              verifyToken k token = Some decoded ->
              findUser k decoded = None ->
              out = Unauthorized "Invalid token"))
  /\ (log = [] <-> out = Unauthorized "Access token required").
Proof.
  intros out log. subst out log. unfold authenticateToken.
  set (headerToken := match authHeader with
                      | None => None
                      | Some header =>
                          if String.eqb header "" then Some header
                          else split " "%char header !! 1
                      end).
  set (chosen := match headerToken with
                 | Some t => if String.eqb t "" then queryToken else Some t
                 | None => queryToken
                 end).
  clearbody chosen. clear headerToken.
  destruct chosen as [token|]; simpl.
  2:{ repeat split; try done; intros; try done.
      all: by match goal with H : _ ∈ [] |- _ =>
                apply not_elem_of_nil in H end. }
  destruct (String.eqb_spec token "") as [->|Hne]; simpl.
  { repeat split; try done; intros; try done.
    all: by match goal with H : _ ∈ [] |- _ =>
              apply not_elem_of_nil in H end. }
  destruct (verifyToken k token) as [decoded|] eqn:Hverify; simpl.
  - destruct (findUser k decoded) as [row|] eqn:Hfind; simpl.
    + split; [|split; [|split]].
      * intros user email [= <- <-]. by exists token, decoded, row.
      * intros d Hd. apply elem_of_cons in Hd as [|Hd]; [done|].
        apply list_elem_of_singleton in Hd as [= ->]. by exists token.
      * intros t Ht. apply elem_of_cons in Ht as [[= ->]|Ht].
        -- split; [done|]. split; [congruence|]. intros d. congruence.
        -- by apply list_elem_of_singleton in Ht.
      * split; done.
    + split; [|split; [|split]].
      * done.
      * intros d Hd. apply elem_of_cons in Hd as [|Hd]; [done|].
        apply list_elem_of_singleton in Hd as [= ->]. by exists token.
      * intros t Ht. apply elem_of_cons in Ht as [[= ->]|Ht].
        -- split; [done|]. split; [congruence|]. done.
        -- by apply list_elem_of_singleton in Ht.
      * split; done.
  - split; [|split; [|split]].
    + done.
    + intros d Hd. by apply list_elem_of_singleton in Hd.
    + intros t Ht. apply list_elem_of_singleton in Ht as [= ->].
      split; [done|]. split; [done|]. intros d. congruence.
    + split; done.
Qed.

(** ** Lines of the manifest *)

Lemma lineBreaks_ToString_js_or (v d : JSValue) :
  oneLine v -> oneLine d -> lineBreaks (ToString (js_or v d)) = 0.
Proof.
  intros Hv Hd. unfold js_or.
  assert (H : forall u, oneLine u -> lineBreaks (ToString u) = 0).
  { intros [| |[|]|x|s]; simpl; try done. intros _. apply lineBreaks_toString. }
  destruct (ToBoolean v); by apply H.
Qed.

(** X19. The manifest has a fixed shape: when neither the dataset name,
    nor a class name, nor a string given in the configuration holds a
    line break, [config.yaml] has exactly nine lines of keys and one
    line for each class (one empty line when there is no class), each
    ended by a line break. *)
Theorem manifest_line_count (cfg : TrainingConfig)
    (classNames : list string) (datasetName : string) (timestamp : N) :
  oneLine (epochs cfg) -> oneLine (batchSize cfg) -> oneLine (imgSize cfg) ->
  oneLine (learningRate cfg) -> oneLine (modelType cfg) ->
  oneLine (datasetSplitRatio cfg) ->
  lineBreaks datasetName = 0 ->
  Forall (fun n => lineBreaks n = 0) classNames ->
  lineBreaks (createConfigYaml cfg classNames datasetName timestamp)
  = 9 + max 1 (length classNames).
Proof.
  intros He Hb Hi Hl Hm Hd Hname Hclasses.
  unfold createConfigYaml.
  rewrite !lineBreaks_app, !lineBreaks_ToString_js_or by done.
  rewrite lineBreaks_join, length_map.
  - rewrite lineBreaks_pretty_nat, lineBreaks_pretty_N, Hname. simpl.
    destruct classNames; simpl; lia.
  - apply Forall_forall. intros s Hs.
    apply list_elem_of_In, in_map_iff in Hs as (n & <- & Hn).
    rewrite lineBreaks_app. simpl.
    rewrite Forall_forall in Hclasses. apply Hclasses.
    by apply list_elem_of_In.
Qed.

(** * The further statements at sample inputs *)

Example relay_routes_examples :
  startRunpod (answering startedBody)
    (Primitive (JSString "https://minio.example/cats.zip"))
    (Primitive JSUndefined) (Primitive (JSString ""))
  = (Json (JSObject
             [("message",
               Primitive (JSString
                 "Training started successfully through worker"));
              ("trainingId", Primitive (JSString "t-1"));
              ("podId", Primitive (JSString "pod-7"));
              ("status", Primitive (JSString "starting"));
              ("workerMessage", Primitive (JSString "queued"))]),
     [PostTraining "https://worker.example/start-training"
        (JSObject
           [("datasetZip", Primitive JSNull);
            ("datasetName", Primitive (JSString "training-dataset"));
            ("trainingConfig", JSObject [])])])
  /\ trainingStatus (answering (Primitive JSNull)) "t-1&x=1"
     = (Json (Primitive JSNull),
        [GetStatus "https://worker.example/training-status?id=t-1&x=1"])
  /\ exportToWorker
       (answering (JSObject [("message", Primitive (JSString "stored"))]))
       "u1" (Primitive (JSString "UEsDBA==")) (Primitive (JSString "cats"))
       (Primitive (JSString "u2/cats")) (Primitive JSUndefined)
     = (Json (JSObject
                [("message",
                  Primitive (JSString
                    "Dataset exported to MinIO via worker successfully"));
                 ("source", Primitive (JSString "cloudflare-worker"));
                 ("workerUrl", Primitive (JSString "https://worker.example"));
                 ("message", Primitive (JSString "stored"))]),
        [PostDataset "https://worker.example/upload-dataset"
           {| formFile := FromBase64 "UEsDBA==";
              formFileName := "u2/cats.zip";
              formUploadPath := "u2/cats";
              formBucket := "datasets";
              formAutoStartTraining := "false";
              formTrainingConfig := JSObject [] |}]).
Proof. vm_compute. repeat split. Qed.

(** Values that do not print: a log line of the route throws, the answer
    is 500 and, where the line comes before the request, the worker is
    not called. The spread of a string copies one property per code
    unit. *)
Example unprintable_examples :
  ToStringAny unprintable = Raised "Cannot convert object to primitive value"
  /\ ToStringAny (JSArray [Primitive (JSNumber 1); Primitive JSNull;
                           JSArray [Primitive (JSNumber 2); JSObject []]])
     = Done "1,,2,[object Object]"
  /\ startRunpod (answering startedBody)
       (Primitive (JSString "https://minio.example/cats.zip"))
       (Primitive JSUndefined) unprintable
     = (Failure "Failed to start training through worker"
          "Cannot convert object to primitive value" None, [])
  /\ (startRunpod
        (answering (JSObject [("success", Primitive (JSBoolean true));
                              ("trainingId", unprintable)]))
        (Primitive (JSString "https://minio.example/cats.zip"))
        (Primitive JSUndefined) (Primitive JSUndefined)).1
     = Failure "Failed to start training through worker"
         "Cannot convert object to primitive value" None
  /\ exportToWorker (answering (JSObject [])) "u1"
       (Primitive (JSString "UEsDBA==")) (Primitive (JSString "cats"))
       unprintable (Primitive JSUndefined)
     = (Failure "Failed to export to worker"
          "Cannot convert object to primitive value"
          (Some (JSString "https://worker.example")), [])
  /\ (exportToWorker (answering (JSObject [("fileName", unprintable)])) "u1"
        (Primitive (JSString "UEsDBA==")) (Primitive (JSString "cats"))
        (Primitive JSUndefined) (Primitive JSUndefined)).1
     = Failure "Failed to export to worker"
         "Cannot convert object to primitive value"
         (Some (JSString "https://worker.example"))
  /\ ownFields (Primitive (JSString "é")) = [("0", Primitive (JSString "é"))]
  /\ length (ownFields (Primitive (JSString "😀"))) = 2.
Proof. vm_compute. repeat split. Qed.

Example authenticateToken_examples :
  authenticateToken sampleKeys (Some "Bearer tok-1") None
  = (Next "u1" "u1@example.org", [Verified "tok-1"; LookedUp "u1"])
  /\ authenticateToken sampleKeys (Some "Basic tok-1") (Some "other")
     = (Next "u1" "u1@example.org", [Verified "tok-1"; LookedUp "u1"])
  /\ authenticateToken sampleKeys (Some "tok-1") None
     = (Unauthorized "Access token required", [])
  /\ authenticateToken sampleKeys (Some "Bearer  tok-1") (Some "tok-1")
     = (Next "u1" "u1@example.org", [Verified "tok-1"; LookedUp "u1"])
  /\ authenticateToken sampleKeys None (Some "stale")
     = (Forbidden "Invalid or expired token", [Verified "stale"])
  /\ split " "%char "a  b" = ["a"; ""; "b"].
Proof. vm_compute. repeat split. Qed.

Lemma start_listing_failure_witness :
  accepted_request unlistedWorld /\ annotationRows unlistedWorld <> []
  /\ Forall (fun a => imageId a ∉ inheritedNames) (annotationRows unlistedWorld)
  /\ readdir unlistedWorld (datasetPathOf unlistedWorld) = None
  /\ start ascii_toLowerCase unlistedWorld
     = (InternalServerError, [FsReaddir "/app/uploads/datasets/d1"]).
Proof.
  assert (H1 : accepted_request unlistedWorld) by (repeat split; reflexivity).
  assert (H2 : annotationRows unlistedWorld <> []) by discriminate.
  assert (H0 : Forall (fun a => imageId a ∉ inheritedNames)
                      (annotationRows unlistedWorld)) by compute_done.
  assert (H3 : readdir unlistedWorld (datasetPathOf unlistedWorld) = None)
    by reflexivity.
  repeat (split; [assumption|]).
  destruct (start_listing_failure ascii_toLowerCase unlistedWorld H1 H2 H0 H3)
    as [H _].
  rewrite H. vm_compute. reflexivity.
Defined.

Lemma start_reads_only_listed_images_witness :
  (FsAccess "/app/uploads/datasets/d1/a.jpg"
     ∈ (start ascii_toLowerCase (sampleWorld true successReply)).2
   \/ FsReadFile "/app/uploads/datasets/d1/a.jpg"
        ∈ (start ascii_toLowerCase (sampleWorld true successReply)).2)
  /\ exists datasetFiles name,
       readdir (sampleWorld true successReply)
         (datasetPathOf (sampleWorld true successReply)) = Some datasetFiles
       /\ name ∈ datasetFiles
       /\ "/app/uploads/datasets/d1/a.jpg"
          = path_join (datasetPathOf (sampleWorld true successReply)) name.
Proof.
  assert (H1 : FsAccess "/app/uploads/datasets/d1/a.jpg"
     ∈ (start ascii_toLowerCase (sampleWorld true successReply)).2
   \/ FsReadFile "/app/uploads/datasets/d1/a.jpg"
        ∈ (start ascii_toLowerCase (sampleWorld true successReply)).2).
  { left. apply list_elem_of_In. vm_compute. right. left. reflexivity. }
  split; [exact H1|].
  destruct (start_reads_only_listed_images ascii_toLowerCase
              (sampleWorld true successReply) _ H1)
    as (fs & name & Hdir & Hin & _ & Hpath & _).
  by exists fs, name.
Defined.


Lemma posted_labels_match_annotations_witness :
  let w := sampleWorld true successReply in
  let formData :=
    formDataOf w (reconcile ascii_toLowerCase
            (list_to_set (imageId <$> annotationRows w)) (annotationRows w)
                    (imageFilesOf ascii_toLowerCase ["a.jpg"])).2 in
  HttpPost (uploadUrl w) formData ∈ (start ascii_toLowerCase w).2
  /\ labelsFolder (file formData) !! "a.txt"
     = Some "0 0.093750 0.070313 0.156250 0.078125"
  /\ exists f, labelFileNameOf f = "a.txt" /\ is_Some (readImage w f).
Proof.
  intros w formData.
  assert (H1 : HttpPost (uploadUrl w) formData
                 ∈ (start ascii_toLowerCase w).2).
  { apply list_elem_of_In. vm_compute. right. right. right. left.
    reflexivity. }
  assert (H2 : labelsFolder (file formData) !! "a.txt"
               = Some "0 0.093750 0.070313 0.156250 0.078125")
    by (vm_compute; reflexivity).
  split; [exact H1|]. split; [exact H2|].
  destruct (posted_labels_match_annotations ascii_toLowerCase w _ _ _ _ H1 H2)
    as (fs & f & group & _ & _ & Hname & _ & Hread & _).
  exists f. split; [exact Hname | exact Hread].
Defined.

Lemma posted_names_agree_witness :
  let w := sampleWorld true successReply in
  let formData :=
    formDataOf w (reconcile ascii_toLowerCase
            (list_to_set (imageId <$> annotationRows w)) (annotationRows w)
                    (imageFilesOf ascii_toLowerCase ["a.jpg"])).2 in
  HttpPost (uploadUrl w) formData ∈ (start ascii_toLowerCase w).2
  /\ mainDatasetFolder (file formData) = "cats_Training_1700000000000".
Proof.
  intros w formData.
  assert (H1 : HttpPost (uploadUrl w) formData
                 ∈ (start ascii_toLowerCase w).2).
  { apply list_elem_of_In. vm_compute. right. right. right. left.
    reflexivity. }
  split; [exact H1|].
  destruct (posted_names_agree ascii_toLowerCase w _ _ H1) as [H _].
  rewrite H. vm_compute. reflexivity.
Defined.

Lemma runpod_success_needs_flag_witness :
  ToBooleanAny (Primitive (JSString "https://minio.example/cats.zip")) = true
  /\ ToStringAny (Primitive JSUndefined) = Done "undefined"
  /\ exists body,
       (startRunpod (answering startedBody)
          (Primitive (JSString "https://minio.example/cats.zip"))
          (Primitive JSUndefined) (Primitive JSUndefined)).1 = Json body.
Proof.
  assert (H1 : ToBooleanAny
                 (Primitive (JSString "https://minio.example/cats.zip"))
               = true) by reflexivity.
  assert (H2 : ToStringAny (Primitive JSUndefined) = Done "undefined")
    by reflexivity.
  split; [exact H1|]. split; [exact H2|].
  destruct (runpod_success_needs_flag (answering startedBody)
              (Primitive (JSString "https://minio.example/cats.zip"))
              (Primitive JSUndefined) (Primitive JSUndefined) "undefined"
              H1 H2)
    as [[_ H] _].
  apply H.
  exists 200, "", startedBody, (Primitive (JSBoolean true)),
    (Primitive (JSString "t-1")), "t-1".
  repeat split; reflexivity.
Defined.

Lemma status_reply_is_relayed_witness :
  "t-1" <> ""
  /\ (trainingStatus
        (answering (JSObject [("success", Primitive (JSBoolean false))]))
        "t-1").1
     = Json (JSObject [("success", Primitive (JSBoolean false))]).
Proof.
  assert (H1 : "t-1" <> "") by discriminate.
  split; [exact H1|].
  destruct (status_reply_is_relayed
              (answering (JSObject [("success", Primitive (JSBoolean false))]))
              "t-1" H1) as (_ & H & _).
  by apply (H 200 "").
Defined.

Lemma export_path_is_the_callers_witness :
  ToBooleanAny (Primitive (JSString "UEsDBA==")) = true
  /\ ToBooleanAny (Primitive (JSString "cats")) = true
  /\ ToStringAny (Primitive (JSString "cats")) = Done "cats"
  /\ ToStringAny (Primitive (JSString "u2/cats")) = Done "u2/cats"
  /\ zipBlobOf (Primitive (JSString "UEsDBA==")) = Done (FromBase64 "UEsDBA==")
  /\ exists url form,
       (exportToWorker (answering (JSObject [])) "u1"
          (Primitive (JSString "UEsDBA==")) (Primitive (JSString "cats"))
          (Primitive (JSString "u2/cats")) (Primitive JSUndefined)).2
       = [PostDataset url form]
       /\ formAutoStartTraining form = "false".
Proof.
  assert (H1 : ToBooleanAny (Primitive (JSString "UEsDBA==")) = true)
    by reflexivity.
  assert (H2 : ToBooleanAny (Primitive (JSString "cats")) = true)
    by reflexivity.
  assert (H3 : ToStringAny (Primitive (JSString "cats")) = Done "cats")
    by reflexivity.
  assert (H4 : ToStringAny (Primitive (JSString "u2/cats")) = Done "u2/cats")
    by reflexivity.
  assert (H5 : zipBlobOf (Primitive (JSString "UEsDBA=="))
               = Done (FromBase64 "UEsDBA==")) by reflexivity.
  repeat (split; [assumption|]).
  destruct (export_path_is_the_callers (answering (JSObject [])) "u1"
              (Primitive (JSString "UEsDBA==")) (Primitive (JSString "cats"))
              (Primitive (JSString "u2/cats")) (Primitive JSUndefined)
              "cats" "u2/cats" (FromBase64 "UEsDBA==") H1 H2 H3 H4 H5)
    as (url & form & Hcall & _ & _ & _ & _ & Hauto & _).
  exists url, form. split; [exact Hcall | exact Hauto].
Defined.

Lemma manifest_line_count_witness :
  let cfg := trainingConfig (sampleWorld true successReply) in
  oneLine (epochs cfg) /\ oneLine (batchSize cfg) /\ oneLine (imgSize cfg)
  /\ oneLine (learningRate cfg) /\ oneLine (modelType cfg)
  /\ oneLine (datasetSplitRatio cfg)
  /\ lineBreaks "cats" = 0
  /\ Forall (fun n => lineBreaks n = 0) ["cat"; "dog"]
  /\ lineBreaks (createConfigYaml cfg ["cat"; "dog"] "cats" 1700000000000)
     = 11.
Proof.
  intros cfg.
  assert (H7 : lineBreaks "cats" = 0) by reflexivity.
  assert (H8 : Forall (fun n => lineBreaks n = 0) ["cat"; "dog"])
    by (repeat constructor).
  do 6 (split; [exact I|]). split; [exact H7|]. split; [exact H8|].
  exact (manifest_line_count cfg ["cat"; "dog"] "cats" 1700000000000
           I I I I I I H7 H8).
Defined.

(** * Inherited names as imageIds *)

(** X20. The grouping of the annotations by imageId is done in a plain
    object, so an annotation whose imageId is a name that every object
    inherits from [Object.prototype] ([constructor], [toString],
    [__proto__], ...) makes it throw: an accepted request with such an
    annotation is answered 500 "Internal server error" before the
    dataset directory is listed, whatever the other annotations and the
    files are. *)
Theorem inherited_image_id_is_internal_error (toLowerCase : string -> string)
    (w : World) (a : Annotation) :
  accepted_request w ->
  a ∈ annotationRows w ->
  imageId a ∈ inheritedNames ->
  annotationsByImage (annotationRows w)
  = Raised "acc[ann.imageId].push is not a function"
  /\ start toLowerCase w = (InternalServerError, [])
  /\ statusCode (start toLowerCase w).1 = 500
  /\ errorText (start toLowerCase w).1 = Some "Internal server error".
Proof.
  intros Hreq Ha Hin.
  assert (Hnot : ~ ordinaryImageIds (annotationRows w)).
  { unfold ordinaryImageIds. rewrite Forall_forall. intros Hall.
    by apply (Hall a). }
  assert (Hrows : annotationRows w <> []).
  { intros Hnil. rewrite Hnil in Ha. by apply not_elem_of_nil in Ha. }
  split; [by apply annotationsByImage_Raised|].
  by rewrite (start_inherited_imageId toLowerCase w Hreq Hrows Hnot).
Qed.

Lemma inherited_image_id_is_internal_error_witness :
  accepted_request inheritedIdWorld
  /\ annotationOn "2" "constructor" ∈ annotationRows inheritedIdWorld
  /\ imageId (annotationOn "2" "constructor") ∈ inheritedNames
  /\ start ascii_toLowerCase inheritedIdWorld = (InternalServerError, []).
Proof.
  assert (H1 : accepted_request inheritedIdWorld)
    by (repeat split; reflexivity).
  assert (H2 : annotationOn "2" "constructor" ∈ annotationRows inheritedIdWorld)
    by (right; left).
  assert (H3 : imageId (annotationOn "2" "constructor") ∈ inheritedNames)
    by left.
  repeat (split; [assumption|]).
  destruct (inherited_image_id_is_internal_error ascii_toLowerCase
              inheritedIdWorld (annotationOn "2" "constructor") H1 H2 H3)
    as (_ & H & _).
  exact H.
Defined.
